(** * icw-api: the rule engine, the schema validator, the error-handler
    registry, the service wrapper and the request dispatcher

    A shallow embedding of the TypeScript sources

      - framework/util/helper.ts               ([to_string])
      - framework/util/validation.ts           ([Validation])
      - framework/util/rules-common.ts         ([required], [optional],
                                                [default_value])
      - framework/util/validation-helper.ts    ([validate], [sanitize],
                                                [schema])
      - framework/util/app-response.ts         ([AppResponse])
      - framework/util/response-builder.ts     ([ApiResponse])
      - framework/middlewares/error-exception.middleware.ts
      - framework/util/base-service.ts         ([createProxy], [silent])
      - framework/util/router-builder.ts       ([wrappedHandler])

    followed by the properties the specification states about them. *)

From Stdlib Require Import String Ascii List ZArith NArith Bool Lia.
From Stdlib Require Import DecimalString.
Import ListNotations.
Set Warnings "-register-all".
Local Open Scope string_scope.
Local Open Scope list_scope.

(* ================================================================== *)
(** ** JavaScript values *)
(* ================================================================== *)

Module Js.

(** The built-in objects a property read can hand out: every value but
    [undefined] and [null] inherits from a prototype.  [KObject] stands
    for [Object.prototype], [KArray] for [Array.prototype], and so on. *)
Inductive Kind : Type := KObject | KArray | KString | KNumber | KBoolean.

(** The method [name] that the prototype [owner] defines, the
    constructor a prototype refers to, and the prototype itself. *)
Inductive Builtin : Type :=
| BFunction (owner : Kind) (name : string)
| BConstructor (k : Kind)
| BPrototype (k : Kind).

(** The values the code handles.  Numbers are the integers (the sources
    modelled here do no arithmetic on them), strings are sequences of
    8-bit characters, objects are plain objects, given by their own
    enumerable properties in enumeration order; their prototype is
    [Object.prototype].  Values are finite trees: no cycles, no sharing.
    The only functions among them are the built-in ones that a read
    finds on a prototype; such a function is opaque: it is never
    called, and its own members are not in the model.  Rules, handlers,
    filters and methods, the functions the program is made of, are not
    values but Rocq functions. *)
Inductive Value : Type :=
| VUndefined
| VNull
| VBool (b : bool)
| VNum (n : Z)
| VStr (s : string)
| VArr (l : list Value)
| VObj (o : list (string * Value))
| VBuiltin (b : Builtin).

(** A property list in enumeration order, whatever the properties hold. *)
Definition Obj (T : Type) : Type := list (string * T).

(** How an evaluation ends: normally with a result, or abruptly with the
    thrown value. *)
Inductive Completion (E A : Type) : Type :=
| Normal (a : A)
| Abrupt (e : E).
Arguments Normal {E A} a.
Arguments Abrupt {E A} e.

Definition bind {E A B} (c : Completion E A) (k : A -> Completion E B)
  : Completion E B :=
  match c with
  | Normal a => k a
  | Abrupt e => Abrupt e
  end.

(** ToBoolean on strings: [!!s]. *)
Definition truthy_str (s : string) : bool :=
  match s with
  | EmptyString => false
  | String _ _ => true
  end.

(** ToBoolean. *)
Definition truthy (v : Value) : bool :=
  match v with
  | VUndefined | VNull => false
  | VBool b => b
  | VNum n => negb (n =? 0)%Z
  | VStr s => truthy_str s
  | VArr _ | VObj _ | VBuiltin _ => true
  end.

(** [typeof v === 'function'] *)
Definition is_function (v : Value) : bool :=
  match v with
  | VBuiltin (BFunction _ _) | VBuiltin (BConstructor _) => true
  | _ => false
  end.

(** [typeof v === 'object'] *)
Definition typeof_object (v : Value) : bool :=
  match v with
  | VNull | VArr _ | VObj _ | VBuiltin (BPrototype _) => true
  | _ => false
  end.

(** *** Property keys *)

Definition digit_of (c : ascii) : option N :=
  let n := N_of_ascii c in
  if ((48 <=? n) && (n <=? 57))%N then Some (n - 48)%N else None.

Fixpoint parse_digits (s : string) (acc : N) : option N :=
  match s with
  | EmptyString => Some acc
  | String c s' =>
      match digit_of c with
      | Some d => parse_digits s' (acc * 10 + d)%N
      | None => None
      end
  end.

(** A key is an array index when it is the canonical decimal form of an
    integer below 2^32 - 1. *)
Definition array_index (k : string) : option N :=
  match k with
  | EmptyString => None
  | String c rest =>
      if Ascii.eqb c "0"%char
      then match rest with EmptyString => Some 0%N | _ => None end
      else match parse_digits k 0 with
           | Some n => if (n <? 4294967295)%N then Some n else None
           | None => None
           end
  end.

(** *** Objects as ordered property lists *)

Fixpoint lookup {T} (k : string) (o : Obj T) : option T :=
  match o with
  | [] => None
  | (k', v) :: o' => if String.eqb k k' then Some v else lookup k o'
  end.

Definition has {T} (k : string) (o : Obj T) : bool :=
  match lookup k o with Some _ => true | None => false end.

Definition keys {T} (o : Obj T) : list string := map fst o.

Fixpoint replace {T} (k : string) (v : T) (o : Obj T) : Obj T :=
  match o with
  | [] => []
  | (k', v') :: o' =>
      if String.eqb k k' then (k', v) :: o' else (k', v') :: replace k v o'
  end.

(** Creation of the index property [i]: index keys are enumerated first,
    in ascending order. *)
Fixpoint insert_index {T} (i : N) (k : string) (v : T) (o : Obj T) : Obj T :=
  match o with
  | [] => [(k, v)]
  | (k', v') :: o' =>
      match array_index k' with
      | Some j =>
          if (j <? i)%N then (k', v') :: insert_index i k v o'
          else (k, v) :: o
      | None => (k, v) :: o
      end
  end.

(** [o[k] = v] on an ordinary object: an existing property keeps its
    place; a new one is enumerated after the existing string keys, or
    among the index keys when it is one. *)
Definition set {T} (k : string) (v : T) (o : Obj T) : Obj T :=
  if has k o then replace k v o
  else match array_index k with
       | Some i => insert_index i k v o
       | None => o ++ [(k, v)]
       end.

(** [o[k] = v] as an assignment, on an object whose prototype is
    [Object.prototype].  The members an object inherits from it are
    writable data properties, which an assignment shadows with an own
    property, but for [__proto__]: that one is an accessor, and on an
    object that has no own property of the name the assignment goes to
    its setter, which creates no property.  (The setter replaces the
    prototype of the object when [v] is an object or [null]; the
    prototype of an object under construction is not recorded here, only
    its own properties are.) *)
Definition assign {T} (k : string) (v : T) (o : Obj T) : Obj T :=
  if String.eqb k "__proto__" && negb (has k o) then o else set k v o.

(** [{...a, ...b}]: the properties of [a], then those of [b], copied in
    enumeration order into a fresh object.  A spread defines the
    properties it copies: no setter is involved. *)
Definition assign_all {T} (target src : Obj T) : Obj T :=
  fold_left (fun acc kv => set (fst kv) (snd kv) acc) src target.

Definition spread {T} (a b : Obj T) : Obj T :=
  assign_all (assign_all [] a) b.

(** No key twice: what every JavaScript object satisfies. *)
Fixpoint wf_keys (ks : list string) : bool :=
  match ks with
  | [] => true
  | k :: ks' => negb (existsb (String.eqb k) ks') && wf_keys ks'
  end.

Definition wf {T} (o : Obj T) : bool := wf_keys (keys o).

(** *** Property access *)

(** [s[i]] on a string: the character at [i], as a string. *)
Definition char_at (s : string) (i : nat) : Value :=
  match String.get i s with
  | Some c => VStr (String c EmptyString)
  | None => VUndefined
  end.

(** The methods of the built-in prototypes, by name, as Node.js 20 and
    later have them.  The property [constructor], which every one of the
    prototypes has, the [length] of [Array.prototype] and
    [String.prototype], and the accessor [__proto__] of
    [Object.prototype] are dealt with apart. *)
Definition methods (kd : Kind) : list string :=
  match kd with
  | KObject =>
      ["__defineGetter__"; "__defineSetter__"; "hasOwnProperty";
       "__lookupGetter__"; "__lookupSetter__"; "isPrototypeOf";
       "propertyIsEnumerable"; "toString"; "valueOf"; "toLocaleString"]
  | KArray =>
      ["at"; "concat"; "copyWithin"; "fill"; "find"; "findIndex";
       "findLast"; "findLastIndex"; "lastIndexOf"; "pop"; "push";
       "reverse"; "shift"; "unshift"; "slice"; "sort"; "splice";
       "includes"; "indexOf"; "join"; "keys"; "entries"; "values";
       "forEach"; "filter"; "flat"; "flatMap"; "map"; "every"; "some";
       "reduce"; "reduceRight"; "toLocaleString"; "toString";
       "toReversed"; "toSorted"; "toSpliced"; "with"]
  | KString =>
      ["anchor"; "at"; "big"; "blink"; "bold"; "charAt"; "charCodeAt";
       "codePointAt"; "concat"; "endsWith"; "fontcolor"; "fontsize";
       "fixed"; "includes"; "indexOf"; "isWellFormed"; "italics";
       "lastIndexOf"; "link"; "localeCompare"; "match"; "matchAll";
       "normalize"; "padEnd"; "padStart"; "repeat"; "replace";
       "replaceAll"; "search"; "slice"; "small"; "split"; "strike";
       "sub"; "substr"; "substring"; "sup"; "startsWith"; "toString";
       "toWellFormed"; "trim"; "trimStart"; "trimLeft"; "trimEnd";
       "trimRight"; "toLocaleLowerCase"; "toLocaleUpperCase";
       "toLowerCase"; "toUpperCase"; "valueOf"]
  | KNumber =>
      ["toExponential"; "toFixed"; "toPrecision"; "toString"; "valueOf";
       "toLocaleString"]
  | KBoolean => ["toString"; "valueOf"]
  end.

(** [l.includes(k)] on names. *)
Definition mem (k : string) (l : list string) : bool :=
  existsb (String.eqb k) l.

(** The own property [k] of the prototype [kd], [__proto__] apart. *)
Definition prototype_own (kd : Kind) (k : string) : option Value :=
  if String.eqb k "constructor" then Some (VBuiltin (BConstructor kd))
  else if mem k (methods kd) then Some (VBuiltin (BFunction kd k))
  else if String.eqb k "length"
       then match kd with
            | KArray | KString => Some (VNum 0)
            | _ => None
            end
       else None.

(** What a read of [k] finds on the chain of prototypes that starts at
    the prototype [kd], for a receiver whose prototype [kd] is: the
    member of [kd], else that of [Object.prototype], whose accessor
    [__proto__] answers with the prototype of the receiver. *)
Definition inherited (kd : Kind) (k : string) : Value :=
  match prototype_own kd k with
  | Some x => x
  | None =>
      match prototype_own KObject k with
      | Some x => x
      | None =>
          if String.eqb k "__proto__" then VBuiltin (BPrototype kd)
          else VUndefined
      end
  end.

(** Whether the chain that starts at [kd] has a property [k]. *)
Definition in_chain (kd : Kind) (k : string) : bool :=
  match prototype_own kd k, prototype_own KObject k with
  | None, None => String.eqb k "__proto__"
  | _, _ => true
  end.

(** The own property [k] of a value: a property of an object, an element
    or the [length] of an array or a string, a member of a prototype. *)
Definition own_property (v : Value) (k : string) : option Value :=
  match v with
  | VObj o => lookup k o
  | VArr l =>
      match array_index k with
      | Some i =>
          if (N.to_nat i <? length l)%nat
          then Some (nth (N.to_nat i) l VUndefined) else None
      | None => if String.eqb k "length" then Some (VNum (Z.of_nat (length l)))
                else None
      end
  | VStr s =>
      match array_index k with
      | Some i =>
          if (N.to_nat i <? String.length s)%nat
          then Some (char_at s (N.to_nat i)) else None
      | None => if String.eqb k "length"
                then Some (VNum (Z.of_nat (String.length s)))
                else None
      end
  | VBuiltin (BPrototype kd) => prototype_own kd k
  | _ => None
  end.

Definition nullish (v : Value) : bool :=
  match v with
  | VUndefined | VNull => true
  | _ => false
  end.

(** [v[k]] for a value that is neither [undefined] nor [null]: the own
    property, else what the value inherits.  A primitive reads from the
    prototype of its wrapper.  The members of a built-in function are
    not in the model (they read as [undefined] here): a statement that
    depends on what the input holds for a field takes an input that is
    no function. *)
Definition read (v : Value) (k : string) : Value :=
  match own_property v k with
  | Some x => x
  | None =>
      match v with
      | VObj _ => inherited KObject k
      | VArr _ => inherited KArray k
      | VStr _ => inherited KString k
      | VNum _ => inherited KNumber k
      | VBool _ => inherited KBoolean k
      | VBuiltin (BPrototype KObject) =>
          if String.eqb k "__proto__" then VNull else VUndefined
      | VBuiltin (BPrototype _) => inherited KObject k
      | _ => VUndefined
      end
  end.

(** [k in v] for an object or an array: own or inherited. *)
Definition js_in (k : string) (v : Value) : bool :=
  match own_property v k with
  | Some _ => true
  | None =>
      match v with
      | VObj _ => in_chain KObject k
      | VArr _ => in_chain KArray k
      | VBuiltin (BPrototype KObject) => String.eqb k "__proto__"
      | VBuiltin (BPrototype _) => in_chain KObject k
      | _ => false
      end
  end.

(** *** String(v) *)

Definition string_of_Z (n : Z) : string :=
  NilZero.string_of_int (Z.to_int n).

Fixpoint join (sep : string) (l : list string) : string :=
  match l with
  | [] => ""
  | [s] => s
  | s :: l' => s ++ sep ++ join sep l'
  end.

(** The name of a kind's constructor. *)
Definition constructor_name (kd : Kind) : string :=
  match kd with
  | KObject => "Object"
  | KArray => "Array"
  | KString => "String"
  | KNumber => "Number"
  | KBoolean => "Boolean"
  end.

Definition native_code (name : string) : string :=
  "function " ++ name ++ "() { [native code] }".

(** [String(v)] for a primitive and for a built-in, where the conversion
    consults no property of [v] that a program can set; [None] for the
    objects and arrays, whose conversion goes through their methods. *)
Definition String_ (v : Value) : option string :=
  match v with
  | VUndefined => Some "undefined"
  | VNull => Some "null"
  | VBool true => Some "true"
  | VBool false => Some "false"
  | VNum n => Some (string_of_Z n)
  | VStr s => Some s
  | VBuiltin (BFunction _ name) => Some (native_code name)
  | VBuiltin (BConstructor kd) => Some (native_code (constructor_name kd))
  | VBuiltin (BPrototype KObject) => Some "[object Object]"
  | VBuiltin (BPrototype KArray) => Some ""
  | VBuiltin (BPrototype KString) => Some ""
  | VBuiltin (BPrototype KNumber) => Some "0"
  | VBuiltin (BPrototype KBoolean) => Some "false"
  | VArr _ | VObj _ => None
  end.

End Js.

Import Js.

(* ================================================================== *)
(** ** framework/util/validation.ts *)
(* ================================================================== *)

Module Validation.

(** [enum VALIDATION_ERROR] *)
Definition ERR_FIELD : string := "ERR_FIELD".
Definition ERR_UNKNOWN : string := "ERR_UNKNOWN".

(** [class ValidationMessage]; [field] is [None] for [null]. *)
Record ValidationMessage : Type := mkMessage {
  code : string;
  message : string;
  field : option string
}.

(** [class Validation]: the messages pushed so far, oldest first. *)
Record t : Type := mk { messages : list ValidationMessage }.

(** [new Validation()] *)
Definition new : t := mk [].

(** [a || b] on strings. *)
Definition or_else (a b : string) : string :=
  if truthy_str a then a else b.

(** [add(...args)]: one, two or three positional arguments; any other
    number of arguments adds nothing. *)
Definition add (args : list string) (v : t) : t :=
  let validation_message :=
    match args with
    | [a0] => Some (mkMessage ERR_UNKNOWN a0 None)
    | [a0; a1] =>
        let code := or_else a0 ERR_UNKNOWN in
        let message := a1 in
        if truthy_str code && truthy_str message
        then Some (mkMessage code message None) else None
    | [a0; a1; a2] =>
        let field := a0 in
        let code := or_else a1 ERR_UNKNOWN in
        let message := a2 in
        if truthy_str field && truthy_str code && truthy_str message
        then Some (mkMessage code message (Some field)) else None
    | _ => None
    end in
  match validation_message with
  | Some m => mk (messages v ++ [m])
  | None => v
  end.

(** [isValid()] *)
Definition isValid (v : t) : bool :=
  (length (messages v) =? 0)%nat.

(** [if (msg.field)]: a field that is neither [null] nor empty. *)
Definition field_truthy (f : option string) : option string :=
  match f with
  | Some s => if truthy_str s then Some s else None
  | None => None
  end.

(** [getFormatted()]: field name to message, [_error] for the messages
    that carry no field; a later message for the same key overwrites.
    The messages are assigned to an object literal. *)
Definition getFormatted (v : t) : Obj string :=
  fold_left
    (fun formatted msg =>
       match field_truthy (field msg) with
       | Some f => Js.assign f (message msg) formatted
       | None => Js.assign "_error" (message msg) formatted
       end)
    (messages v) [].

(** [getMessages()] *)
Definition getMessages (v : t) : list string :=
  map message (messages v).

(** A message as the JSON serializer sees it: the three instance
    properties in the order the constructor assigns them. *)
Definition value_of_message (m : ValidationMessage) : Value :=
  VObj [("code", VStr (code m));
        ("message", VStr (message m));
        ("field", match field m with Some f => VStr f | None => VNull end)].

(** [validation.messages] as a value. *)
Definition value_of_messages (v : t) : Value :=
  VArr (map value_of_message (messages v)).

(** The result of [getFormatted()] as a value. *)
Definition value_of_formatted (v : t) : Value :=
  VObj (map (fun kv => (fst kv, VStr (snd kv))) (getFormatted v)).

End Validation.

(* ================================================================== *)
(** ** Thrown values; framework/util/app-exception.ts *)
(* ================================================================== *)

Module Errors.

(** [class AppException extends Error] *)
Record AppException : Type := mkAppException {
  ex_message : string;
  statusCode : Z;
  ex_stack : string
}.

(** What a [throw] can carry here: a [Validation] instance, an
    [AppException] instance, or any other value (an [Error] object is
    the object of its [message], [stack], ... properties). *)
Inductive Thrown : Type :=
| EValidation (v : Validation.t)
| EAppException (e : AppException)
| EValue (v : Value).

(** The [TypeError] of a property read on [undefined] or [null]. *)
Definition TypeError (v : Value) (k : string) : Thrown :=
  EValue (VObj [("message",
                 VStr ("Cannot read properties of "
                       ++ match v with VNull => "null" | _ => "undefined" end
                       ++ " (reading '" ++ k ++ "')"))]).

Definition Result (A : Type) : Type := Completion Thrown A.

(** [v[k]] and [v.k] *)
Definition get (v : Value) (k : string) : Result Value :=
  if nullish v then Abrupt (TypeError v k) else Normal (read v k).

(** [v?.k] *)
Definition get_opt (v : Value) (k : string) : Value :=
  if nullish v then VUndefined else read v k.

(** The [TypeError] of a conversion that finds no method to call. *)
Definition cannot_convert : Thrown :=
  EValue (VObj [("message", VStr "Cannot convert object to primitive value")]).

(** [String(v)].  An array joins the conversions of its elements, left
    to right, [undefined] and [null] giving the empty string.  An object
    is converted by its [toString]: the one of [Object.prototype], which
    it inherits unless it has an own property of the name.  An own
    [toString] that is no function is passed over, and [valueOf] after
    it, which is no function either or returns the object: the
    conversion then throws.  An own [toString] or [valueOf] that holds a
    built-in function other than [Object.prototype.toString] would be
    called; built-in functions are not run in this model, and the
    conversion is taken to throw there too. *)
Fixpoint ToString (v : Value) : Result string :=
  match v with
  | VArr l =>
      match
        (fix elems (l : list Value) : Result (list string) :=
           match l with
           | [] => Normal []
           | x :: l' =>
               match (if nullish x then Normal "" else ToString x) with
               | Normal s =>
                   match elems l' with
                   | Normal ss => Normal (s :: ss)
                   | Abrupt e => Abrupt e
                   end
               | Abrupt e => Abrupt e
               end
           end) l
      with
      | Normal ss => Normal (join "," ss)
      | Abrupt e => Abrupt e
      end
  | VObj o =>
      match lookup "toString" o with
      | None => Normal "[object Object]"
      | Some (VBuiltin (BFunction KObject name)) =>
          if String.eqb name "toString" then Normal "[object Object]"
          else Abrupt cannot_convert
      | Some _ => Abrupt cannot_convert
      end
  | _ =>
      match String_ v with
      | Some s => Normal s
      | None => Normal ""
      end
  end.

(** [error.k] on a thrown value, for the properties the handlers read.
    A [Validation] has the property [messages]; an [AppException] has
    [message], [statusCode] and [stack]. *)
Definition get_thrown (e : Thrown) (k : string) : Result Value :=
  match e with
  | EValidation v =>
      Normal (if String.eqb k "messages" then Validation.value_of_messages v
              else VUndefined)
  | EAppException x =>
      Normal (if String.eqb k "message" then VStr (ex_message x)
              else if String.eqb k "statusCode" then VNum (statusCode x)
              else if String.eqb k "stack" then VStr (ex_stack x)
              else VUndefined)
  | EValue v => get v k
  end.

(** [error?.k] *)
Definition get_thrown_opt (e : Thrown) (k : string) : Value :=
  match get_thrown e k with
  | Normal v => v
  | Abrupt _ => VUndefined
  end.

End Errors.

(* ================================================================== *)
(** ** framework/util/helper.ts *)
(* ================================================================== *)

Module Helper.

Import Errors.

(** [to_string(value, defaultValue = null)]; [None] is [null]. *)
Definition to_string (value : Value) (defaultValue : option string)
  : Result (option string) :=
  match value with
  | VUndefined | VNull => Normal defaultValue
  | VStr EmptyString => Normal defaultValue
  | _ =>
      match ToString value with
      | Normal s => Normal (Some s)
      | Abrupt e => Abrupt e
      end
  end.

(** The values [to_string] replaces by the default: what the rules
    built on it take for an empty field. *)
Definition empty_value (v : Value) : Prop :=
  v = VUndefined \/ v = VNull \/ v = VStr "".

End Helper.

(* ================================================================== *)
(** ** framework/util/rules-common.ts *)
(* ================================================================== *)

Module Rules.

Import Errors Helper.

Section WithWorld.

(** Rules are JavaScript functions: besides returning, a call may act on
    the world around it (a test probe counting its calls), and it may
    throw.  [W] is that world; a rule maps the field value, the input
    and the world to its outcome and the world it leaves. *)
Variable W : Type.

(** [type Rule]: the function and its optional properties ([false] and
    [VUndefined] when not set).  The result is the error message, [None]
    for [null]. *)
Record Rule : Type := mkRule {
  call : Value -> Value -> W -> Result (option string) * W;
  needsContext : bool;
  isOptional : bool;
  isDefault : bool;
  defaultValue : Value
}.

(** A function that touches nothing. *)
Definition pure_fn (f : Value -> Value -> Result (option string))
  : Value -> Value -> W -> Result (option string) * W :=
  fun v input w => (f v input, w).

(** [!x] for [x : string | null] *)
Definition falsy (x : option string) : bool :=
  match x with
  | Some s => negb (truthy_str s)
  | None => true
  end.

(** [required(msg = 'Campo obrigatório')] *)
Definition required_default_msg : string := "Campo obrigatório".

(** [!to_string(v, '') ? msg : null]; the conversion may throw. *)
Definition msg_if_empty (msg : string) (v : Value) : Result (option string) :=
  match to_string v (Some "") with
  | Normal s => Normal (if falsy s then Some msg else None)
  | Abrupt e => Abrupt e
  end.

Definition required (msg : string) : Rule :=
  mkRule (pure_fn (fun v _ => msg_if_empty msg v))
    false false false VUndefined.

(** [optional()] *)
Definition optional : Rule :=
  mkRule (pure_fn (fun _ _ => Normal None)) false true false VUndefined.

(** [default_value(value)] *)
Definition default_value (value : Value) : Rule :=
  mkRule (pure_fn (fun _ _ => Normal None)) false true true value.

(** [def] *)
Definition def : Value -> Rule := default_value.

End WithWorld.

Arguments mkRule {W}.
Arguments call {W}.
Arguments needsContext {W}.
Arguments isOptional {W}.
Arguments isDefault {W}.
Arguments defaultValue {W}.
Arguments required {W}.
Arguments optional {W}.
Arguments default_value {W}.
Arguments def {W}.

End Rules.

(* ================================================================== *)
(** ** framework/util/validation-helper.ts *)
(* ================================================================== *)

Module ValidationHelper.

Import Errors Rules.

Section WithWorld.

Variable W : Type.

(** An element of a field's rule list is [any]: a rule function, or some
    value that is not a function ([typeof rule !== 'function']). *)
Inductive RuleEntry : Type :=
| RFun (rule : Rule W)
| RNotFun (v : Value).

(** [Record<string, any | any[]>]: a field maps to one entry or to an
    array of entries. *)
Inductive FieldRules : Type :=
| FOne (e : RuleEntry)
| FMany (l : list RuleEntry).

Definition RuleMap : Type := Obj FieldRules.

(** [Array.isArray(fieldRules) ? fieldRules : [fieldRules]] *)
Definition ruleArray (fieldRules : FieldRules) : list RuleEntry :=
  match fieldRules with
  | FMany l => l
  | FOne (RNotFun (VArr l)) => map RNotFun l
  | FOne e => [e]
  end.

(** [if (error) validation.add(error)] *)
Definition add_if_error (error : option string) (validation : Validation.t)
  : Validation.t :=
  match error with
  | Some e => if truthy_str e then Validation.add [e] validation else validation
  | None => validation
  end.

(** [rule.needsContext ? rule(value, input) : rule(value)] *)
Definition call_rule (r : Rule W) (input value : Value) (w : W)
  : Result (option string) * W :=
  if needsContext r then call r value input w else call r value VUndefined w.

(** The body of [ruleArray.forEach((rule) => ...)] in [validate]; there
    is no [try] around the call of the rule. *)
Definition apply_rule (input value : Value)
  (acc : Validation.t * W) (rule : RuleEntry) : Result Validation.t * W :=
  let (validation, w) := acc in
  match rule with
  | RNotFun _ => (Normal validation, w)
  | RFun r =>
      match call_rule r input value w with
      | (Normal error, w') => (Normal (add_if_error error validation), w')
      | (Abrupt e, w') => (Abrupt e, w')
      end
  end.

(** [ruleArray.forEach]: every element is visited, in order, unless a
    rule throws, which ends the loop. *)
Fixpoint each_rule (input value : Value) (rs : list RuleEntry)
  (acc : Validation.t * W) : Result Validation.t * W :=
  match rs with
  | [] => let (validation, w) := acc in (Normal validation, w)
  | rule :: rest =>
      match apply_rule input value acc rule with
      | (Normal validation, w) => each_rule input value rest (validation, w)
      | (Abrupt e, w) => (Abrupt e, w)
      end
  end.

(** The rules of one field. *)
Definition validate_field (input value : Value) (fieldRules : FieldRules)
  (acc : Validation.t * W) : Result Validation.t * W :=
  each_rule input value (ruleArray fieldRules) acc.

(** [Object.entries(rules).forEach(([field, fieldRules]) => ...)]; the
    read [input[field]] throws on a nullish input and ends the loop, and
    so does a rule that throws. *)
Fixpoint validate_entries (input : Value) (entries : RuleMap)
  (validation : Validation.t) (w : W) : Result Validation.t * W :=
  match entries with
  | [] => (Normal validation, w)
  | (field, fieldRules) :: rest =>
      match get input field with
      | Abrupt e => (Abrupt e, w)
      | Normal value =>
          match validate_field input value fieldRules (validation, w) with
          | (Normal validation', w') =>
              validate_entries input rest validation' w'
          | (Abrupt e, w') => (Abrupt e, w')
          end
      end
  end.

(** [validate(input, rules)] *)
Definition validate (input : Value) (rules : RuleMap) (w : W)
  : Result Validation.t * W :=
  validate_entries input rules Validation.new w.

(** [r && r.isDefault] *)
Definition entry_isDefault (r : RuleEntry) : bool :=
  match r with
  | RFun rule => isDefault rule
  | RNotFun v => truthy v && truthy (read v "isDefault")
  end.

(** [defaultRule.defaultValue] *)
Definition entry_defaultValue (r : RuleEntry) : Value :=
  match r with
  | RFun rule => defaultValue rule
  | RNotFun v => read v "defaultValue"
  end.

(** [field in input && input[field] !== undefined &&
     input[field] !== null && input[field] !== ''] *)
Definition supplied (input : Value) (field : string) : bool :=
  js_in field input &&
  match read input field with
  | VUndefined | VNull => false
  | VStr EmptyString => false
  | _ => true
  end.

(** [rules[field]]; a key that is not there reads as [undefined]. *)
Definition rules_of (rules : RuleMap) (field : string) : FieldRules :=
  match lookup field rules with
  | Some fieldRules => fieldRules
  | None => FOne (RNotFun VUndefined)
  end.

(** The body of [allowedFields.forEach((field) => ...)] in [sanitize];
    the fields are assigned to an object literal. *)
Definition sanitize_field (input : Value) (rules : RuleMap)
  (result : Obj Value) (field : string) : Obj Value :=
  let defaultRule := find entry_isDefault (ruleArray (rules_of rules field)) in
  if supplied input field
  then Js.assign field (read input field) result
  else match defaultRule with
       | Some r => Js.assign field (entry_defaultValue r) result
       | None => result
       end.

(** [if (!input || typeof input !== 'object') input = {}] *)
Definition object_or_empty (input : Value) : Value :=
  if negb (truthy input) || negb (typeof_object input) then VObj []
  else input.

(** The value [sanitize] gives a declared field, [None] when it leaves
    the field out: the two branches of the loop body. *)
Definition sanitized (input : Value) (fieldRules : FieldRules)
  (field : string) : option Value :=
  let defaultRule := find entry_isDefault (ruleArray fieldRules) in
  if supplied input field then Some (read input field)
  else match defaultRule with
       | Some r => Some (entry_defaultValue r)
       | None => None
       end.

(** [sanitize(input, rules)] *)
Definition sanitize (input : Value) (rules : RuleMap) : Obj Value :=
  let input := object_or_empty input in
  fold_left (sanitize_field input rules) (keys rules) [].

(** *** Schemas

    [schema(rules)] keeps a reference to the rule map it is given, and
    [extend] builds a new rule map with an object literal.  The rule
    maps live in a store; a reference is a position in it. *)
Definition Ref : Type := nat.
Definition Store : Type := list RuleMap.

Definition deref (st : Store) (r : Ref) : RuleMap := nth r st [].

(** An object literal: a new object at a fresh reference. *)
Definition alloc (o : RuleMap) (st : Store) : Ref * Store :=
  (length st, st ++ [o]).

(** [interface Schema]: the [rules] property; [check], [pick] and
    [extend] close over the same reference. *)
Record Schema : Type := mkSchema { rules : Ref }.

(** [schema(rules)] *)
Definition schema (rules : Ref) : Schema := mkSchema rules.

(** [check(input)]: returns, or throws the validation itself. *)
Definition check (s : Schema) (input : Value) (st : Store) (w : W)
  : Result unit * W :=
  match validate input (deref st (rules s)) w with
  | (Normal validation, w') =>
      if negb (Validation.isValid validation)
      then (Abrupt (EValidation validation), w')
      else (Normal tt, w')
  | (Abrupt e, w') => (Abrupt e, w')
  end.

(** [pick(input)] *)
Definition pick (s : Schema) (input : Value) (st : Store) : Obj Value :=
  sanitize input (deref st (rules s)).

(** [extend(extraRules)]: [schema({ ...rules, ...extraRules })] *)
Definition extend (s : Schema) (extraRules : RuleMap) (st : Store)
  : Schema * Store :=
  let (r, st') := alloc (spread (deref st (rules s)) extraRules) st in
  (schema r, st').

(** What a caller can do with a schema it holds. *)
Inductive Op : Type :=
| OpCheck (input : Value)
| OpPick (input : Value)
| OpExtend (extraRules : RuleMap).

(** One use of schema [s]; an [extend] hands back the new schema, which
    the caller goes on with. *)
Definition use (op : Op) (s : Schema) (st : Store) (w : W)
  : Schema * Store * W :=
  match op with
  | OpCheck input => (s, st, snd (check s input st w))
  | OpPick _ => (s, st, w)
  | OpExtend extraRules =>
      let (s', st') := extend s extraRules st in (s', st', w)
  end.

Fixpoint use_all (ops : list Op) (s : Schema) (st : Store) (w : W)
  : Schema * Store * W :=
  match ops with
  | [] => (s, st, w)
  | op :: ops' =>
      let '(s', st', w') := use op s st w in use_all ops' s' st' w'
  end.

End WithWorld.

Arguments RFun {W}.
Arguments RNotFun {W}.
Arguments FOne {W}.
Arguments FMany {W}.
Arguments OpCheck {W}.
Arguments OpPick {W}.
Arguments OpExtend {W}.
Arguments ruleArray {W}.
Arguments call_rule {W}.
Arguments apply_rule {W}.
Arguments each_rule {W}.
Arguments validate_field {W}.
Arguments validate_entries {W}.
Arguments validate {W}.
Arguments entry_isDefault {W}.
Arguments entry_defaultValue {W}.
Arguments rules_of {W}.
Arguments sanitize_field {W}.
Arguments sanitized {W}.
Arguments sanitize {W}.
Arguments deref {W}.
Arguments alloc {W}.
Arguments check {W}.
Arguments pick {W}.
Arguments extend {W}.
Arguments use {W}.
Arguments use_all {W}.

End ValidationHelper.

(* ================================================================== *)
(** ** The Express response; framework/util/app-response.ts *)
(* ================================================================== *)

Module Http.

Import Errors.

(** The body every response carries. *)
Record Envelope : Type := mkEnvelope {
  success : bool;
  message : Value;
  data : Value;
  error : Value
}.

(** The request, as far as handlers read it. *)
Record Request : Type := mkRequest {
  req_body : Value;
  req_query : Value;
  req_params : Value
}.

(** The response object: the status code set so far, whether the
    response has gone out, and the body it went out with ([None] when
    it has not gone out, or went out without a body). *)
Record Response : Type := mkResponse {
  statusCode : Value;
  headersSent : bool;
  body : option Envelope
}.

(** A response nothing has touched: Express starts at status 200. *)
Definition fresh : Response := mkResponse (VNum 200) false None.

(** [res.status(code)] *)
Definition status (code : Value) (res : Response) : Response :=
  mkResponse code (headersSent res) (body res).

(** The error Node raises when headers are set on a response that has
    gone out. *)
Definition ERR_HTTP_HEADERS_SENT : Thrown :=
  EValue (VObj [("code", VStr "ERR_HTTP_HEADERS_SENT");
                ("message",
                 VStr "Cannot set headers after they are sent to the client")]).

(** [n | 0] on an integer. *)
Definition ToInt32 (n : Z) : Z :=
  ((n + 2147483648) mod 4294967296 - 2147483648)%Z.

(** The status code as Node takes it when the head is written,
    [statusCode |= 0].  A status code that is not a number is converted
    to one first: [undefined], [null], [false] and an object give 0,
    [true] gives 1.  The conversion of a string or an array that spells
    a number is not modelled: they read as 0 as well. *)
Definition status_int (code : Value) : Z :=
  match code with
  | VNum n => ToInt32 n
  | VBool true => 1%Z
  | _ => 0%Z
  end.

(** The error Node raises for a status code outside 100..999; the text
    names the status code as it was given (an object, which Node prints
    by inspection, leaves it empty here). *)
Definition ERR_HTTP_INVALID_STATUS_CODE (code : Value) : Thrown :=
  EValue (VObj [("code", VStr "ERR_HTTP_INVALID_STATUS_CODE");
                ("message",
                 VStr ("Invalid status code: "
                       ++ match String_ code with
                          | Some text => text
                          | None => ""
                          end))]).

(** Whether the response goes out without its body: Node writes no body
    with a status 1xx, 204 or 304, and Express (4.18 and later) empties
    the body it is given for 204, 205 and 304. *)
Definition bodyless (code : Value) : bool :=
  let c := status_int code in
  ((c <? 200) || (c =? 204) || (c =? 304))%Z
  || match code with
     | VNum n => (n =? 205)%Z
     | _ => false
     end.

(** [res.json(body)]: sends, unless the response has gone out already
    or the status code is none; the body is dropped for the status
    codes that carry none. *)
Definition json (b : Envelope) (res : Response) : Result unit * Response :=
  if headersSent res then (Abrupt ERR_HTTP_HEADERS_SENT, res)
  else
    let c := status_int (statusCode res) in
    if ((c <? 100) || (999 <? c))%Z
    then (Abrupt (ERR_HTTP_INVALID_STATUS_CODE (statusCode res)), res)
    else (Normal tt,
          mkResponse (VNum c) true
            (if bodyless (statusCode res) then None else Some b)).

(** [AppResponse(res, statusCode, success, data, message, error)] *)
Definition AppResponse (res : Response) (statusCode : Value)
  (success : bool) (data message error : Value) : Result unit * Response :=
  json (mkEnvelope success message data error) (status statusCode res).

End Http.

(* ================================================================== *)
(** ** framework/middlewares/error-exception.middleware.ts *)
(* ================================================================== *)

Module ErrorMiddleware.

Import Errors Http.

(** [interface ErrorHandler] *)
Record ErrorHandler : Type := mkHandler {
  canHandle : Thrown -> Result bool;
  handle : Thrown -> Request -> Response -> Result unit * Response
}.

(** [class ErrorHandlerRegistry]: the [handlers] array. *)
Definition Registry : Type := list ErrorHandler.

Definition register (handler : ErrorHandler) (handlers : Registry)
  : Registry := handlers ++ [handler].

Definition registerMany (hs : list ErrorHandler) (handlers : Registry)
  : Registry := handlers ++ hs.

Definition clear (handlers : Registry) : Registry := [].

Definition getHandlers (handlers : Registry) : list ErrorHandler := handlers.

(** [ErrorHandlerRegistry.handle(error, req, res)] *)
Fixpoint registry_handle (handlers : Registry) (error : Thrown)
  (req : Request) (res : Response) : Result bool * Response :=
  match handlers with
  | [] => (Normal false, res)
  | handler :: rest =>
      match canHandle handler error with
      | Abrupt e => (Abrupt e, res)
      | Normal true =>
          match handle handler error req res with
          | (Normal _, res') => (Normal true, res')
          | (Abrupt e, res') => (Abrupt e, res')
          end
      | Normal false => registry_handle rest error req res
      end
  end.

(** [a || b] *)
Definition or_value (a b : Value) : Value := if truthy a then a else b.

(** [v === s] for a string literal [s] *)
Definition is_string (v : Value) (s : string) : bool :=
  match v with
  | VStr s' => String.eqb s' s
  | _ => false
  end.

Definition internal_error_msg : string := "Erro interno do servidor".

(** [error instanceof Validation] *)
Definition instanceof_Validation (error : Thrown) : bool :=
  match error with EValidation _ => true | _ => false end.

(** [error instanceof AppException] *)
Definition instanceof_AppException (error : Thrown) : bool :=
  match error with EAppException _ => true | _ => false end.

(** The handler for [Validation]. *)
Definition validationHandler : ErrorHandler :=
  mkHandler
    (fun error => Normal (instanceof_Validation error))
    (fun error req res =>
       match get_thrown error "messages" with
       | Normal messages =>
           AppResponse res (VNum 400) false VNull
             (VStr "Erro de validação") messages
       | Abrupt e => (Abrupt e, res)
       end).

(** The handler for [AppException]. *)
Definition appExceptionHandler : ErrorHandler :=
  mkHandler
    (fun error => Normal (instanceof_AppException error))
    (fun error req res =>
       match get_thrown error "statusCode", get_thrown error "message" with
       | Normal code, Normal msg => AppResponse res code false VNull msg msg
       | Abrupt e, _ => (Abrupt e, res)
       | _, Abrupt e => (Abrupt e, res)
       end).

(** The handler for JSON parse errors. *)
Definition parseErrorHandler : ErrorHandler :=
  mkHandler
    (fun error =>
       bind (get_thrown error "type")
            (fun t => Normal (is_string t "entity.parse.failed")))
    (fun error req res =>
       match get_thrown error "message" with
       | Normal msg =>
           AppResponse res (VNum 400) false VNull
             (VStr "Verifique se o JSON está correto") msg
       | Abrupt e => (Abrupt e, res)
       end).

(** The generic handler. *)
Definition genericHandler : ErrorHandler :=
  mkHandler
    (fun _ => Normal true)
    (fun error req res =>
       let message :=
         or_value (get_thrown_opt error "message") (VStr internal_error_msg) in
       AppResponse res (VNum 500) false VNull (VStr internal_error_msg) message).

(** [defaultHandlers] *)
Definition defaultHandlers : list ErrorHandler :=
  [validationHandler; appExceptionHandler; parseErrorHandler; genericHandler].

(** [interface ErrorMiddlewareConfig]; [None] is a property left out. *)
Record ErrorMiddlewareConfig : Type := mkConfig {
  useDefaultHandlers : option bool;
  customHandlers : option (list ErrorHandler);
  exposeStackTrace : option bool
}.

(** [{}] *)
Definition empty_config : ErrorMiddlewareConfig := mkConfig None None None.

Definition or_default {A} (x : option A) (d : A) : A :=
  match x with Some a => a | None => d end.

(** The function [createErrorMiddleware] returns: it reads the registry
    as it is when the error arrives. *)
Definition middleware (exposeStackTrace : bool) (handlers : Registry)
  (err : Thrown) (req : Request) (res : Response) : Result unit * Response :=
  match registry_handle handlers err req res with
  | (Abrupt e, res') => (Abrupt e, res')
  | (Normal true, res') => (Normal tt, res')
  | (Normal false, res') =>
      let message :=
        if exposeStackTrace && truthy (get_thrown_opt err "stack")
        then get_thrown err "stack"
        else Normal (or_value (get_thrown_opt err "message")
                              (VStr internal_error_msg)) in
      match message with
      | Normal m =>
          AppResponse res' (VNum 500) false VNull (VStr internal_error_msg) m
      | Abrupt e => (Abrupt e, res')
      end
  end.

(** [createErrorMiddleware(config = {})]: what it leaves in the registry,
    and the [exposeStackTrace] its middleware closes over. *)
Definition createErrorMiddleware (config : ErrorMiddlewareConfig)
  (handlers : Registry) : Registry * bool :=
  let useDefaultHandlers := or_default (useDefaultHandlers config) true in
  let customHandlers := or_default (customHandlers config) [] in
  let exposeStackTrace := or_default (exposeStackTrace config) false in
  let handlers1 :=
    if useDefaultHandlers then registerMany defaultHandlers handlers
    else handlers in
  let handlers2 :=
    if (0 <? length customHandlers)%nat
    then registerMany customHandlers handlers1
    else handlers1 in
  (handlers2, exposeStackTrace).

(** The registry once the module is loaded:
    [export const ErrorException = createErrorMiddleware()] has run on
    the empty registry. *)
Definition loaded_registry : Registry :=
  fst (createErrorMiddleware empty_config []).

End ErrorMiddleware.

(* ================================================================== *)
(** ** framework/util/base-service.ts *)
(* ================================================================== *)

Module BaseService.

Import Errors.

(** The own data of a service instance: the three configuration fields
    of [BaseService] and whatever fields the subclass adds. *)
Record State : Type := mkState {
  throwOnError : bool;
  transaction : Value;
  context : Obj Value;
  fields : Obj Value
}.

(** [interface ServiceConfig]; [None] is [undefined]. *)
Record ServiceConfig : Type := mkServiceConfig {
  cfg_throwOnError : option bool;
  cfg_transaction : option Value;
  cfg_context : option (Obj Value)
}.

(** A settled or pending promise. *)
Inductive Promise : Type :=
| Fulfilled (v : Value)
| Rejected (e : Thrown)
| Pending.

(** What a method call evaluates to: a plain value or a promise. *)
Inductive Returned : Type :=
| Plain (v : Value)
| Awaitable (p : Promise).

(** A method of the service class: run with [this] in a given state on
    its arguments, it returns or throws and leaves [this] in a state.
    What it does depends on what [this] is.  [on_instance] is the method
    with the instance itself as [this], as in a direct call and in the
    wrapper's [original.apply(target, args)]: the methods it calls
    through [this] are then called directly too.  [on_proxy] is the
    method with a proxy around the instance as [this], as when the
    [get] trap hands the function out as it is: what it reads and writes
    through [this] goes to the target, and the public methods it calls
    through [this] are intercepted.  A method that calls nothing through
    [this] does the same either way. *)
Record Method : Type := mkMethod {
  on_instance :> State -> list Value -> Result Returned * State;
  on_proxy : State -> list Value -> Result Returned * State
}.

(** A method that calls nothing through [this]. *)
Definition closed (body : State -> list Value -> Result Returned * State)
  : Method := mkMethod body body.

(** The methods the class declares, by name. *)
Definition Class : Type := Obj Method.

Record Instance : Type := mkInstance {
  class : Class;
  state : State
}.

(** [new] of a subclass with the given extra fields: the field
    initialisers of [BaseService]. *)
Definition new (c : Class) (extra : Obj Value) : Instance :=
  mkInstance c (mkState true VUndefined [] extra).

(** The in-place update [configure] and [createProxy] both make. *)
Definition apply_config (base_context : Obj Value) (config : ServiceConfig)
  (s : State) : State :=
  let s1 :=
    match cfg_throwOnError config with
    | Some b => mkState b (transaction s) (context s) (fields s)
    | None => s
    end in
  let s2 :=
    match cfg_transaction config with
    | Some VUndefined | None => s1
    | Some t => mkState (throwOnError s1) t (context s1) (fields s1)
    end in
  match cfg_context config with
  | Some c =>
      mkState (throwOnError s2) (transaction s2) (spread base_context c)
        (fields s2)
  | None => s2
  end.

(** [configure(config)] *)
Definition configure (config : ServiceConfig) (this : Instance) : Instance :=
  mkInstance (class this) (apply_config (context (state this)) config (state this)).

(** A member read on the instance: an own data property, else a method
    of the class, else [undefined].  The class is the table of the
    methods the subclass declares; what [BaseService] itself and
    [Object.prototype] provide ([configure], [silent], [toString], ...)
    is not in it: deriving a view from a view is modelled apart. *)
Inductive Member : Type :=
| Data (v : Value)
| Function (m : Method).

Definition own_property (s : State) (prop : string) : option Value :=
  if String.eqb prop "throwOnError" then Some (VBool (throwOnError s))
  else if String.eqb prop "transaction" then Some (transaction s)
  else if String.eqb prop "context" then Some (VObj (context s))
  else lookup prop (fields s).

(** [Reflect.get(target, prop, receiver)] *)
Definition reflect_get (target : Instance) (prop : string) : Member :=
  match own_property (state target) prop with
  | Some v => Data v
  | None =>
      match lookup prop (class target) with
      | Some m => Function m
      | None => Data VUndefined
      end
  end.

(** [prop.startsWith('_')] *)
Definition startsWith_underscore (prop : string) : bool :=
  match prop with
  | String c _ => Ascii.eqb c "_"%char
  | EmptyString => false
  end.

(** The object [createProxy] returns: a proxy around the clone. *)
Record Proxy : Type := mkProxy { target : Instance }.

(** [createProxy(config)]: clone, configure the clone, wrap it. *)
Definition createProxy (config : ServiceConfig) (this : Instance) : Proxy :=
  let instance := mkInstance (class this) (state this) in
  mkProxy
    (mkInstance (class instance)
       (apply_config (context (state this)) config (state instance))).

(** [silent()] *)
Definition silent (this : Instance) : Proxy :=
  createProxy (mkServiceConfig (Some false) None None) this.

(** [withTransaction(transaction)]: [createProxy({ transaction })], which
    tests [config.transaction !== undefined]. *)
Definition withTransaction (transaction : Value) (this : Instance) : Proxy :=
  createProxy (mkServiceConfig None (Some transaction) None) this.

(** [withContext(context)] *)
Definition withContext (ctx : Obj Value) (this : Instance) : Proxy :=
  createProxy
    (mkServiceConfig None None (Some (spread (context (state this)) ctx)))
    this.

(** [result.catch((error) => ...)] with the handler of the wrapper; the
    flag is read on the target when the rejection is handled. *)
Definition catch_rejection (p : Promise) (target_state : State) : Promise :=
  match p with
  | Rejected error =>
      if negb (throwOnError target_state) then Fulfilled VNull
      else Rejected error
  | Fulfilled v => Fulfilled v
  | Pending => Pending
  end.

(** The function the [get] trap returns for a public method. *)
Definition wrapped (original : Method) (target : Instance)
  (args : list Value) : Result Returned * Instance :=
  match original (state target) args with
  | (Normal (Awaitable p), s') =>
      (Normal (Awaitable (catch_rejection p s')), mkInstance (class target) s')
  | (Normal (Plain v), s') =>
      (Normal (Plain v), mkInstance (class target) s')
  | (Abrupt error, s') =>
      if negb (throwOnError s')
      then (Normal (Plain VNull), mkInstance (class target) s')
      else (Abrupt error, mkInstance (class target) s')
  end.

(** What the [get] trap hands out. *)
Inductive Got : Type :=
| GotValue (v : Value)
| GotOriginal (m : Method)
| GotWrapped (m : Method).

(** The [get] trap. *)
Definition proxy_get (p : Proxy) (prop : string) : Got :=
  match reflect_get (target p) prop with
  | Data v => GotValue v
  | Function original =>
      if startsWith_underscore prop then GotOriginal original
      else GotWrapped original
  end.

(** The [TypeError] of calling what is not a function. *)
Definition not_a_function (prop : string) : Thrown :=
  EValue (VObj [("message", VStr (prop ++ " is not a function"))]).

(** [view.prop(...args)] on a proxy.  A method whose name starts with an
    underscore is handed out as it is, and the call runs it with the
    proxy as [this]. *)
Definition call_view (p : Proxy) (prop : string) (args : list Value)
  : Result Returned * Proxy :=
  match proxy_get p prop with
  | GotValue _ => (Abrupt (not_a_function prop), p)
  | GotOriginal m =>
      let (r, s') := on_proxy m (state (target p)) args in
      (r, mkProxy (mkInstance (class (target p)) s'))
  | GotWrapped m =>
      let (r, t') := wrapped m (target p) args in (r, mkProxy t')
  end.

(** [instance.prop(...args)] on an instance that is not wrapped. *)
Definition call_direct (this : Instance) (prop : string) (args : list Value)
  : Result Returned * Instance :=
  match reflect_get this prop with
  | Data _ => (Abrupt (not_a_function prop), this)
  | Function m =>
      let (r, s') := m (state this) args in
      (r, mkInstance (class this) s')
  end.

End BaseService.

(* ================================================================== *)
(** ** framework/util/response-builder.ts, router-builder.ts *)
(* ================================================================== *)

Module RouterBuilder.

Import Errors Http.

(** [class ApiResponse]; [message] is [None] when left out. *)
Record ApiResponse : Type := mkApiResponse {
  api_data : Value;
  api_statusCode : Z;
  api_message : option string
}.

Definition ok (data : Value) (message : option string) : ApiResponse :=
  mkApiResponse data 200 message.
Definition created (data : Value) (message : option string) : ApiResponse :=
  mkApiResponse data 201 message.
Definition accepted (data : Value) (message : option string) : ApiResponse :=
  mkApiResponse data 202 message.
Definition noContent : ApiResponse := mkApiResponse VNull 204 None.

(** What the awaited handler call gives: an [ApiResponse] instance or
    any other value ([VUndefined] when the handler returns nothing). *)
Inductive HandlerValue : Type :=
| IsApiResponse (r : ApiResponse)
| Other (v : Value).

(** A route handler, awaited: it reads the request, may act on the
    response, and returns a value or throws (a rejected promise is a
    throw at the [await]).  Handlers that call [next] themselves, and
    handlers whose promise never settles, are not in the model. *)
Definition Handler : Type :=
  Request -> Response -> Result HandlerValue * Response.

(** [result.message || null] *)
Definition message_or_null (m : option string) : Value :=
  match m with
  | Some s => if truthy_str s then VStr s else VNull
  | None => VNull
  end.

(** What the wrapper did with [next]. *)
Inductive Next : Type :=
| NotCalled
| Called (error : Thrown).

(** [wrappedHandler(req, res, next)] of [registerRoutes]. *)
Definition wrappedHandler (handler : Handler) (req : Request) (res : Response)
  : Response * Next :=
  match handler req res with
  | (Abrupt error, res1) => (res1, Called error)
  | (Normal result, res1) =>
      if headersSent res1 then (res1, NotCalled)
      else
        match result with
        | Other VUndefined => (res1, NotCalled)
        | IsApiResponse r =>
            match json (mkEnvelope true (message_or_null (api_message r))
                          (api_data r) VNull)
                       (status (VNum (api_statusCode r)) res1) with
            | (Normal _, res2) => (res2, NotCalled)
            | (Abrupt error, res2) => (res2, Called error)
            end
        | Other v =>
            match json (mkEnvelope true VNull v VNull) res1 with
            | (Normal _, res2) => (res2, NotCalled)
            | (Abrupt error, res2) => (res2, Called error)
            end
        end
  end.

(** [next(err)] in Express: a truthy [err] goes to the error middleware,
    unless it is one of the strings ['route'] and ['router'], which like
    a falsy argument make Express go on with the ordinary middleware;
    that part of Express is not in this model. *)
Definition is_error_signal (e : Thrown) : bool :=
  match e with
  | EValue (VStr s) =>
      truthy_str s && negb (String.eqb s "route")
      && negb (String.eqb s "router")
  | EValue v => truthy v
  | _ => true
  end.

(** A request through a route and the error middleware installed after
    the routes ([Application.setupRoutes]). *)
Definition dispatch (handlers : ErrorMiddleware.Registry)
  (exposeStackTrace : bool) (handler : Handler) (req : Request)
  (res : Response) : Result unit * Response :=
  match wrappedHandler handler req res with
  | (res1, NotCalled) => (Normal tt, res1)
  | (res1, Called error) =>
      if is_error_signal error
      then ErrorMiddleware.middleware exposeStackTrace handlers error req res1
      else (Normal tt, res1)
  end.

End RouterBuilder.

(* ================================================================== *)
(** ** The rule sequence as the specification words it *)
(* ================================================================== *)

Module Spec.

Import Errors Rules ValidationHelper.

(** The specification's reading of a field's rule sequence: the rules
    are tried in declaration order and the sequence stops at the first
    one that returns a non-empty message; the rules after it are not
    called.  This is the reference the source's [validate_field] is
    compared with. *)
Fixpoint validate_field_short_circuit {W} (input value : Value)
  (rs : list (RuleEntry W)) (acc : Validation.t * W)
  : Result Validation.t * W :=
  match rs with
  | [] => let (validation, w) := acc in (Normal validation, w)
  | RNotFun _ :: rest => validate_field_short_circuit input value rest acc
  | RFun r :: rest =>
      let (validation, w) := acc in
      match call_rule r input value w with
      | (Normal (Some e), w') =>
          if truthy_str e then (Normal (Validation.add [e] validation), w')
          else validate_field_short_circuit input value rest (validation, w')
      | (Normal None, w') =>
          validate_field_short_circuit input value rest (validation, w')
      | (Abrupt e, w') => (Abrupt e, w')
      end
  end.

End Spec.

(* ================================================================== *)
(** ** Concrete rules, schemas, handlers and services used below *)
(* ================================================================== *)

Module Examples.

Import Errors Rules ValidationHelper Http ErrorMiddleware BaseService
       RouterBuilder.

(** A test double: a rule that always fails with [msg] and counts its
    calls in the world, a natural number. *)
Definition probe (msg : string) : Rule nat :=
  mkRule (fun _ _ calls => (Normal (Some msg), S calls))
    false false false VUndefined.

(** A rule that throws [new Error('boom')]. *)
Definition throwing {W} : Rule W :=
  mkRule (fun _ _ w => (Abrupt (EValue (VObj [("message", VStr "boom")])), w))
    false false false VUndefined.

(** [{ f: [required('first'), probe] }] *)
Definition two_rules : RuleMap nat :=
  [("f", FMany [RFun (required "first"); RFun (probe "second")])].

(** [{ f: required() }] *)
Definition f_required : RuleMap unit :=
  [("f", FOne (RFun (required required_default_msg)))].

(** [{ f: required('') }]: an empty message. *)
Definition f_required_no_message : RuleMap unit :=
  [("f", FOne (RFun (required "")))].

(** [{ name: [required()] }] *)
Definition name_required : RuleMap unit :=
  [("name", FMany [RFun (required required_default_msg)])].

(** [{ f: default_value('d') }] *)
Definition f_default : RuleMap unit :=
  [("f", FOne (RFun (default_value (VStr "d"))))].

(** [{ g: [optional()], f: [required('B')] }] *)
Definition more_rules : RuleMap unit :=
  [("g", FMany [RFun optional]); ("f", FMany [RFun (required "B")])].

(** [{ f: ' ' }]: a whitespace-only value. *)
Definition blank_f : Value := VObj [("f", VStr " ")].

Definition a_request : Request := mkRequest (VObj []) (VObj []) (VObj []).

(** A project handler that takes every error and answers 418. *)
Definition teapot : ErrorHandler :=
  mkHandler
    (fun _ => Normal true)
    (fun error req res =>
       AppResponse res (VNum 418) false VNull (VStr "teapot") VNull).

(** [new Error('boom')] *)
Definition boom : Thrown := EValue (VObj [("message", VStr "boom")]).

(** A route handler that sets the status and returns a plain value:
    [res.status(404); return { pong: true }]. *)
Definition pong : Value := VObj [("pong", VBool true)].

Definition status_then_return : Handler :=
  fun req res => (Normal (Other pong), status (VNum 404) res).

(** [GET /ping]: [return { pong: true }]. *)
Definition ping : Handler :=
  fun req res => (Normal (Other pong), res).

(** A route handler that returns nothing. *)
Definition returns_nothing : Handler :=
  fun req res => (Normal (Other VUndefined), res).

(** A controller method in the style of the generated modules: it runs
    [schema.check(input)] on an input taken from the request, before it
    touches the response, and goes on with [rest] when [check] returns. *)
Definition checking_handler {W} (s : Schema) (st : Store W) (w : W)
  (input_of : Request -> Value) (rest : Handler) : Handler :=
  fun req res =>
    match check s (input_of req) st w with
    | (Abrupt e, _) => (Abrupt e, res)
    | (Normal _, _) => rest req res
    end.

(** A route handler that runs [schema({name:[required()]}).check({})]. *)
Definition checks_name : Handler :=
  checking_handler (schema 0) [name_required] tt (fun _ => VObj [])
    returns_nothing.

(** A service class with a method that throws, one that rejects, and an
    internal one. *)
Definition fails : Method :=
  closed (fun s args => (Abrupt boom, s)).

Definition rejects : Method :=
  closed (fun s args => (Normal (Awaitable (Rejected boom)), s)).

Definition a_class : Class :=
  [("fails", fails); ("rejects", rejects); ("_internal", fails)].

Definition a_service : Instance := BaseService.new a_class [].

(** A method that turns the flag on and then fails:
    [this.configure({ throwOnError: true }); throw new Error('boom')]. *)
Definition reopens : Method :=
  closed
    (fun s args =>
       (Abrupt boom,
        apply_config (context s) (mkServiceConfig (Some true) None None) s)).

Definition c_service : Instance := BaseService.new [("reopens", reopens)] [].

(** [{ toString: default_value('d') }]: a field named like a member of
    [Object.prototype]. *)
Definition toString_default : RuleMap unit :=
  [("toString", FOne (RFun (default_value (VStr "d"))))].

(** [{ toString: required() }] *)
Definition toString_required : RuleMap unit :=
  [("toString", FOne (RFun (required required_default_msg)))].

(** [{ f: required(), g: <a rule that throws> }] *)
Definition f_required_g_throws : RuleMap unit :=
  [("f", FOne (RFun (required required_default_msg)));
   ("g", FOne (RFun throwing))].

End Examples.

(* ================================================================== *)
(** ** framework/util/rules-common.ts: the other rules *)
(* ================================================================== *)

Module MoreRules.

Import Errors Helper Rules.

(** The values a rule is configured with: primitives.  Against a
    primitive, [===] and [includes] are decided by the value alone (an
    object or an array is never equal to one). *)
Inductive Prim : Type :=
| PUndefined
| PNull
| PBool (b : bool)
| PNum (n : Z)
| PStr (s : string).

Definition value_of_prim (p : Prim) : Value :=
  match p with
  | PUndefined => VUndefined
  | PNull => VNull
  | PBool b => VBool b
  | PNum n => VNum n
  | PStr s => VStr s
  end.

(** [v === p] *)
Definition strict_equal (v : Value) (p : Prim) : bool :=
  match v, p with
  | VUndefined, PUndefined => true
  | VNull, PNull => true
  | VBool a, PBool b => Bool.eqb a b
  | VNum a, PNum b => (a =? b)%Z
  | VStr a, PStr b => String.eqb a b
  | _, _ => false
  end.

(** [allowed.includes(v)] *)
Definition includes (allowed : list Prim) (v : Value) : bool :=
  existsb (strict_equal v) allowed.

(** The characters [trim()] removes, among the code units below 256:
    TAB, LF, VT, FF, CR, SP and NBSP. *)
Definition is_white_space (c : ascii) : bool :=
  let n := N_of_ascii c in
  ((9 <=? n) && (n <=? 13) || (n =? 32) || (n =? 160))%N.

(** [s.trim() === ''] *)
Fixpoint trim_is_empty (s : string) : bool :=
  match s with
  | EmptyString => true
  | String c s' => is_white_space c && trim_is_empty s'
  end.

(** [typeof value === 'string' && value.trim() === ''] *)
Definition blank_string (value : Value) : bool :=
  match value with
  | VStr s => trim_is_empty s
  | _ => false
  end.

(** The [isEmpty] of [optionalBut]:
    [value === undefined || value === null || value === '' ||
     (typeof value === 'string' && value.trim() === '')] *)
Definition isEmpty (value : Value) : bool :=
  match value with
  | VUndefined => true
  | VNull => true
  | VStr EmptyString => true
  | _ => blank_string value
  end.

(** [!value && value !== 0 && value !== false] *)
Definition missing (value : Value) : bool :=
  negb (truthy value)
  && negb (strict_equal value (PNum 0))
  && negb (strict_equal value (PBool false)).

(** What a rule is configured to match: one value, or an array. *)
Inductive Expected : Type :=
| One (p : Prim)
| Many (l : list Prim).

Section WithWorld.

Variable W : Type.

(** [rule.needsContext ? rule(value, input) : rule(value)] *)
Definition invoke (rule : Rule W) (value input : Value) (w : W)
  : Result (option string) * W :=
  if needsContext rule then call rule value input w
  else call rule value VUndefined w.

(** The loop of [optionalBut]: the first non-empty error is returned and
    the rules after it are not called; a rule that throws ends it. *)
Fixpoint first_error (rules : list (Rule W)) (value input : Value) (w : W)
  : Result (option string) * W :=
  match rules with
  | [] => (Normal None, w)
  | rule :: rest =>
      match invoke rule value input w with
      | (Normal error, w') =>
          if negb (falsy error) then (Normal error, w')
          else first_error rest value input w'
      | (Abrupt e, w') => (Abrupt e, w')
      end
  end.

(** [optionalBut(...rules)]: a plain function, none of the optional
    properties is set on it. *)
Definition optionalBut (rules : list (Rule W)) : Rule W :=
  mkRule
    (fun value input w =>
       if isEmpty value then (Normal None, w)
       else first_error rules value input w)
    false false false VUndefined.

(** [array(msg = 'Array obrigatório')]; [Array.prototype] is an array,
    an empty one. *)
Definition array (msg : string) : Rule W :=
  mkRule
    (pure_fn W
       (fun v _ =>
          match v with
          | VArr (_ :: _) => Normal None
          | _ => Normal (Some msg)
          end))
    false false false VUndefined.

(** [requiredIf(condition, msg = 'Campo obrigatório')]; the condition is
    a function of the input, called first: it may act on the world and
    may throw, which ends the rule; the value is converted only when the
    condition holds. *)
Definition requiredIf (condition : Value -> W -> Result bool * W)
  (msg : string) : Rule W :=
  mkRule
    (fun value input w =>
       match condition input w with
       | (Normal c, w') =>
           if c then (msg_if_empty msg value, w')
           else (Normal None, w')
       | (Abrupt e, w') => (Abrupt e, w')
       end)
    true false false VUndefined.

(** [requiredWhen(field, value, msg = 'Campo obrigatório')] *)
Definition requiredWhen (field : string) (value : Expected) (msg : string)
  : Rule W :=
  mkRule
    (pure_fn W
       (fun fieldValue input =>
          let otherValue := get_opt input field in
          let matches :=
            match value with
            | Many l => includes l otherValue
            | One p => strict_equal otherValue p
            end in
          if matches then msg_if_empty msg fieldValue
          else Normal None))
    true false false VUndefined.

(** [requiredIn(allowedValues, msg = 'Valor não permitido')] *)
Definition requiredIn (allowedValues : list Prim) (msg : string) : Rule W :=
  mkRule
    (pure_fn W
       (fun value _ =>
          if missing value then Normal (Some msg)
          else if negb (includes allowedValues value) then Normal (Some msg)
          else Normal None))
    false false false VUndefined.

(** [oneOf(allowedValues, msg = 'Valor não permitido')] *)
Definition oneOf (allowedValues : list Prim) (msg : string) : Rule W :=
  mkRule
    (pure_fn W
       (fun value _ =>
          match value with
          | VUndefined | VNull => Normal None
          | VStr EmptyString => Normal None
          | _ => if negb (includes allowedValues value) then Normal (Some msg)
                 else Normal None
          end))
    false true false VUndefined.

End WithWorld.

Arguments invoke {W}.
Arguments first_error {W}.
Arguments optionalBut {W}.
Arguments array {W}.
Arguments requiredIf {W}.
Arguments requiredWhen {W}.
Arguments requiredIn {W}.
Arguments oneOf {W}.

End MoreRules.

(* ================================================================== *)
(** ** framework/util/validation-helper.ts: makeFieldsOptional *)
(* ================================================================== *)

Module FieldsOptional.

Import Errors Rules ValidationHelper MoreRules.

Section WithWorld.

Variable W : Type.

(** The rule map [makeFieldsOptional] is written for: every field holds
    an array of rule functions ([value as any[]], spread into
    [optionalBut(...rules: Rule[])]). *)
Definition RuleLists : Type := Obj (list (Rule W)).

(** The same map as [validate] and [sanitize] take it. *)
Definition as_rule_map (rules : RuleLists) : RuleMap W :=
  map (fun kv => (fst kv, FMany (map RFun (snd kv)))) rules.

(** [extras && extras[key] ? [optionalBut(...value), ...extras[key]]
                           : [optionalBut(...value)]];
    [None] is [undefined], as the whole of [extras] or as one of its
    fields; an array, empty or not, is truthy. *)
Definition optional_entry (extras : option (Obj (list (RuleEntry W))))
  (key : string) (value : list (Rule W)) : FieldRules W :=
  match extras with
  | Some ex =>
      match lookup key ex with
      | Some more => FMany (RFun (optionalBut value) :: more)
      | None => FMany [RFun (optionalBut value)]
      end
  | None => FMany [RFun (optionalBut value)]
  end.

(** [makeFieldsOptional(rules, extras)]:
    [Object.fromEntries(Object.entries(rules).map(...))] *)
Definition makeFieldsOptional (rules : RuleLists)
  (extras : option (Obj (list (RuleEntry W)))) : RuleMap W :=
  assign_all []
    (map (fun kv => (fst kv, optional_entry extras (fst kv) (snd kv))) rules).

End WithWorld.

Arguments as_rule_map {W}.
Arguments optional_entry {W}.
Arguments makeFieldsOptional {W}.

End FieldsOptional.

(* ================================================================== *)
(** ** framework/util/helper.ts: to_boolean *)
(* ================================================================== *)

Module MoreHelper.

(** [c.toLowerCase()] on a code unit below 256: the letters A-Z, and
    the capital letters of Latin-1 (0xC0-0xDE without the sign 0xD7). *)
Definition lower_char (c : ascii) : ascii :=
  let n := N_of_ascii c in
  if ((65 <=? n) && (n <=? 90)
      || (192 <=? n) && (n <=? 222) && negb (n =? 215))%N
  then ascii_of_N (n + 32)
  else c.

(** [s.toLowerCase()] *)
Fixpoint toLowerCase (s : string) : string :=
  match s with
  | EmptyString => EmptyString
  | String c s' => String (lower_char c) (toLowerCase s')
  end.

(** [to_boolean(value, defaultValue = null)]; [None] is [null]. *)
Definition to_boolean (value : Value) (defaultValue : option bool)
  : option bool :=
  match value with
  | VUndefined | VNull => defaultValue
  | VStr EmptyString => defaultValue
  | VBool b => Some b
  | VStr s =>
      if String.eqb (toLowerCase s) "true" then Some true
      else if String.eqb (toLowerCase s) "false" then Some false
      else Some (truthy value)
  | _ => Some (truthy value)
  end.

End MoreHelper.

(* ================================================================== *)
(** ** framework/util/query-filter.ts *)
(* ================================================================== *)

Module QueryFilter.

Import Errors.

(** The keys ["0"], ["1"], ... of the elements of a list, from [i] on. *)
Fixpoint indexed {A} (f : A -> Value) (i : nat) (l : list A) : Obj Value :=
  match l with
  | [] => []
  | x :: l' => (string_of_Z (Z.of_nat i), f x) :: indexed f (S i) l'
  end.

(** The own enumerable string-keyed properties of a value, as a spread
    [{...v}] or [Object.assign(target, v)] copies them: those of an
    object, the elements of an array, the characters of a string,
    nothing for the other primitives and for the built-ins, whose
    members are not enumerable. *)
Definition own_entries (v : Value) : Obj Value :=
  match v with
  | VObj o => o
  | VArr l => indexed (fun x => x) 0 l
  | VStr s =>
      indexed (fun c => VStr (String c EmptyString)) 0 (list_ascii_of_string s)
  | _ => []
  end.

(** [Object.assign(where, result)]: the own enumerable properties of
    [result] are assigned to [where], one after the other. *)
Definition Object_assign (where_ : Obj Value) (result : Value) : Obj Value :=
  fold_left (fun acc kv => Js.assign (fst kv) (snd kv) acc)
    (own_entries result) where_.

(** [{ ...baseWhere }] *)
Definition copy_of (baseWhere : Value) : Obj Value :=
  assign_all [] (own_entries baseWhere).

(** [value !== undefined && value !== null && value !== ''] *)
Definition present (value : Value) : bool :=
  match value with
  | VUndefined | VNull => false
  | VStr EmptyString => false
  | _ => true
  end.

(** [if (result) Object.assign(where, result)] *)
Definition merge_result (where_ : Obj Value) (result : Value) : Obj Value :=
  if truthy result then Object_assign where_ result else where_.

Section WithWorld.

(** The world the filter and condition functions act on. *)
Variable W : Type.

(** A filter function [(value, input) => any] and a condition function
    [(input) => any]: like a rule, a call may act on the world around
    it and may throw. *)
Definition FilterFn : Type := Value -> Value -> W -> Result Value * W.
Definition ConditionFn : Type := Value -> W -> Result Value * W.

(** The loop of [filter] over [Object.entries(filters)]. *)
Fixpoint filter_entries (input : Value) (filters : Obj FilterFn)
  (where_ : Obj Value) (w : W) : Result (Obj Value) * W :=
  match filters with
  | [] => (Normal where_, w)
  | (field, filterFn) :: rest =>
      match get input field with
      | Abrupt e => (Abrupt e, w)
      | Normal value =>
          if present value
          then match filterFn value input w with
               | (Normal result, w') =>
                   filter_entries input rest (merge_result where_ result) w'
               | (Abrupt e, w') => (Abrupt e, w')
               end
          else filter_entries input rest where_ w
      end
  end.

(** [filter(input, filters, baseWhere = {})] *)
Definition filter (input : Value) (filters : Obj FilterFn)
  (baseWhere : Value) (w : W) : Result (Obj Value) * W :=
  filter_entries input filters (copy_of baseWhere) w.

(** The loop of [conditionalFilter]. *)
Fixpoint each_condition (input : Value) (conditions : list ConditionFn)
  (where_ : Obj Value) (w : W) : Result (Obj Value) * W :=
  match conditions with
  | [] => (Normal where_, w)
  | conditionFn :: rest =>
      match conditionFn input w with
      | (Normal result, w') =>
          each_condition input rest (merge_result where_ result) w'
      | (Abrupt e, w') => (Abrupt e, w')
      end
  end.

(** [conditionalFilter(input, conditions, baseWhere = {})] *)
Definition conditionalFilter (input : Value) (conditions : list ConditionFn)
  (baseWhere : Value) (w : W) : Result (Obj Value) * W :=
  each_condition input conditions (copy_of baseWhere) w.

(** The [options] of [prepareFilter]; [None] is a property left out. *)
Record Options : Type := mkOptions {
  opt_filters : option (Obj FilterFn);
  opt_conditions : option (list ConditionFn);
  opt_baseWhere : option Value
}.

(** [prepareFilter(input, options = {})] *)
Definition prepareFilter (input : Value) (options : Options) (w : W)
  : Result (Obj Value) * W :=
  let filters := match opt_filters options with Some f => f | None => [] end in
  let conditions :=
    match opt_conditions options with Some c => c | None => [] end in
  let baseWhere :=
    match opt_baseWhere options with
    | Some VUndefined | None => VObj []
    | Some b => b
    end in
  match filter input filters baseWhere w with
  | (Normal where_, w') => conditionalFilter input conditions (VObj where_) w'
  | (Abrupt e, w') => (Abrupt e, w')
  end.

End WithWorld.

Arguments filter_entries {W}.
Arguments filter {W}.
Arguments each_condition {W}.
Arguments conditionalFilter {W}.
Arguments mkOptions {W}.
Arguments opt_filters {W}.
Arguments opt_conditions {W}.
Arguments opt_baseWhere {W}.
Arguments prepareFilter {W}.

End QueryFilter.

(* ================================================================== *)
(** ** framework/core/application-context.ts: the provider *)
(* ================================================================== *)

Module ApplicationContext.

Import Errors.

(** [new Error(message)] *)
Definition Error (message : string) : Thrown :=
  EValue (VObj [("message", VStr message)]).

Definition already_initialized : Thrown :=
  Error "ApplicationContext já foi inicializado".

Definition not_initialized : Thrown :=
  Error ("ApplicationContext não foi inicializado. "
         ++ "Chame ApplicationContextProvider.initialize() primeiro.").

Section WithContext.

(** The [ApplicationContext] instances. *)
Variable Context : Type.

(** [let globalContext: ApplicationContext | null = null] *)
Definition Global : Type := option Context.

Definition initial : Global := None.

(** [ApplicationContextProvider.initialize(context)] *)
Definition initialize (context : Context) (globalContext : Global)
  : Result unit * Global :=
  match globalContext with
  | Some _ => (Abrupt already_initialized, globalContext)
  | None => (Normal tt, Some context)
  end.

(** [ApplicationContextProvider.getContext()] *)
Definition getContext (globalContext : Global) : Result Context :=
  match globalContext with
  | None => Abrupt not_initialized
  | Some context => Normal context
  end.

(** [ApplicationContextProvider.isInitialized()] *)
Definition isInitialized (globalContext : Global) : bool :=
  match globalContext with
  | Some _ => true
  | None => false
  end.

(** [ApplicationContextProvider.reset()] *)
Definition reset (globalContext : Global) : Global := None.

(** The calls a program makes on the provider. *)
Inductive Call : Type :=
| CallInitialize (context : Context)
| CallGetContext
| CallIsInitialized
| CallReset.

Definition step (globalContext : Global) (c : Call) : Global :=
  match c with
  | CallInitialize context => snd (initialize context globalContext)
  | CallGetContext => globalContext
  | CallIsInitialized => globalContext
  | CallReset => reset globalContext
  end.

Definition run (calls : list Call) (globalContext : Global) : Global :=
  fold_left step calls globalContext.

Definition is_reset (c : Call) : bool :=
  match c with CallReset => true | _ => false end.

End WithContext.

Arguments initial {Context}.
Arguments initialize {Context}.
Arguments getContext {Context}.
Arguments isInitialized {Context}.
Arguments reset {Context}.
Arguments CallInitialize {Context}.
Arguments step {Context}.
Arguments run {Context}.
Arguments is_reset {Context}.
Arguments CallGetContext {Context}.
Arguments CallIsInitialized {Context}.
Arguments CallReset {Context}.

End ApplicationContext.

(* ================================================================== *)
(** ** framework/util/router-manager.ts, router-builder.ts: modules *)
(* ================================================================== *)

Module Routing.

Import Errors Http ErrorMiddleware RouterBuilder.

(** [type HttpMethod] *)
Inductive HttpMethod : Type := GET | POST | PUT | PATCH | DELETE.

Section WithController.

(** The controller objects, and the middleware functions. *)
Variable Controller : Type.
Variable Middleware : Type.

(** A function used as a route handler: called with a receiver, [None]
    for [null], it is a handler. *)
Definition HandlerFn : Type := option Controller -> Handler.

(** What [controller[name]] gives: a function, or some other value
    ([VUndefined] when there is no such member): one that is no
    function and has no function for its member [call]. *)
Inductive Member : Type :=
| IsFunction (f : HandlerFn)
| IsValue (v : Value).

(** The members of a controller, by name. *)
Variable member : Controller -> string -> Member.

(** An element of a middleware array: a function, or something else. *)
Inductive MiddlewareEntry : Type :=
| MwFunction (f : Middleware)
| MwOther (v : Value).

(** [interface RouteDefinition] *)
Record RouteDefinition : Type := mkRoute {
  method : HttpMethod;
  path : string;
  handler : Member;
  controller : option Controller;
  route_middlewares : option (list MiddlewareEntry)
}.

(** [interface ModuleDefinition] *)
Record ModuleDefinition : Type := mkModule {
  prefix : string;
  middlewares : option (list MiddlewareEntry);
  routes : list RouteDefinition;
  name : option string;
  description : option string;
  tags : option (list string)
}.

(** [x || []] *)
Definition or_empty {A} (x : option (list A)) : list A :=
  match x with Some l => l | None => [] end.

(** [RoutesManagerClass.applyMiddlewares(module, middlewares)] *)
Definition applyMiddlewares (module : ModuleDefinition)
  (extra : option (list MiddlewareEntry)) : ModuleDefinition :=
  match extra with
  | None => module
  | Some [] => module
  | Some mws =>
      mkModule (prefix module) (Some (or_empty (middlewares module) ++ mws))
        (routes module) (name module) (description module) (tags module)
  end.

(** [type ModuleExport] *)
Inductive ModuleExport : Type :=
| Single (m : ModuleDefinition)
| Several (ms : list ModuleDefinition).

(** [RoutesManagerClass.register(moduleExport, middlewares)] on the
    [modules] array. *)
Definition register (moduleExport : ModuleExport)
  (extra : option (list MiddlewareEntry)) (modules : list ModuleDefinition)
  : list ModuleDefinition :=
  match moduleExport with
  | Several ms =>
      fold_left (fun acc mod_ => acc ++ [applyMiddlewares mod_ extra]) ms
        modules
  | Single m => modules ++ [applyMiddlewares m extra]
  end.

(** [RoutesManagerClass.getModules()] *)
Definition getModules (modules : list ModuleDefinition)
  : list ModuleDefinition := modules.

(** [bindController(controller)[verb](path, handler, middlewares)] *)
Definition bindController (c : Controller) (verb : HttpMethod)
  (path : string) (handler : string)
  (mws : option (list MiddlewareEntry)) : RouteDefinition :=
  mkRoute verb path (member c handler) (Some c) mws.

(** [route(method, path, handler, middlewares)] *)
Definition route (verb : HttpMethod) (path : string) (handler : HandlerFn)
  (mws : option (list MiddlewareEntry)) : RouteDefinition :=
  mkRoute verb path (IsFunction handler) None mws.

(** The [metadata] of [createModule]. *)
Record Metadata : Type := mkMetadata {
  meta_name : option string;
  meta_description : option string;
  meta_tags : option (list string)
}.

(** [createModule(prefix, ControllerClass, middlewares, metadata)
      .routes(buildFn)], with [c] the instance [new ControllerClass()]
    gives. *)
Definition createModule (prefix : string) (c : Controller)
  (mws : option (list MiddlewareEntry)) (metadata : option Metadata)
  (buildFn :
     (HttpMethod -> string -> string -> option (list MiddlewareEntry)
      -> RouteDefinition) -> list RouteDefinition)
  : ModuleDefinition :=
  mkModule prefix mws (buildFn (bindController c))
    (match metadata with Some m => meta_name m | None => None end)
    (match metadata with Some m => meta_description m | None => None end)
    (match metadata with Some m => meta_tags m | None => None end).

(** The text of the [TypeError] of [route.handler.call(...)] when
    [route.handler] is not a function: the read of [call] on [undefined]
    or [null], else the call of what is not a function. *)
Definition not_callable_text (v : Value) : string :=
  match v with
  | VUndefined => "Cannot read properties of undefined (reading 'call')"
  | VNull => "Cannot read properties of null (reading 'call')"
  | _ => "route.handler.call is not a function"
  end.

Definition not_callable (v : Value) : Thrown :=
  EValue (VObj [("message", VStr (not_callable_text v))]).

(** [route.handler.call(controller, req, res, next)] *)
Definition call_handler (h : Member) (receiver : option Controller)
  : Handler :=
  match h with
  | IsFunction f => f receiver
  | IsValue v => fun req res => (Abrupt (not_callable v), res)
  end.

(** What a module router holds for one route: the verb, the path, the
    route's middlewares and the wrapped handler. *)
Definition Registered : Type :=
  (HttpMethod * string * list MiddlewareEntry
   * (Request -> Response -> Response * Next))%type.

(** [RouteBuilder.registerRoutes(moduleRouter, routes, controller)] *)
Definition registerRoutes (routes : list RouteDefinition)
  (receiver : option Controller) : list Registered :=
  map (fun r =>
         (method r, path r, or_empty (route_middlewares r),
          wrappedHandler (call_handler (handler r) receiver)))
      routes.

(** [typeof mw !== 'function'] entries are reported and left out. *)
Fixpoint validMiddlewares (mws : list MiddlewareEntry) : list Middleware :=
  match mws with
  | [] => []
  | MwFunction f :: rest => f :: validMiddlewares rest
  | MwOther _ :: rest => validMiddlewares rest
  end.

(** A module router as mounted: its prefix, the middlewares installed
    on it and its routes. *)
Record Mounted : Type := mkMounted {
  mounted_at : string;
  installed : list Middleware;
  table : list Registered
}.

(** [module.routes[0]?.controller || null] *)
Definition first_controller (rs : list RouteDefinition) : option Controller :=
  match rs with
  | r :: _ => controller r
  | [] => None
  end.

(** [interface RoutesConfig] *)
Record RoutesConfig : Type := mkRoutesConfig {
  apiPrefix : option string;
  modules : list ModuleDefinition
}.

(** [RouteBuilder.build(config)]: the prefix the API router is mounted
    at and the module routers mounted on it, in order. *)
Definition build (config : RoutesConfig) : string * list Mounted :=
  (match apiPrefix config with
   | Some p => if truthy_str p then p else "/api"
   | None => "/api"
   end,
   map (fun module =>
          mkMounted (prefix module)
            (validMiddlewares (or_empty (middlewares module)))
            (registerRoutes (routes module)
               (first_controller (routes module))))
       (modules config)).

End WithController.

Arguments IsFunction {Controller}.
Arguments IsValue {Controller}.
Arguments mkRoute {Controller Middleware}.
Arguments method {Controller Middleware}.
Arguments path {Controller Middleware}.
Arguments handler {Controller Middleware}.
Arguments controller {Controller Middleware}.
Arguments route_middlewares {Controller Middleware}.
Arguments mkModule {Controller Middleware}.
Arguments prefix {Controller Middleware}.
Arguments middlewares {Controller Middleware}.
Arguments routes {Controller Middleware}.
Arguments name {Controller Middleware}.
Arguments description {Controller Middleware}.
Arguments tags {Controller Middleware}.
Arguments mkMounted {Middleware}.
Arguments mounted_at {Middleware}.
Arguments installed {Middleware}.
Arguments table {Middleware}.
Arguments mkRoutesConfig {Controller Middleware}.
Arguments apiPrefix {Controller Middleware}.
Arguments modules {Controller Middleware}.
Arguments MwFunction {Middleware}.
Arguments MwOther {Middleware}.
Arguments Single {Controller Middleware}.
Arguments Several {Controller Middleware}.
Arguments applyMiddlewares {Controller Middleware}.
Arguments register {Controller Middleware}.
Arguments getModules {Controller Middleware}.
Arguments bindController {Controller Middleware}.
Arguments route {Controller Middleware}.
Arguments createModule {Controller Middleware}.
Arguments call_handler {Controller}.
Arguments registerRoutes {Controller Middleware}.
Arguments validMiddlewares {Middleware}.
Arguments first_controller {Controller Middleware}.
Arguments build {Controller Middleware}.

(** A wrapped handler followed by the error middleware, as [dispatch]
    runs a handler it wraps itself. *)
Definition serve (handlers : Registry) (exposeStackTrace : bool)
  (wrapped : Request -> Response -> Response * Next) (req : Request)
  (res : Response) : Result unit * Response :=
  match wrapped req res with
  | (res1, NotCalled) => (Normal tt, res1)
  | (res1, Called error) =>
      if is_error_signal error
      then middleware exposeStackTrace handlers error req res1
      else (Normal tt, res1)
  end.

End Routing.

(* ================================================================== *)
(** ** framework/middlewares/cors.middleware.ts *)
(* ================================================================== *)

Module Cors.

Import Errors MoreHelper.

(** The request, as far as the middleware reads it:
    [req.headers.origin] ([None] when the header is absent) and
    [req.method]. *)
Record Request : Type := mkRequest {
  origin : option string;
  method : string
}.

(** The response: its headers by lower-case name, the status code,
    whether it has gone out, and the body it went out with. *)
Record Response : Type := mkResponse {
  headers : Obj string;
  statusCode : Z;
  headersSent : bool;
  body : option string
}.

Definition ERR_HTTP_HEADERS_SENT : Thrown :=
  EValue (VObj [("code", VStr "ERR_HTTP_HEADERS_SENT");
                ("message",
                 VStr "Cannot set headers after they are sent to the client")]).

(** An action on the response that may throw. *)
Definition Action : Type := Response -> Result unit * Response.

Definition skip : Action := fun res => (Normal tt, res).

Definition and_then (a b : Action) : Action :=
  fun res =>
    match a res with
    | (Normal _, res') => b res'
    | (Abrupt e, res') => (Abrupt e, res')
    end.

Definition ERR_INVALID_CHAR : Thrown :=
  EValue (VObj [("code", VStr "ERR_INVALID_CHAR");
                ("message", VStr "Invalid character in header content")]).

(** The characters a header value may hold: the tabulation and every
    code unit from the space on, the delete character apart. *)
Definition header_char (c : ascii) : bool :=
  let n := nat_of_ascii c in
  (n =? 9)%nat || ((32 <=? n)%nat && negb (n =? 127)%nat).

Fixpoint header_value (s : string) : bool :=
  match s with
  | EmptyString => true
  | String c s' => header_char c && header_value s'
  end.

(** [res.header(field, value)] for one of the names the middleware
    sets: header names are case-insensitive; a response that has gone
    out takes no header, and a value with a control character is
    refused. *)
Definition header (field value : string) : Action :=
  fun res =>
    if headersSent res then (Abrupt ERR_HTTP_HEADERS_SENT, res)
    else if header_value value
    then (Normal tt,
          mkResponse (Js.set (toLowerCase field) value (headers res))
            (statusCode res) (headersSent res) (body res))
    else (Abrupt ERR_INVALID_CHAR, res).

(** [res.sendStatus(200)]: the status, the body [OK], and the response
    goes out.  The headers [send] adds on its own (content type, length,
    entity tag) are not modelled. *)
Definition sendStatus_200 : Action :=
  fun res =>
    if headersSent res then (Abrupt ERR_HTTP_HEADERS_SENT, res)
    else (Normal tt, mkResponse (headers res) 200 true (Some "OK")).

(** [allowedOrigins?: string | string[]] *)
Inductive Origins : Type :=
| OneOrigin (o : string)
| ManyOrigins (l : list string).

(** [interface CorsConfig]; [None] is a property left out. *)
Record CorsConfig : Type := mkCorsConfig {
  allowedOrigins : option Origins;
  allowedMethods : option (list string);
  allowedHeaders : option (list string);
  allowCredentials : option bool;
  exposedHeaders : option (list string);
  maxAge : option Z;
  beforeResponse : option (Request -> Action)
}.

(** [{}] *)
Definition default_config : CorsConfig :=
  mkCorsConfig None None None None None None None.

Definition or_default {A} (x : option A) (d : A) : A :=
  match x with Some a => a | None => d end.

(** [Array.isArray(allowedOrigins) ? allowedOrigins : [allowedOrigins]],
    with the default ['*']. *)
Definition origins_of (config : CorsConfig) : list string :=
  match or_default (allowedOrigins config) (OneOrigin "*") with
  | OneOrigin o => [o]
  | ManyOrigins l => l
  end.

(** [origins.includes(s)] *)
Definition includes (origins : list string) (s : string) : bool :=
  existsb (String.eqb s) origins.

(** [origin && origins.includes(origin)], as a condition. *)
Definition origin_listed (origins : list string) (o : option string) : bool :=
  match o with
  | Some s => truthy_str s && includes origins s
  | None => false
  end.

(** [origin], as a condition. *)
Definition origin_given (o : option string) : option string :=
  match o with
  | Some s => if truthy_str s then Some s else None
  | None => None
  end.

(** How the middleware leaves: it has called [next], or it has answered
    itself. *)
Inductive Outcome : Type :=
| NextCalled
| Answered.

(** The function [createCorsMiddleware(config)] returns. *)
Definition corsMiddleware (config : CorsConfig) (req : Request)
  (res : Response) : Result Outcome * Response :=
  let origins := origins_of config in
  let allowedMethods :=
    or_default (allowedMethods config)
      ["GET"; "POST"; "PUT"; "PATCH"; "DELETE"; "OPTIONS"] in
  let allowedHeaders :=
    or_default (allowedHeaders config)
      ["Origin"; "X-Requested-With"; "Content-Type"; "Accept";
       "Authorization"] in
  let allowCredentials := or_default (allowCredentials config) true in
  let exposedHeaders := or_default (exposedHeaders config) [] in
  let maxAge := or_default (maxAge config) 86400%Z in
  let isOriginAllowed :=
    includes origins "*" || origin_listed origins (origin req) in
  let allow_origin :=
    match (if isOriginAllowed then origin_given (origin req) else None) with
    | Some o => header "Access-Control-Allow-Origin" o
    | None =>
        if includes origins "*"
        then header "Access-Control-Allow-Origin" "*"
        else skip
    end in
  let actions :=
    and_then allow_origin
      (and_then
         (header "Access-Control-Allow-Methods" (join ", " allowedMethods))
         (and_then
            (header "Access-Control-Allow-Headers" (join ", " allowedHeaders))
            (and_then
               (header "Access-Control-Allow-Credentials"
                  (if allowCredentials then "true" else "false"))
               (and_then
                  (if (0 <? length exposedHeaders)%nat
                   then header "Access-Control-Expose-Headers"
                          (join ", " exposedHeaders)
                   else skip)
                  (and_then
                     (if negb (maxAge =? 0)%Z
                      then header "Access-Control-Max-Age" (string_of_Z maxAge)
                      else skip)
                     (match beforeResponse config with
                      | Some hook => hook req
                      | None => skip
                      end)))))) in
  match actions res with
  | (Abrupt e, res') => (Abrupt e, res')
  | (Normal _, res') =>
      if String.eqb (method req) "OPTIONS"
      then match sendStatus_200 res' with
           | (Normal _, res'') => (Normal Answered, res'')
           | (Abrupt e, res'') => (Abrupt e, res'')
           end
      else (Normal NextCalled, res')
  end.

End Cors.

(* ================================================================== *)
(** ** framework/middlewares/capture-request.middleware.ts *)
(* ================================================================== *)

Module CaptureRequest.

(** The decision taken when no [shouldLog] hook is given: the function
    called in place in the [finish] listener, for a level and a status
    code. *)
Definition shouldLog (logLevel : string) (statusCode : Z) : bool :=
  if String.eqb logLevel "all" then true
  else if String.eqb logLevel "success" && (statusCode <? 400)%Z then true
  else if String.eqb logLevel "warn" && (400 <=? statusCode)%Z
          && (statusCode <? 500)%Z then true
  else if String.eqb logLevel "error" && (500 <=? statusCode)%Z then true
  else false.

(** [if (logLevel !== 'none')]: whether the listener is installed. *)
Definition listens (logLevel : string) : bool :=
  negb (String.eqb logLevel "none").

(** Whether a request that ends with [statusCode] is logged. *)
Definition logs (logLevel : string) (statusCode : Z) : bool :=
  listens logLevel && shouldLog logLevel statusCode.

End CaptureRequest.

(* ================================================================== *)
(** ** framework/util/base-service.ts: views of views *)
(* ================================================================== *)

Module ServiceViews.

Import Errors BaseService.

(** The three ways to derive a view. *)
Inductive Derivation : Type :=
| Silent
| WithTransaction (t : Value)
| WithContext (c : Obj Value).

(** [this.silent()], [this.withTransaction(t)], [this.withContext(c)] *)
Definition derive (d : Derivation) (this : Instance) : Proxy :=
  match d with
  | Silent => silent this
  | WithTransaction t => withTransaction t this
  | WithContext c => withContext c this
  end.

(** [typeof result.then === 'function'] on a view: its class declares a
    method [then] that no own field hides. *)
Definition thenable (view : Proxy) : bool :=
  match reflect_get (target view) "then" with
  | Function _ => true
  | Data _ => false
  end.

(** The same three called on a view.  The [get] trap wraps them like any
    public method: the wrapper calls the original with the target as
    [this] and returns the new view, which is no promise.  For a class
    whose views are thenable the wrapper goes on with [result.catch];
    that path is not modelled ([None]). *)
Definition derive_on_view (d : Derivation) (view : Proxy) : option Proxy :=
  let result := derive d (target view) in
  if thenable result then None else Some result.

(** [this.d0().d1()...] *)
Fixpoint derive_chain (ds : list Derivation) (view : Proxy) : option Proxy :=
  match ds with
  | [] => Some view
  | d :: ds' =>
      match derive_on_view d view with
      | Some view' => derive_chain ds' view'
      | None => None
      end
  end.

Definition is_silent (d : Derivation) : bool :=
  match d with Silent => true | _ => false end.

(** The transaction the last [withTransaction] of a chain sets, if any;
    [withTransaction(undefined)] sets none. *)
Fixpoint last_transaction (ds : list Derivation) (t0 : Value) : Value :=
  match ds with
  | [] => t0
  | WithTransaction VUndefined :: ds' => last_transaction ds' t0
  | WithTransaction t :: ds' => last_transaction ds' t
  | _ :: ds' => last_transaction ds' t0
  end.

End ServiceViews.

(* ================================================================== *)
(** ** More concrete inputs *)
(* ================================================================== *)

Module MoreExamples.

Import Errors Rules ValidationHelper MoreRules FieldsOptional Http
       ErrorMiddleware BaseService RouterBuilder Examples.

(** [{ name: [required(), probe], age: [requiredIn([18, 21])] }] *)
Definition person_rules : RuleLists nat :=
  [("name", [required required_default_msg; probe "second"]);
   ("age", [requiredIn [PNum 18; PNum 21] "Valor não permitido"])].

(** [{ name: '  ', age: null }] *)
Definition blank_person : Value :=
  VObj [("name", VStr "  "); ("age", VNull)].

(** [{ a: [required('A')], b: [optional()] }] without context-aware
    rules, and two inputs that agree on [a] and [b]. *)
Definition ab_rules : RuleMap unit :=
  [("a", FMany [RFun (required "A")]); ("b", FMany [RFun optional])].

Definition ab_input : Value := VObj [("a", VStr "x")].
Definition ab_input_more : Value :=
  VObj [("zzz", VNum 1); ("a", VStr "x"); ("other", VStr "")].

(** [new AppException('Conflict', 409)] *)
Definition conflict : Thrown :=
  EAppException (mkAppException "Conflict" 409 "AppException: Conflict").

(** The error the body parser raises on malformed JSON. *)
Definition parse_failed : Thrown :=
  EValue (VObj [("type", VStr "entity.parse.failed");
                ("message", VStr "Unexpected token")]).

(** A handler for [AppException] that answers 418. *)
Definition teapot_for_app_exceptions : ErrorHandler :=
  mkHandler
    (fun e => Normal (instanceof_AppException e))
    (fun error req res =>
       AppResponse res (VNum 418) false VNull (VStr "teapot") VNull).

(** A service method that returns a value, and one whose promise is
    fulfilled. *)
Definition answers : Method :=
  closed (fun s args => (Normal (Plain (VNum 42)), s)).

Definition resolves : Method :=
  closed (fun s args => (Normal (Awaitable (Fulfilled (VNum 42))), s)).

(** [_relay() { return this.fails(); }].  With the instance as [this]
    it throws what [fails] throws.  With a proxy as [this] the call of
    [fails] is intercepted: it throws when the flag of the target is on
    and gives [null] when it is off. *)
Definition relay : Method :=
  mkMethod fails
    (fun s args =>
       if negb (throwOnError s) then (Normal (Plain VNull), s)
       else (Abrupt boom, s)).

Definition b_class : Class :=
  [("answers", answers); ("resolves", resolves); ("_fails", fails);
   ("fails", fails); ("_relay", relay)].

Definition b_service : Instance := BaseService.new b_class [].

(** [{ g: [optional(), requiredWhen('kind', 'x', 'needed')] }] and the
    input [{ kind: 'x' }]. *)
Definition g_when_kind : RuleMap unit :=
  [("g", FMany [RFun optional;
                RFun (requiredWhen "kind" (One (PStr "x")) "needed")])].

Definition kind_x : Value := VObj [("kind", VStr "x")].

(** [{ f: [default_value('d'), required()] , g: [oneOf(['a'])] }] as
    lists of rule functions. *)
Definition fg_rules : RuleLists unit :=
  [("f", [default_value (VStr "d"); required required_default_msg]);
   ("g", [oneOf [PStr "a"] "no"])].

(** A controller with the one method [list]; every other name reads as
    [undefined]. *)
Definition a_member (c : unit) (name : string) : Routing.Member unit :=
  if String.eqb name "list" then Routing.IsFunction (fun _ => ping)
  else Routing.IsValue VUndefined.

(** Filters in the style of the file's examples, each counting its
    calls in the world:
    [{ status: (value) => ({ status: value }),
       name: (value) => ({ name: value, exact: true }) }],
    and the condition [(input) => input.is_admin ? { status: 'admin' } : null]. *)
Definition some_filters : Obj (QueryFilter.FilterFn nat) :=
  [("status", fun value _ calls => (Normal (VObj [("status", value)]), S calls));
   ("name",
    fun value _ calls =>
      (Normal (VObj [("name", value); ("exact", VBool true)]), S calls))].

Definition admin_condition : QueryFilter.ConditionFn nat :=
  fun input calls =>
    (Normal (if truthy (Errors.get_opt input "is_admin")
             then VObj [("status", VStr "admin")]
             else VNull),
     calls).

(** [{ status: 'open', name: '', is_admin: true }] *)
Definition a_query : Value :=
  VObj [("status", VStr "open"); ("name", VStr ""); ("is_admin", VBool true)].

(** [{ name: '', status: null }] *)
Definition an_empty_query : Value :=
  VObj [("name", VStr ""); ("status", VNull)].

End MoreExamples.

(* ================================================================== *)
(** ** Conditions on rule maps and inputs used in the statements *)
(* ================================================================== *)

Module Conditions.

Import Errors Rules ValidationHelper MoreRules.

(** No rule function of the entry asks for the whole input. *)
Definition entry_context_free {W} (e : RuleEntry W) : bool :=
  match e with
  | RFun r => negb (needsContext r)
  | RNotFun _ => true
  end.

(** No rule function of the map asks for the whole input. *)
Definition context_free {W} (rules : RuleMap W) : bool :=
  forallb (fun kv => forallb entry_context_free (ruleArray (snd kv))) rules.

(** [otherValue] matches what [requiredWhen] is configured with. *)
Definition matches (expected : Expected) (otherValue : Value) : bool :=
  match expected with
  | Many l => includes l otherValue
  | One p => strict_equal otherValue p
  end.

(** The value is none of [undefined], [null] and the empty string. *)
Definition filled (v : Value) : bool :=
  match v with
  | VUndefined | VNull => false
  | VStr EmptyString => false
  | _ => true
  end.

(** No rule function of the map throws on the input: each one returns,
    whatever the world, on the value the input gives its field. *)
Definition returns_on {W} (input : Value) (rules : RuleMap W) : Prop :=
  forall f fieldRules r value w,
    In (f, fieldRules) rules ->
    In (RFun r) (ruleArray fieldRules) ->
    get input f = Normal value ->
    exists error w', call_rule r input value w = (Normal error, w').

(** No declared field is named like a member that a plain object
    inherits ([toString], [constructor], [__proto__], ...). *)
Definition plain_names {W} (rules : RuleMap W) : Prop :=
  forall k, has k rules = true -> in_chain KObject k = false.

End Conditions.

Module StatusConditions.

(** A status code from 200 to 999 that is none of 204, 205 and 304: one
    with which a response carries the body it is given. *)
Definition carries_body (n : Z) : bool :=
  ((200 <=? n) && (n <=? 999) && negb (n =? 204) && negb (n =? 205)
   && negb (n =? 304))%Z.

End StatusConditions.

Module Formatting.

(** The key [getFormatted] files a message under: its field, or
    [_error] when the field is [null] or empty. *)
Definition formatted_key (msg : Validation.ValidationMessage) : string :=
  match Validation.field_truthy (Validation.field msg) with
  | Some f => f
  | None => "_error"
  end.

(** The last of the messages filed under [k]. *)
Definition last_for (k : string) (msgs : list Validation.ValidationMessage)
  : option Validation.ValidationMessage :=
  find (fun m => String.eqb k (formatted_key m)) (rev msgs).

(** No message of the validation carries a field. *)
Definition unkeyed (v : Validation.t) : Prop :=
  Forall (fun m => Validation.field m = None) (Validation.messages v).

End Formatting.

Module ServiceConditions.

Import Errors BaseService.

(** The method did not fail: it returned a plain value, or a promise
    that is fulfilled or still pending. *)
Definition succeeded (r : Result Returned) : bool :=
  match r with
  | Normal (Plain _) => true
  | Normal (Awaitable (Fulfilled _)) => true
  | Normal (Awaitable Pending) => true
  | _ => false
  end.

End ServiceConditions.

Module CorsConditions.

Import Cors.

(** Every value the middleware may hand to [res.header] for this
    configuration and request is a legal header value. *)
Definition values_legal (config : CorsConfig) (req : Request) : bool :=
  match origin req with Some o => header_value o | None => true end
  && header_value
       (join ", "
          (or_default (allowedMethods config)
             ["GET"; "POST"; "PUT"; "PATCH"; "DELETE"; "OPTIONS"]))
  && header_value
       (join ", "
          (or_default (allowedHeaders config)
             ["Origin"; "X-Requested-With"; "Content-Type"; "Accept";
              "Authorization"]))
  && header_value (join ", " (or_default (exposedHeaders config) []))
  && header_value (string_of_Z (or_default (maxAge config) 86400%Z)).

(** [origins.includes('*') || (origin && origins.includes(origin))] *)
Definition origin_allowed (config : CorsConfig) (req : Request) : bool :=
  includes (origins_of config) "*"
  || origin_listed (origins_of config) (origin req).

End CorsConditions.

(* ================================================================== *)
(** ** Properties of property lists *)
(* ================================================================== *)

Section ObjectFacts.

Context {T : Type}.

Lemma lookup_replace (f k : string) (v : T) (o : Obj T) :
  has k o = true ->
  lookup f (replace k v o) = if String.eqb f k then Some v else lookup f o.
Proof.
  unfold has. induction o as [|[k' v'] o IH]; simpl; [discriminate|].
  destruct (String.eqb_spec k k') as [->|Hk].
  - intros _. simpl. destruct (String.eqb f k'); reflexivity.
  - intros H. simpl. destruct (String.eqb_spec f k') as [->|Hf].
    + destruct (String.eqb_spec k' k) as [e|_]; [congruence|reflexivity].
    + apply IH, H.
Qed.

Lemma lookup_insert_index (f k : string) (i : N) (v : T) (o : Obj T) :
  has k o = false ->
  lookup f (insert_index i k v o)
  = if String.eqb f k then Some v else lookup f o.
Proof.
  unfold has. induction o as [|[k' v'] o IH]; simpl.
  - intros _. destruct (String.eqb f k); reflexivity.
  - destruct (String.eqb_spec k k') as [->|Hk]; [discriminate|]. intros H.
    assert (Hcons : lookup f ((k, v) :: (k', v') :: o)
                    = if String.eqb f k then Some v
                      else if String.eqb f k' then Some v' else lookup f o)
      by reflexivity.
    destruct (array_index k') as [j|]; [destruct (j <? i)%N|]; try exact Hcons.
    simpl. destruct (String.eqb_spec f k') as [->|Hf].
    + destruct (String.eqb_spec k' k) as [e|_]; [congruence|reflexivity].
    + apply IH, H.
Qed.

Lemma lookup_app_one (f k : string) (v : T) (o : Obj T) :
  has k o = false ->
  lookup f (o ++ [(k, v)]) = if String.eqb f k then Some v else lookup f o.
Proof.
  unfold has. induction o as [|[k' v'] o IH]; simpl.
  - intros _. destruct (String.eqb f k); reflexivity.
  - destruct (String.eqb_spec k k') as [->|Hk]; [discriminate|]. intros H.
    destruct (String.eqb_spec f k') as [->|Hf].
    + destruct (String.eqb_spec k' k) as [e|_]; [congruence|reflexivity].
    + apply IH, H.
Qed.

(** Reading after writing: the key written holds the new value, every
    other key holds what it held. *)
Lemma lookup_set (f k : string) (v : T) (o : Obj T) :
  lookup f (Js.set k v o) = if String.eqb f k then Some v else lookup f o.
Proof.
  unfold Js.set. destruct (has k o) eqn:Hh.
  - apply lookup_replace, Hh.
  - destruct (array_index k).
    + apply lookup_insert_index, Hh.
    + apply lookup_app_one, Hh.
Qed.

Lemma existsb_keys_lookup (k : string) (o : Obj T) :
  existsb (String.eqb k) (keys o) = has k o.
Proof.
  unfold has. induction o as [|[k' v'] o IH]; simpl; [reflexivity|].
  destruct (String.eqb k k'); [reflexivity|apply IH].
Qed.

(** Copying the properties of a well-formed [src] over [target]. *)
Lemma lookup_assign_all (f : string) (src target : Obj T) :
  wf src = true ->
  lookup f (assign_all target src)
  = match lookup f src with
    | Some x => Some x
    | None => lookup f target
    end.
Proof.
  unfold assign_all, wf.
  revert target. induction src as [|[k v] src IH]; intros target Hwf; simpl.
  - reflexivity.
  - simpl in Hwf. apply andb_true_iff in Hwf as [Hk Hwf].
    rewrite IH by exact Hwf. rewrite lookup_set.
    destruct (String.eqb_spec f k) as [->|Hf]; [|reflexivity].
    apply negb_true_iff in Hk. rewrite existsb_keys_lookup in Hk.
    unfold has in Hk. destruct (lookup k src); [discriminate|reflexivity].
Qed.

(** The object literal [{...a, ...b}] is the right-biased union. *)
Lemma lookup_spread (f : string) (a b : Obj T) :
  wf a = true -> wf b = true ->
  lookup f (spread a b)
  = match lookup f b with
    | Some x => Some x
    | None => lookup f a
    end.
Proof.
  intros Ha Hb. unfold spread.
  rewrite lookup_assign_all by exact Hb.
  rewrite lookup_assign_all by exact Ha.
  destruct (lookup f b); [reflexivity|].
  destruct (lookup f a); reflexivity.
Qed.

Lemma in_has (k : string) (v : T) (o : Obj T) :
  In (k, v) o -> has k o = true.
Proof.
  unfold has. induction o as [|[k' v'] o IH]; simpl; [contradiction|].
  intros [Heq|Hin].
  - inversion Heq. rewrite String.eqb_refl. reflexivity.
  - destruct (String.eqb k k'); [reflexivity|apply IH, Hin].
Qed.

Lemma in_replace (x : string * T) (k : string) (v : T) (o : Obj T) :
  In x (replace k v o) -> x = (k, v) \/ In x o.
Proof.
  induction o as [|[k' v'] o IH]; simpl; [contradiction|].
  destruct (String.eqb_spec k k') as [->|Hk]; simpl.
  - intros [<-|Hin]; [left; reflexivity|right; right; exact Hin].
  - intros [<-|Hin]; [right; left; reflexivity|].
    destruct (IH Hin) as [->|H]; [left; reflexivity|right; right; exact H].
Qed.

Lemma in_insert_index (x : string * T) (i : N) (k : string) (v : T)
  (o : Obj T) :
  In x (insert_index i k v o) -> x = (k, v) \/ In x o.
Proof.
  induction o as [|[k' v'] o IH]; simpl.
  - intros [<-|[]]. left. reflexivity.
  - destruct (array_index k') as [j|]; [destruct (j <? i)%N|]; simpl.
    + intros [<-|Hin]; [right; left; reflexivity|].
      destruct (IH Hin) as [->|H]; [left; reflexivity|right; right; exact H].
    + intros [<-|Hin]; [left; reflexivity|right; exact Hin].
    + intros [<-|Hin]; [left; reflexivity|right; exact Hin].
Qed.

(** An assignment adds the property written and nothing else. *)
Lemma in_set (x : string * T) (k : string) (v : T) (o : Obj T) :
  In x (Js.set k v o) -> x = (k, v) \/ In x o.
Proof.
  unfold Js.set. destruct (has k o).
  - apply in_replace.
  - destruct (array_index k).
    + apply in_insert_index.
    + intros H. apply in_app_or in H as [H|[<-|[]]];
        [right; exact H|left; reflexivity].
Qed.

Lemma in_assign_all (x : string * T) (src target : Obj T) :
  In x (assign_all target src) -> In x target \/ In x src.
Proof.
  unfold assign_all. revert target.
  induction src as [|[k v] src IH]; intros target; simpl.
  - intros H. left. exact H.
  - intros H. destruct (IH _ H) as [H1|H1].
    + destruct (in_set _ _ _ _ H1) as [->|H2];
        [right; left; reflexivity|left; exact H2].
    + right. right. exact H1.
Qed.

Lemma keys_replace (k : string) (v : T) (o : Obj T) :
  keys (replace k v o) = keys o.
Proof.
  induction o as [|[k' v'] o IH]; simpl; [reflexivity|].
  destruct (String.eqb k k'); simpl; [reflexivity|].
  f_equal. apply IH.
Qed.

Lemma has_set (f k : string) (v : T) (o : Obj T) :
  has f (Js.set k v o) = String.eqb f k || has f o.
Proof.
  unfold has at 1. rewrite lookup_set. unfold has.
  destruct (String.eqb f k); [reflexivity|].
  destruct (lookup f o); reflexivity.
Qed.

Lemma wf_insert_index (i : N) (k : string) (v : T) (o : Obj T) :
  has k o = false -> wf o = true -> wf (insert_index i k v o) = true.
Proof.
  unfold wf. induction o as [|[k' v'] o IH]; simpl; [reflexivity|].
  intros Hk Hwf. apply andb_true_iff in Hwf as [Hk' Hwf].
  assert (Hkk : String.eqb k k' = false /\ has k o = false).
  { unfold has in Hk |- *. simpl in Hk.
    destruct (String.eqb k k'); [discriminate|]. split; [reflexivity|exact Hk]. }
  destruct Hkk as [Hne Hko].
  assert (Hcons : wf_keys (k :: k' :: keys o) = true).
  { simpl. rewrite Hne. rewrite existsb_keys_lookup, Hko. simpl.
    rewrite Hk', Hwf. reflexivity. }
  destruct (array_index k') as [j|]; [destruct (j <? i)%N|]; try exact Hcons.
  simpl. rewrite (IH Hko Hwf), andb_true_r.
  apply negb_true_iff. apply negb_true_iff in Hk'.
  rewrite existsb_keys_lookup in Hk' |- *.
  unfold has. rewrite lookup_insert_index by exact Hko.
  rewrite String.eqb_sym, Hne. exact Hk'.
Qed.

Lemma wf_app_one (k : string) (v : T) (o : Obj T) :
  has k o = false -> wf o = true -> wf (o ++ [(k, v)]) = true.
Proof.
  unfold wf. induction o as [|[k' v'] o IH]; simpl; [reflexivity|].
  intros Hk Hwf. apply andb_true_iff in Hwf as [Hk' Hwf].
  assert (Hkk : String.eqb k k' = false /\ has k o = false).
  { unfold has in Hk |- *. simpl in Hk.
    destruct (String.eqb k k'); [discriminate|]. split; [reflexivity|exact Hk]. }
  destruct Hkk as [Hne Hko].
  rewrite (IH Hko Hwf), andb_true_r.
  apply negb_true_iff. apply negb_true_iff in Hk'.
  rewrite existsb_keys_lookup in Hk' |- *.
  unfold has. rewrite lookup_app_one by exact Hko.
  rewrite String.eqb_sym, Hne. exact Hk'.
Qed.

(** An assignment keeps the keys of an object distinct. *)
Lemma wf_set (k : string) (v : T) (o : Obj T) :
  wf o = true -> wf (Js.set k v o) = true.
Proof.
  intros Hwf. unfold Js.set. destruct (has k o) eqn:Hk.
  - unfold wf. rewrite keys_replace. exact Hwf.
  - destruct (array_index k).
    + apply wf_insert_index; assumption.
    + apply wf_app_one; assumption.
Qed.

Lemma wf_assign_all (src target : Obj T) :
  wf target = true -> wf (assign_all target src) = true.
Proof.
  unfold assign_all. revert target.
  induction src as [|[k v] src IH]; intros target Hwf; simpl.
  - exact Hwf.
  - apply IH, wf_set, Hwf.
Qed.

Lemma wf_spread (a b : Obj T) : wf (spread a b) = true.
Proof.
  unfold spread. apply wf_assign_all, wf_assign_all. reflexivity.
Qed.

Lemma has_assign_all (k : string) (src target : Obj T) :
  has k (assign_all target src) = has k target || has k src.
Proof.
  unfold assign_all. revert target.
  induction src as [|[k' v] src IH]; intros target; simpl.
  - symmetry. apply orb_false_r.
  - rewrite IH, has_set. unfold has at 4. simpl. fold (has k src).
    destruct (String.eqb k k'); simpl.
    + rewrite orb_true_r. reflexivity.
    + destruct (lookup k src) eqn:Hl; unfold has; rewrite Hl; reflexivity.
Qed.

(** An assignment writes the key it is given, but for [__proto__] on an
    object that has no own property of the name; it touches no other
    key. *)
Lemma lookup_assign (f k : string) (v : T) (o : Obj T) :
  lookup f (Js.assign k v o)
  = if String.eqb k "__proto__" && negb (has k o) then lookup f o
    else if String.eqb f k then Some v else lookup f o.
Proof.
  unfold Js.assign.
  destruct (String.eqb k "__proto__" && negb (has k o)); [reflexivity|].
  apply lookup_set.
Qed.

Lemma lookup_assign_plain (f k : string) (v : T) (o : Obj T) :
  String.eqb f "__proto__" = false ->
  lookup f (Js.assign k v o) = if String.eqb f k then Some v else lookup f o.
Proof.
  intros Hf. rewrite lookup_assign.
  destruct (String.eqb_spec k "__proto__") as [->|Hk]; simpl; [|reflexivity].
  rewrite Hf. destruct (negb (has "__proto__" o)); reflexivity.
Qed.

Lemma has_assign (f k : string) (v : T) (o : Obj T) :
  has f o = true -> has f (Js.assign k v o) = true.
Proof.
  intros Hf. unfold Js.assign.
  destruct (String.eqb k "__proto__" && negb (has k o)); [exact Hf|].
  rewrite has_set, Hf. apply orb_true_r.
Qed.

Lemma wf_assign (k : string) (v : T) (o : Obj T) :
  wf o = true -> wf (Js.assign k v o) = true.
Proof.
  intros Hwf. unfold Js.assign.
  destruct (String.eqb k "__proto__" && negb (has k o)); [exact Hwf|].
  apply wf_set, Hwf.
Qed.

(** An object literal that is filled by assignments never gets an own
    property [__proto__]. *)
Lemma assign_no_proto (k : string) (v : T) (o : Obj T) :
  has "__proto__" o = false -> has "__proto__" (Js.assign k v o) = false.
Proof.
  intros Ho. unfold Js.assign.
  destruct (String.eqb_spec k "__proto__") as [->|Hk]; simpl.
  - rewrite Ho. exact Ho.
  - rewrite has_set, Ho.
    destruct (String.eqb_spec "__proto__" k) as [e|_]; [congruence|reflexivity].
Qed.

End ObjectFacts.

(* ================================================================== *)
(** ** Property reads *)
(* ================================================================== *)

Section ReadFacts.

Import Errors Rules ValidationHelper Conditions.

(** A name that is nowhere on the chain reads as [undefined]. *)
Lemma inherited_undefined (kd : Kind) (k : string) :
  in_chain kd k = false -> inherited kd k = VUndefined.
Proof.
  unfold in_chain, inherited.
  destruct (prototype_own kd k); [discriminate|].
  destruct (prototype_own KObject k); [discriminate|].
  intros ->. reflexivity.
Qed.

(** On an object, [k in v] fails only where [v[k]] is [undefined]. *)
Lemma js_in_read (v : Value) (k : string) :
  typeof_object v = true -> truthy v = true ->
  js_in k v = false -> read v k = VUndefined.
Proof.
  unfold js_in, read.
  destruct (own_property v k); [discriminate|].
  destruct v as [| |b|n|s|l|o|[kd name|kd|kd]]; try discriminate; intros _ _.
  - apply inherited_undefined.
  - apply inherited_undefined.
  - destruct kd; try apply inherited_undefined.
    intros ->. reflexivity.
Qed.

Lemma object_or_empty_object (input : Value) :
  typeof_object (object_or_empty input) = true
  /\ truthy (object_or_empty input) = true.
Proof.
  unfold object_or_empty.
  destruct (truthy input) eqn:Ht, (typeof_object input) eqn:Ho; simpl;
    split; try reflexivity; assumption.
Qed.

(** For [sanitize], a field is supplied exactly when the input's value
    for it is none of [undefined], [null] and the empty string. *)
Lemma supplied_filled (input : Value) (f : string) :
  supplied (object_or_empty input) f
  = filled (read (object_or_empty input) f).
Proof.
  destruct (object_or_empty_object input) as [Ho Ht].
  unfold supplied.
  destruct (js_in f (object_or_empty input)) eqn:Hin; [reflexivity|].
  rewrite (js_in_read _ _ Ho Ht Hin). reflexivity.
Qed.

(** On a plain object, a name that the object does not inherit is read
    from its own properties alone. *)
Lemma read_plain (o : Obj Value) (k : string) :
  in_chain KObject k = false ->
  read (VObj o) k
  = match lookup k o with Some x => x | None => VUndefined end
  /\ js_in k (VObj o) = has k o.
Proof.
  intros Hk. unfold read, js_in, has. simpl.
  destruct (lookup k o); [split; reflexivity|].
  rewrite Hk, (inherited_undefined _ _ Hk). split; reflexivity.
Qed.

(** A field that a plain object has no own property for has a value
    exactly when [Object.prototype] has a member of the name. *)
Lemma absent_filled (o : Obj Value) (k : string) :
  lookup k o = None -> filled (read (VObj o) k) = in_chain KObject k.
Proof.
  intros Ho. unfold read, in_chain, inherited. simpl. rewrite Ho.
  unfold prototype_own.
  destruct (String.eqb k "constructor"); [reflexivity|].
  destruct (mem k (methods KObject)); [reflexivity|].
  destruct (String.eqb k "length");
    destruct (String.eqb k "__proto__"); reflexivity.
Qed.

Lemma in_chain_proto (kd : Kind) : in_chain kd "__proto__" = true.
Proof. destruct kd; reflexivity. Qed.

Lemma get_returns (input : Value) (k : string) :
  nullish input = false -> get input k = Normal (read input k).
Proof. intros Hn. unfold get. rewrite Hn. reflexivity. Qed.

End ReadFacts.

(* ================================================================== *)
(** ** The rule engine and the schema validator *)
(* ================================================================== *)

Section ValidationFacts.

Import Errors Helper Rules ValidationHelper Conditions.

Context {W : Type}.

Implicit Types (input value : Value) (acc : Validation.t * W).

Lemma add_if_error_extends (error : option string) (v : Validation.t) :
  exists more,
    Validation.messages (add_if_error error v) = Validation.messages v ++ more.
Proof.
  destruct error as [e|]; simpl.
  - destruct (truthy_str e).
    + exists [Validation.mkMessage Validation.ERR_UNKNOWN e None]. reflexivity.
    + exists []. symmetry. apply app_nil_r.
  - exists []. symmetry. apply app_nil_r.
Qed.

Lemma apply_rule_extends input value acc (e : RuleEntry W) v' w' :
  apply_rule input value acc e = (Normal v', w') ->
  exists more,
    Validation.messages v' = Validation.messages (fst acc) ++ more.
Proof.
  destruct acc as [v w]. destruct e as [r|x]; simpl.
  - destruct (call_rule r input value w) as [[error|x] w1]; [|discriminate].
    intros H. inversion H; subst. apply add_if_error_extends.
  - intros H. inversion H; subst. exists []. symmetry. apply app_nil_r.
Qed.

Lemma each_rule_extends input value (rs : list (RuleEntry W)) acc v' w' :
  each_rule input value rs acc = (Normal v', w') ->
  exists more,
    Validation.messages v' = Validation.messages (fst acc) ++ more.
Proof.
  revert acc. induction rs as [|e rs IH]; intros acc; simpl.
  - destruct acc as [v w]. intros H. inversion H; subst.
    exists []. symmetry. apply app_nil_r.
  - destruct (apply_rule input value acc e) as [[v1|x] w1] eqn:He;
      [|discriminate].
    intros H. destruct (IH _ H) as [m2 H2].
    destruct (apply_rule_extends input value acc e v1 w1 He) as [m1 H1].
    exists (m1 ++ m2). rewrite H2. simpl. rewrite H1. symmetry.
    apply app_assoc.
Qed.

(** The loop over a sequence of rules, cut in two. *)
Lemma each_rule_app input value (a b : list (RuleEntry W)) acc :
  each_rule input value (a ++ b) acc
  = match each_rule input value a acc with
    | (Normal v, w) => each_rule input value b (v, w)
    | (Abrupt e, w) => (Abrupt e, w)
    end.
Proof.
  revert acc. induction a as [|e a IH]; intros acc; simpl.
  - destruct acc as [v w]. reflexivity.
  - destruct (apply_rule input value acc e) as [[v1|x] w1]; [|reflexivity].
    apply IH.
Qed.

Lemma validate_entries_extends input (entries : RuleMap W) v w v' w' :
  validate_entries input entries v w = (Normal v', w') ->
  exists more, Validation.messages v' = Validation.messages v ++ more.
Proof.
  revert v w. induction entries as [|[k fr] entries IH]; intros v w; simpl.
  - intros H. inversion H. exists []. symmetry. apply app_nil_r.
  - destruct (get input k) as [value|e]; [|discriminate].
    destruct (validate_field input value fr (v, w)) as [[v1|x] w1] eqn:Hf;
      [|discriminate].
    intros H. destruct (IH _ _ H) as [m2 H2].
    destruct (each_rule_extends input value (ruleArray fr) (v, w) v1 w1 Hf)
      as [m1 H1].
    simpl in H1.
    exists (m1 ++ m2). rewrite H2, H1. symmetry. apply app_assoc.
Qed.

(** A sequence of rules none of which throws runs to its end. *)
Lemma each_rule_returns input value (rs : list (RuleEntry W)) acc :
  (forall r w, In (RFun r) rs ->
     exists error w', call_rule r input value w = (Normal error, w')) ->
  exists v' w', each_rule input value rs acc = (Normal v', w').
Proof.
  revert acc. induction rs as [|e rs IH]; intros acc Hret; simpl.
  - destruct acc as [v w]. eauto.
  - assert (Hrest : forall r w, In (RFun r) rs ->
              exists error w', call_rule r input value w = (Normal error, w'))
      by (intros r w Hin; apply Hret; right; exact Hin).
    destruct acc as [v w]. destruct e as [r|x]; simpl.
    + destruct (Hret r w (or_introl eq_refl)) as [error [w1 Hr]].
      rewrite Hr. apply IH, Hrest.
    + apply IH, Hrest.
Qed.

(** On an input that is neither [undefined] nor [null], with rules none
    of which throws on it, the validation loop runs to its end. *)
Lemma validate_entries_returns input (entries : RuleMap W) v w :
  nullish input = false ->
  returns_on input entries ->
  exists v' w', validate_entries input entries v w = (Normal v', w').
Proof.
  intros Hn. revert v w.
  induction entries as [|[k fr] entries IH]; intros v w Hret; simpl.
  - eauto.
  - rewrite (get_returns input k Hn).
    destruct (each_rule_returns input (read input k) (ruleArray fr) (v, w))
      as [v1 [w1 Hf]].
    { intros r w0 Hin.
      apply (Hret k fr r (read input k) w0);
        [left; reflexivity|exact Hin|apply get_returns, Hn]. }
    unfold validate_field. rewrite Hf. apply IH.
    intros f fr' r value w0 Hin. apply (Hret f fr' r value w0). right.
    exact Hin.
Qed.

(** [required] on an empty value. *)
Lemma required_fails (msg : string) input value (w : W) :
  empty_value value ->
  call_rule (required msg) input value w = (Normal (Some msg), w).
Proof.
  intros [->|[->| ->]]; reflexivity.
Qed.

(** A rule that fails on the field's value leaves its message, whatever
    the other rules of the field return. *)
Lemma each_rule_reports (r : Rule W) (msg : string) input value
  (rs : list (RuleEntry W)) acc v' w' :
  In (RFun r) rs ->
  (forall w, fst (call_rule r input value w) = Normal (Some msg)) ->
  msg <> "" ->
  each_rule input value rs acc = (Normal v', w') ->
  exists m, In m (Validation.messages v') /\ Validation.message m = msg.
Proof.
  intros Hin Hfail Hmsg. revert acc.
  induction rs as [|e rs IH]; intros acc; [contradiction|].
  destruct Hin as [->|Hin]; simpl.
  - destruct acc as [v w]. simpl. specialize (Hfail w).
    destruct (call_rule r input value w) as [error w1]. simpl in Hfail.
    subst error. intros H.
    destruct (each_rule_extends input value rs _ v' w' H) as [more Hmore].
    exists (Validation.mkMessage Validation.ERR_UNKNOWN msg None).
    split; [|reflexivity]. rewrite Hmore. apply in_or_app. left. simpl.
    destruct msg; [congruence|]. simpl. apply in_or_app. right. left.
    reflexivity.
  - destruct (apply_rule input value acc e) as [[v1|x] w1]; [|discriminate].
    apply IH, Hin.
Qed.

Lemma validate_entries_reports (r : Rule W) (msg f : string)
  (fr : FieldRules W) input value (entries : RuleMap W) v w v' w' :
  In (f, fr) entries -> In (RFun r) (ruleArray fr) ->
  (forall w0, fst (call_rule r input value w0) = Normal (Some msg)) ->
  msg <> "" -> get input f = Normal value ->
  validate_entries input entries v w = (Normal v', w') ->
  exists m, In m (Validation.messages v') /\ Validation.message m = msg.
Proof.
  intros Hin Hr Hfail Hmsg Hget. revert v w.
  induction entries as [|[k fr'] entries IH]; intros v w; [contradiction|].
  simpl. destruct Hin as [Heq|Hin].
  - inversion Heq; subst k fr'. rewrite Hget.
    destruct (validate_field input value fr (v, w)) as [[v1|x] w1] eqn:Hf;
      [|discriminate].
    intros H.
    destruct (validate_entries_extends input entries v1 w1 v' w' H)
      as [more Hmore].
    destruct (each_rule_reports r msg input value (ruleArray fr) (v, w) v1 w1
                Hr Hfail Hmsg Hf) as [m [Hm Hmm]].
    exists m. split; [|exact Hmm]. rewrite Hmore. apply in_or_app. left.
    exact Hm.
  - destruct (get input k) as [value'|e]; [|discriminate].
    destruct (validate_field input value' fr' (v, w)) as [[v1|x] w1];
      [|discriminate].
    apply IH, Hin.
Qed.

End ValidationFacts.

Section SanitizeFacts.

Import Errors Rules ValidationHelper Conditions.

Context {W : Type}.

(** [sanitize]'s loop body, by the value it gives the field. *)
Lemma sanitize_field_sanitized (input : Value) (rules : RuleMap W)
  (result : Obj Value) (k : string) :
  sanitize_field input rules result k
  = match sanitized input (rules_of rules k) k with
    | Some v => Js.assign k v result
    | None => result
    end.
Proof.
  unfold sanitize_field, sanitized.
  destruct (supplied input k); [reflexivity|].
  destruct (find entry_isDefault (ruleArray (rules_of rules k))); reflexivity.
Qed.

Lemma sanitize_field_lookup (input : Value) (rules : RuleMap W)
  (result : Obj Value) (k f : string) :
  String.eqb f "__proto__" = false ->
  lookup f (sanitize_field input rules result k)
  = if String.eqb f k
    then match sanitized input (rules_of rules k) k with
         | Some v => Some v
         | None => lookup f result
         end
    else lookup f result.
Proof.
  intros Hf. rewrite sanitize_field_sanitized.
  destruct (sanitized input (rules_of rules k) k).
  - rewrite lookup_assign_plain by exact Hf. reflexivity.
  - destruct (String.eqb f k); reflexivity.
Qed.

Lemma fold_sanitize_lookup (input : Value) (rules : RuleMap W)
  (ks : list string) (result : Obj Value) (f : string) :
  String.eqb f "__proto__" = false ->
  lookup f (fold_left (sanitize_field input rules) ks result)
  = if existsb (String.eqb f) ks
    then match sanitized input (rules_of rules f) f with
         | Some v => Some v
         | None => lookup f result
         end
    else lookup f result.
Proof.
  intros Hf. revert result. induction ks as [|k ks IH]; intros result; simpl.
  - reflexivity.
  - rewrite IH, sanitize_field_lookup by exact Hf.
    destruct (String.eqb_spec f k) as [->|Hk]; simpl.
    + destruct (existsb (String.eqb k) ks);
        destruct (sanitized input (rules_of rules k) k); reflexivity.
    + reflexivity.
Qed.

(** The fields of the result of [sanitize], for a rule map that does not
    declare [__proto__]. *)
Lemma sanitize_lookup (input : Value) (rules : RuleMap W) (f : string) :
  has "__proto__" rules = false ->
  lookup f (sanitize input rules)
  = match lookup f rules with
    | None => None
    | Some fieldRules =>
        if filled (read (object_or_empty input) f)
        then Some (read (object_or_empty input) f)
        else option_map entry_defaultValue
               (find entry_isDefault (ruleArray fieldRules))
    end.
Proof.
  intros Hproto.
  destruct (String.eqb f "__proto__") eqn:Hf.
  - apply String.eqb_eq in Hf. subst f.
    unfold has in Hproto.
    destruct (lookup "__proto__" rules); [discriminate|].
    assert (H : has "__proto__" (sanitize input rules) = false).
    { unfold sanitize. generalize (keys rules) as ks.
      assert (H0 : has "__proto__" (@nil (string * Value)) = false)
        by reflexivity.
      revert H0. generalize (@nil (string * Value)) as result.
      intros result H0 ks. revert result H0.
      induction ks as [|k ks IH]; intros result H0; simpl; [exact H0|].
      apply IH. rewrite sanitize_field_sanitized.
      destruct (sanitized (object_or_empty input) (rules_of rules k) k);
        [|exact H0].
      apply assign_no_proto, H0. }
    unfold has in H.
    destruct (lookup "__proto__" (sanitize input rules));
      [discriminate|reflexivity].
  - unfold sanitize. rewrite fold_sanitize_lookup by exact Hf.
    rewrite existsb_keys_lookup. unfold has, rules_of, sanitized. simpl.
    destruct (lookup f rules) as [fieldRules|]; [|reflexivity].
    rewrite supplied_filled.
    destruct (filled (read (object_or_empty input) f)); [reflexivity|].
    destruct (find entry_isDefault (ruleArray fieldRules)); reflexivity.
Qed.

(** The result of [sanitize] has no own property [__proto__]. *)
Lemma fold_sanitize_no_proto (input : Value) (rules : RuleMap W)
  (ks : list string) (result : Obj Value) :
  has "__proto__" result = false ->
  has "__proto__" (fold_left (sanitize_field input rules) ks result) = false.
Proof.
  revert result. induction ks as [|k ks IH]; intros result Hr; simpl.
  - exact Hr.
  - apply IH. rewrite sanitize_field_sanitized.
    destruct (sanitized input (rules_of rules k) k); [|exact Hr].
    apply assign_no_proto, Hr.
Qed.

Lemma fold_sanitize_ext (i1 i2 : Value) (rules : RuleMap W)
  (ks : list string) (result : Obj Value) :
  (forall k, In k ks ->
     sanitized i1 (rules_of rules k) k = sanitized i2 (rules_of rules k) k) ->
  fold_left (sanitize_field i1 rules) ks result
  = fold_left (sanitize_field i2 rules) ks result.
Proof.
  revert result. induction ks as [|k ks IH]; intros result Hk; simpl.
  - reflexivity.
  - rewrite !sanitize_field_sanitized.
    rewrite (Hk k) by (left; reflexivity).
    apply IH. intros k' Hin. apply Hk. right. exact Hin.
Qed.

End SanitizeFacts.

(* ================================================================== *)
(** ** Claims on validation and sanitization *)
(* ================================================================== *)

Section ValidationClaims.

Import Errors Rules ValidationHelper Conditions Examples.

(** C1, as amended.  [validate] does not stop at a field's first
    failure.  When the rules [before] a rule [r] of the field's sequence
    have returned, whatever they returned, [r] is called, in the world
    those rules left; its message, when not empty, is added to the
    result; and the rules [after] it are run from there.  The result of
    the whole sequence starts with the messages reported up to [r], in
    order.  Only a rule that throws ends the sequence. *)
Theorem validate_field_runs_every_rule :
  forall (W : Type) (input value : Value)
         (before after : list (RuleEntry W)) (r : Rule W)
         (acc : Validation.t * W),
    let whole :=
      validate_field input value (FMany (before ++ RFun r :: after)) acc in
    whole
    = match validate_field input value (FMany before) acc with
      | (Normal reached, w1) =>
          match call_rule r input value w1 with
          | (Normal error, w2) =>
              validate_field input value (FMany after)
                (add_if_error error reached, w2)
          | (Abrupt e, w2) => (Abrupt e, w2)
          end
      | (Abrupt e, w1) => (Abrupt e, w1)
      end
    /\ (forall reached w1 error w2 v' w',
          validate_field input value (FMany before) acc
          = (Normal reached, w1) ->
          call_rule r input value w1 = (Normal error, w2) ->
          whole = (Normal v', w') ->
          exists more,
            Validation.messages v'
            = Validation.messages (add_if_error error reached) ++ more).
Proof.
  intros W input value before after r acc whole.
  assert (Hwhole : whole
            = match validate_field input value (FMany before) acc with
              | (Normal reached, w1) =>
                  match call_rule r input value w1 with
                  | (Normal error, w2) =>
                      validate_field input value (FMany after)
                        (add_if_error error reached, w2)
                  | (Abrupt e, w2) => (Abrupt e, w2)
                  end
              | (Abrupt e, w1) => (Abrupt e, w1)
              end).
  { subst whole. unfold validate_field. simpl. rewrite each_rule_app.
    destruct (each_rule input value before acc) as [[v|x] w]; [|reflexivity].
    simpl. destruct (call_rule r input value w) as [[error|x] w1];
      reflexivity. }
  split; [exact Hwhole|].
  intros reached w1 error w2 v' w' Hbefore Hr. rewrite Hwhole, Hbefore, Hr.
  unfold validate_field. intros H.
  apply (each_rule_extends input value (ruleArray (FMany after))
           (add_if_error error reached, w2) v' w' H).
Qed.

(** C1, the claim as stated, fails.  On [{ f: [required('first'), probe] }]
    and the input [{}] the first rule fails, yet the probe is called
    (the world counts one call) and the field contributes two messages;
    the short-circuit reading makes no call and reports one. *)
Lemma validate_does_not_short_circuit :
  call_rule (required "first") (VObj []) VUndefined 0
  = (Normal (Some "first"), 0)
  /\ validate (VObj []) two_rules 0
     = (Normal (Validation.mk
                  [Validation.mkMessage "ERR_UNKNOWN" "first" None;
                   Validation.mkMessage "ERR_UNKNOWN" "second" None]),
        1)
  /\ Spec.validate_field_short_circuit (VObj []) VUndefined
       (ruleArray (rules_of two_rules "f")) (Validation.new, 0)
     = (Normal
          (Validation.mk [Validation.mkMessage "ERR_UNKNOWN" "first" None]),
        0).
Proof.
  repeat split; reflexivity.
Qed.

(** C2, as amended.  When field [f] of the schema has the rule
    [required] with a non-empty message [msg], and the input's value for
    [f], its own property or else the member of the name it inherits,
    is [undefined], [null] or the empty string, and no rule of the
    schema throws on the input, [check] throws a validation that holds
    an entry with message [msg], and [isValid()] is false on it. *)
Theorem check_required_missing :
  forall (W : Type) (st : Store W) (s : Schema) (f : string)
         (fieldRules : FieldRules W) (msg : string) (input value : Value)
         (w : W),
    In (f, fieldRules) (deref st (rules s)) ->
    In (RFun (required msg)) (ruleArray fieldRules) ->
    msg <> "" ->
    is_function input = false ->
    get input f = Normal value ->
    value = VUndefined \/ value = VNull \/ value = VStr "" ->
    returns_on input (deref st (rules s)) ->
    exists validation w',
      check s input st w = (Abrupt (EValidation validation), w')
      /\ (exists m, In m (Validation.messages validation)
                    /\ Validation.message m = msg)
      /\ Validation.isValid validation = false.
Proof.
  intros W st s f fieldRules msg input value w Hin Hr Hmsg _ Hget Hv Hret.
  assert (Hn : nullish input = false).
  { unfold get in Hget. destruct (nullish input); [discriminate|reflexivity]. }
  destruct (validate_entries_returns input (deref st (rules s))
              Validation.new w Hn Hret) as [v' [w' Hval]].
  destruct (validate_entries_reports (required msg) msg f fieldRules input
              value (deref st (rules s)) Validation.new w v' w' Hin Hr)
    as [m [Hm Hmm]]; try assumption.
  { intros w0. rewrite (required_fails msg input value w0 Hv). reflexivity. }
  assert (Hinvalid : Validation.isValid v' = false).
  { unfold Validation.isValid. destruct (Validation.messages v');
      [contradiction|reflexivity]. }
  exists v', w'. unfold check, validate. rewrite Hval, Hinvalid. simpl.
  split; [reflexivity|]. split; [|reflexivity]. exists m. split; assumption.
Qed.

(** C2, witness: [schema({ f: required() }).check({})]. *)
Lemma check_required_missing_witness :
  exists validation w',
    check (schema 0) (VObj []) [f_required] tt
    = (Abrupt (EValidation validation), w')
    /\ (exists m, In m (Validation.messages validation)
                  /\ Validation.message m = required_default_msg)
    /\ Validation.isValid validation = false.
Proof.
  apply check_required_missing
    with (f := "f")
         (fieldRules := FOne (RFun (required required_default_msg)))
         (value := VUndefined).
  - simpl. left. reflexivity.
  - simpl. left. reflexivity.
  - discriminate.
  - reflexivity.
  - reflexivity.
  - left. reflexivity.
  - intros f fieldRules r value w [Hf|[]] Hr Hget.
    inversion Hf; subst f fieldRules.
    destruct Hr as [Hr|[]]. inversion Hr; subst r.
    inversion Hget; subst value.
    exists (Some required_default_msg), w. reflexivity.
Defined.

(** C2, the claim as stated, fails.  A whitespace-only string is not
    empty for [required]: [schema({ f: required() }).check({ f: ' ' })]
    returns and throws nothing.  On [{}] the entry that is raised
    carries no field: formatted by field, it sits under [_error], not
    under [f].  A [required] whose message is empty reports nothing, and
    on the input [null] the read of the field throws a [TypeError], not
    a validation.  A field that the input lacks but inherits is not
    missing: [schema({ toString: required() }).check({})] returns.  And
    when another rule of the schema throws, that is what [check]
    throws. *)
Lemma check_required_blank_passes_entry_unkeyed :
  check (schema 0) blank_f [f_required] tt = (Normal tt, tt)
  /\ check (schema 0) (VObj []) [f_required] tt
     = (Abrupt (EValidation
                  (Validation.mk
                     [Validation.mkMessage "ERR_UNKNOWN" "Campo obrigatório"
                        None])),
        tt)
  /\ Validation.getFormatted
       (Validation.mk
          [Validation.mkMessage "ERR_UNKNOWN" "Campo obrigatório" None])
     = [("_error", "Campo obrigatório")]
  /\ check (schema 0) (VObj []) [f_required_no_message] tt = (Normal tt, tt)
  /\ check (schema 0) VNull [f_required] tt
     = (Abrupt (TypeError VNull "f"), tt)
  /\ check (schema 0) (VObj []) [toString_required] tt = (Normal tt, tt)
  /\ check (schema 0) (VObj []) [f_required_g_throws] tt = (Abrupt boom, tt).
Proof.
  repeat split; reflexivity.
Qed.

(** C3, as amended.  For a rule map that declares no field [__proto__],
    the result of [sanitize] holds declared fields only.  A declared
    field holds the input's value, unchanged, when that value is not
    [undefined], [null] or the empty string (a whitespace-only string
    counts); else the [defaultValue] of the first rule of the field that
    carries a default; else the field is left out.  The input's value
    for a field is its own property, or else the member of the name
    that it inherits from its prototype: a field that a plain object has
    no own property for has a value exactly when it is named like a
    member of [Object.prototype]. *)
Theorem sanitize_fields :
  forall (W : Type) (rules : RuleMap W) (input : Value) (f : string),
    has "__proto__" rules = false ->
    lookup f (sanitize input rules)
    = match lookup f rules with
      | None => None
      | Some fieldRules =>
          if filled (read (object_or_empty input) f)
          then Some (read (object_or_empty input) f)
          else option_map entry_defaultValue
                 (find entry_isDefault (ruleArray fieldRules))
      end
    /\ (forall o : Obj Value,
          lookup f o = None ->
          filled (read (VObj o) f) = in_chain KObject f).
Proof.
  intros W rules input f Hproto. split.
  - apply sanitize_lookup, Hproto.
  - intros o. apply absent_filled.
Qed.

(** C3, witness: [schema({ f: default_value('d') }).pick({})]. *)
Lemma sanitize_fields_witness :
  lookup "f" (sanitize (VObj []) f_default) = Some (VStr "d").
Proof.
  destruct (sanitize_fields unit f_default (VObj []) "f" eq_refl) as [H _].
  rewrite H. reflexivity.
Defined.

(** C3, the claim as stated, fails.  With [{ f: default_value('d') }]
    the whitespace-only input value is copied through; the default is
    not substituted.  And [pick({})] does not yield the default of every
    default-carrying field: for a field named [toString] it copies the
    function that [{}] inherits. *)
Lemma pick_keeps_blank :
  pick (schema 0) blank_f [f_default] = [("f", VStr " ")]
  /\ pick (schema 0) blank_f [f_default] <> [("f", VStr "d")]
  /\ pick (schema 0) (VObj []) [toString_default]
     = [("toString", VBuiltin (BFunction KObject "toString"))].
Proof.
  split; [reflexivity|]. split; [discriminate|reflexivity].
Qed.

End ValidationClaims.
(* ================================================================== *)
(** ** Claims on schemas *)
(* ================================================================== *)

Section SchemaFacts.

Import Errors Rules ValidationHelper Examples.

Context {W : Type}.

(** The store only grows: no use of a schema writes to a rule map that
    is there already. *)
Lemma use_frame (op : Op W) (s : Schema) (st : Store W) (w : W) :
  length st <= length (snd (fst (use op s st w)))
  /\ forall r, r < length st ->
       deref (snd (fst (use op s st w))) r = deref st r.
Proof.
  destruct op as [input|input|extra]; simpl; try (split; [lia|reflexivity]).
  unfold extend, alloc. simpl. split.
  - rewrite length_app. simpl. lia.
  - intros r Hr. unfold deref. apply app_nth1, Hr.
Qed.

Lemma use_all_frame (ops : list (Op W)) (s : Schema) (st : Store W) (w : W) :
  length st <= length (snd (fst (use_all ops s st w)))
  /\ forall r, r < length st ->
       deref (snd (fst (use_all ops s st w))) r = deref st r.
Proof.
  revert s st w. induction ops as [|op ops IH]; intros s st w; simpl.
  - split; [lia|reflexivity].
  - destruct (use_frame op s st w) as [Hlen Hsame].
    destruct (use op s st w) as [[s1 st1] w1]. simpl in Hlen, Hsame.
    destruct (IH s1 st1 w1) as [Hlen' Hsame']. split; [lia|].
    intros r Hr. rewrite Hsame' by lia. apply Hsame, Hr.
Qed.

End SchemaFacts.

Section SchemaClaims.

Import Errors Rules ValidationHelper Examples.



End SchemaClaims.

(* ================================================================== *)
(** ** The response *)
(* ================================================================== *)

Section ResponseFacts.

Import Errors Http StatusConditions.

Lemma ToInt32_small (n : Z) :
  (-2147483648 <= n < 2147483648)%Z -> ToInt32 n = n.
Proof.
  intros Hn. unfold ToInt32. rewrite Z.mod_small by lia. lia.
Qed.

(** A legal status code is kept as it is, and the response goes out. *)
Lemma json_sends (b : Envelope) (res : Response) (n : Z) :
  headersSent res = false ->
  statusCode res = VNum n ->
  (100 <= n <= 999)%Z ->
  json b res
  = (Normal tt,
     mkResponse (VNum n) true (if bodyless (VNum n) then None else Some b)).
Proof.
  intros Hsent Hcode Hn. unfold json. rewrite Hsent, Hcode.
  cbn [status_int]. rewrite ToInt32_small by lia.
  destruct (Z.ltb_spec n 100); [lia|].
  destruct (Z.ltb_spec 999 n); [lia|]. reflexivity.
Qed.

(** A status code that Node refuses: nothing goes out. *)
Lemma json_refuses (b : Envelope) (res : Response) (n : Z) :
  headersSent res = false ->
  statusCode res = VNum n ->
  (-2147483648 <= n < 100 \/ 999 < n < 2147483648)%Z ->
  json b res = (Abrupt (ERR_HTTP_INVALID_STATUS_CODE (VNum n)), res).
Proof.
  intros Hsent Hcode Hn. unfold json. rewrite Hsent, Hcode.
  cbn [status_int]. rewrite ToInt32_small by lia.
  destruct (Z.ltb_spec n 100); [reflexivity|].
  destruct (Z.ltb_spec 999 n); [reflexivity|lia].
Qed.

Lemma carries_body_range (n : Z) :
  carries_body n = true ->
  (100 <= n <= 999)%Z /\ bodyless (VNum n) = false.
Proof.
  unfold carries_body, bodyless. cbn [status_int]. intros H.
  apply andb_true_iff in H as [H H304].
  apply andb_true_iff in H as [H H205].
  apply andb_true_iff in H as [H H204].
  apply andb_true_iff in H as [Hlo Hhi].
  apply Z.leb_le in Hlo, Hhi.
  apply negb_true_iff in H204, H205, H304.
  split; [lia|]. rewrite ToInt32_small by lia.
  rewrite H204, H205, H304.
  destruct (Z.ltb_spec n 200); [lia|reflexivity].
Qed.

(** [AppResponse] with a status code that carries a body. *)
Lemma AppResponse_sends (res : Response) (n : Z) (success : bool)
  (data message error : Value) :
  headersSent res = false ->
  carries_body n = true ->
  AppResponse res (VNum n) success data message error
  = (Normal tt,
     mkResponse (VNum n) true
       (Some (mkEnvelope success message data error))).
Proof.
  intros Hsent Hn. destruct (carries_body_range n Hn) as [Hrange Hbody].
  unfold AppResponse.
  rewrite (json_sends _ (status (VNum n) res) n Hsent eq_refl Hrange).
  rewrite Hbody. reflexivity.
Qed.

End ResponseFacts.

(* ================================================================== *)
(** ** The error-handler registry *)
(* ================================================================== *)

Section RegistryFacts.

Import Errors Http ErrorMiddleware.

Implicit Types (handlers pre post : Registry) (h : ErrorHandler)
  (e : Thrown) (req : Request) (res : Response).

(** Handlers that decline are passed over. *)
Lemma registry_handle_skips pre post e req res :
  (forall h, In h pre -> canHandle h e = Normal false) ->
  registry_handle (pre ++ post) e req res = registry_handle post e req res.
Proof.
  induction pre as [|h pre IH]; intros Hpre; simpl; [reflexivity|].
  rewrite (Hpre h) by (left; reflexivity).
  apply IH. intros h' Hin. apply Hpre. right. exact Hin.
Qed.

(** The first handler that accepts is the one invoked, on the response
    as it arrived, and nothing after it is asked. *)
Lemma registry_handle_first_match pre h post e req res res' :
  (forall h', In h' pre -> canHandle h' e = Normal false) ->
  canHandle h e = Normal true ->
  handle h e req res = (Normal tt, res') ->
  registry_handle (pre ++ h :: post) e req res = (Normal true, res').
Proof.
  intros Hpre Hcan Hhandle. rewrite registry_handle_skips by exact Hpre.
  simpl. rewrite Hcan, Hhandle. reflexivity.
Qed.

(** When every handler declines, nothing is invoked. *)
Lemma registry_handle_no_match handlers e req res :
  (forall h, In h handlers -> canHandle h e = Normal false) ->
  registry_handle handlers e req res = (Normal false, res).
Proof.
  intros Hall. rewrite <- (app_nil_r handlers).
  rewrite registry_handle_skips by exact Hall. reflexivity.
Qed.

(** [false] is returned only when every handler declined. *)
Lemma registry_handle_false handlers e req res res' :
  registry_handle handlers e req res = (Normal false, res') ->
  forall h, In h handlers -> canHandle h e = Normal false.
Proof.
  induction handlers as [|h0 handlers IH]; simpl; [contradiction|].
  destruct (canHandle h0 e) as [[|]|x] eqn:Hcan.
  - destruct (handle h0 e req res) as [[u|x] r]; discriminate.
  - intros H h [<-|Hin]; [exact Hcan|]. apply IH; assumption.
  - discriminate.
Qed.

(** What [createErrorMiddleware] leaves in the registry. *)
Lemma createErrorMiddleware_registry (config : ErrorMiddlewareConfig)
  handlers :
  fst (createErrorMiddleware config handlers)
  = handlers
    ++ (if or_default (useDefaultHandlers config) true
        then defaultHandlers else [])
    ++ or_default (customHandlers config) [].
Proof.
  unfold createErrorMiddleware, registerMany. simpl.
  destruct (or_default (useDefaultHandlers config) true);
    destruct (or_default (customHandlers config) []) as [|c cs]; simpl;
    rewrite ?app_nil_r, <- ?app_assoc; reflexivity.
Qed.

(** With the default handlers in front, every error whose [type] can be
    read is handled, as long as the response has not gone out and the
    error is no [AppException] with a status code outside 100..999. *)
Lemma default_handlers_handle post e req res :
  (exists t, get_thrown e "type" = Normal t) ->
  (forall x, e = EAppException x -> (100 <= Errors.statusCode x <= 999)%Z) ->
  headersSent res = false ->
  exists res', registry_handle (defaultHandlers ++ post) e req res
               = (Normal true, res').
Proof.
  intros [t Ht] Hcode Hsent.
  destruct e as [v|x|v]; cbn [app defaultHandlers registry_handle canHandle
    handle validationHandler appExceptionHandler parseErrorHandler
    genericHandler instanceof_Validation instanceof_AppException bind].
  - cbn [get_thrown]. cbn [String.eqb Ascii.eqb Bool.eqb].
    rewrite (AppResponse_sends res 400 _ _ _ _ Hsent eq_refl). eauto.
  - cbn [get_thrown]. cbn [String.eqb Ascii.eqb Bool.eqb].
    unfold AppResponse.
    rewrite (json_sends _ (status (VNum (Errors.statusCode x)) res)
               (Errors.statusCode x) Hsent eq_refl (Hcode x eq_refl)).
    eauto.
  - cbn [get_thrown] in Ht |- *. rewrite Ht. cbn [bind].
    unfold get in Ht |- *.
    destruct (nullish v) eqn:Hn; [discriminate|].
    destruct (is_string t "entity.parse.failed").
    + rewrite (AppResponse_sends res 400 _ _ _ _ Hsent eq_refl). eauto.
    + unfold get_thrown_opt. cbn [get_thrown]. unfold get. rewrite Hn.
      rewrite (AppResponse_sends res 500 _ _ _ _ Hsent eq_refl). eauto.
Qed.

End RegistryFacts.

Section ErrorPipelineClaims.

Import Errors Rules ValidationHelper Http ErrorMiddleware RouterBuilder
       Examples.

(** C4, as amended.  When [schema.check] throws its validation in a
    route handler and the response has not gone out, the pipeline with
    the default handlers in front answers with status 400, and the
    [error] of the envelope is the list of the validation's messages, in
    order, each with its [code], [message] and [field]. *)
Theorem validation_failure_answers_400 :
  forall (W : Type) (st : Store W) (s : Schema) (w w' : W)
         (input_of : Request -> Value) (validation : Validation.t)
         (later : Registry) (exposeStackTrace : bool) (rest : Handler)
         (req : Request) (res : Response),
    check s (input_of req) st w = (Abrupt (EValidation validation), w') ->
    headersSent res = false ->
    dispatch (defaultHandlers ++ later) exposeStackTrace
      (checking_handler s st w input_of rest) req res
    = (Normal tt,
       mkResponse (VNum 400) true
         (Some (mkEnvelope false (VStr "Erro de validação") VNull
                  (VArr (map Validation.value_of_message
                           (Validation.messages validation)))))).
Proof.
  intros W st s w w' input_of validation later expose rest req res Hcheck
    Hsent.
  unfold dispatch, wrappedHandler, checking_handler. rewrite Hcheck.
  cbn [is_error_signal]. unfold middleware, defaultHandlers.
  cbn [app registry_handle canHandle handle validationHandler
       instanceof_Validation get_thrown String.eqb Ascii.eqb Bool.eqb].
  rewrite (AppResponse_sends res 400 _ _ _ _ Hsent eq_refl). reflexivity.
Qed.

(** C4, witness: a handler that calls
    [schema({ name: [required()] }).check({})], with the registry as the
    module leaves it. *)
Lemma validation_failure_answers_400_witness :
  dispatch loaded_registry false checks_name a_request fresh
  = (Normal tt,
     mkResponse (VNum 400) true
       (Some (mkEnvelope false (VStr "Erro de validação") VNull
                (VArr [VObj [("code", VStr "ERR_UNKNOWN");
                             ("message", VStr "Campo obrigatório");
                             ("field", VNull)]])))).
Proof.
  exact (validation_failure_answers_400 unit [name_required] (schema 0) tt tt
           (fun _ => VObj [])
           (Validation.mk
              [Validation.mkMessage "ERR_UNKNOWN" "Campo obrigatório" None])
           [] false returns_nothing a_request fresh
           eq_refl eq_refl).
Defined.

(** C4, the claim as stated, fails.  For the missing required field
    [name] the [error] of the envelope is an array of message objects:
    it is not the mapping [{ name: '<required message>' }] and has no
    [name] entry. *)
Lemma validation_payload_is_not_a_field_mapping :
  exists payload,
    option_map error
      (body (snd (dispatch loaded_registry false checks_name a_request fresh)))
    = Some payload
    /\ payload <> VObj [("name", VStr "Campo obrigatório")]
    /\ read payload "name" = VUndefined.
Proof.
  eexists. split; [reflexivity|]. split; [discriminate|reflexivity].
Qed.

(** C5, the code at the failing input.  [createErrorMiddleware] with the
    default handlers enabled and the project handler [teapot], which
    takes every error, leaves the default handlers in front of it, on
    the empty registry as on the registry the module has filled when it
    is loaded; an error both can handle gets the generic default
    handler's 500, not the project handler's 418. *)
Lemma custom_handlers_come_after_defaults :
  let handlers :=
    fst (createErrorMiddleware (mkConfig (Some true) (Some [teapot]) None) [])
  in
  handlers = defaultHandlers ++ [teapot]
  /\ fst (createErrorMiddleware (mkConfig (Some true) (Some [teapot]) None)
            loaded_registry)
     = defaultHandlers ++ defaultHandlers ++ [teapot]
  /\ canHandle teapot boom = Normal true
  /\ canHandle genericHandler boom = Normal true
  /\ middleware false handlers boom a_request fresh
     = (Normal tt,
        mkResponse (VNum 500) true
          (Some (mkEnvelope false (VStr "Erro interno do servidor") VNull
                   (VStr "boom"))))
  /\ handle teapot boom a_request fresh
     = (Normal tt,
        mkResponse (VNum 418) true
          (Some (mkEnvelope false (VStr "teapot") VNull VNull))).
Proof.
  repeat split; reflexivity.
Qed.

(** C9, the code at the failing input.  With the default handlers
    registered, [handle(null, req, res)] does not return: the handler
    for JSON parse errors reads [error.type], which throws on [null],
    before the generic handler is reached; no response is sent. *)
Lemma default_handlers_throw_on_null :
  registry_handle defaultHandlers (EValue VNull) a_request fresh
  = (Abrupt (TypeError VNull "type"), fresh)
  /\ registry_handle defaultHandlers (EValue VUndefined) a_request fresh
     = (Abrupt (TypeError VUndefined "type"), fresh)
  /\ canHandle genericHandler (EValue VNull) = Normal true.
Proof.
  repeat split; reflexivity.
Qed.

End ErrorPipelineClaims.

(* ================================================================== *)
(** ** The service wrapper *)
(* ================================================================== *)

Section ServiceFacts.

Import Errors BaseService Examples.

(** [createProxy] changes the values of the configuration fields, not
    the members the instance has. *)
Lemma reflect_get_createProxy (config : ServiceConfig) (this : Instance)
  (prop : string) (m : Method) :
  reflect_get this prop = Function m ->
  reflect_get (target (createProxy config this)) prop = Function m.
Proof.
  unfold reflect_get, own_property, createProxy, apply_config. simpl.
  destruct config as [[b|] [t|] [c|]]; try destruct t; simpl;
    destruct (String.eqb prop "throwOnError"); try discriminate;
    destruct (String.eqb prop "transaction"); try discriminate;
    destruct (String.eqb prop "context"); try discriminate;
    intros H; exact H.
Qed.

(** [silent()] leaves the original as it is and turns the flag of the
    view off. *)
Lemma silent_flag (this : Instance) :
  throwOnError (state (target (silent this))) = false.
Proof. reflexivity. Qed.

(** A call of a public method on a view goes through the wrapper. *)
Lemma call_view_public (p : Proxy) (prop : string) (m : Method)
  (args : list Value) :
  reflect_get (target p) prop = Function m ->
  startsWith_underscore prop = false ->
  call_view p prop args
  = (fst (wrapped m (target p) args), mkProxy (snd (wrapped m (target p) args))).
Proof.
  intros Hget Hpub. unfold call_view, proxy_get. rewrite Hget, Hpub.
  destruct (wrapped m (target p) args). reflexivity.
Qed.

(** The wrapper on a method that throws, and on one whose promise
    rejects: the flag of the target decides. *)
Lemma wrapped_throws (m : Method) (t : Instance) (args : list Value)
  (e : Thrown) (s' : State) :
  m (state t) args = (Abrupt e, s') ->
  fst (wrapped m t args)
  = if throwOnError s' then Abrupt e else Normal (Plain VNull).
Proof.
  intros Hm. unfold wrapped. rewrite Hm.
  destruct (throwOnError s'); reflexivity.
Qed.

Lemma wrapped_rejects (m : Method) (t : Instance) (args : list Value)
  (e : Thrown) (s' : State) :
  m (state t) args = (Normal (Awaitable (Rejected e)), s') ->
  fst (wrapped m t args)
  = Normal (Awaitable (if throwOnError s' then Rejected e
                       else Fulfilled VNull)).
Proof.
  intros Hm. unfold wrapped. rewrite Hm. simpl.
  destruct (throwOnError s'); reflexivity.
Qed.

End ServiceFacts.

Section ServiceClaims.

Import Errors BaseService Examples.

(** C6, as amended.  Let [prop] name a public method [m] of a service
    instance [this].  On the view [this.silent()], whose flag
    [throwOnError] is false: when [m] throws and the flag is still off
    once it has, the call returns [null]; when [m] returns a promise
    that rejects, the flag being off, the call returns a promise
    fulfilled with [null].  On [this] itself the same call throws, or
    returns the rejected promise.  On any view whose flag is on when the
    error is caught, the error propagates unchanged. *)
Theorem silent_view_swallows_errors :
  forall (this : Instance) (prop : string) (m : Method) (args : list Value),
    reflect_get this prop = Function m ->
    startsWith_underscore prop = false ->
    throwOnError (state (target (silent this))) = false
    /\ (forall e s',
          m (state (target (silent this))) args = (Abrupt e, s') ->
          throwOnError s' = false ->
          fst (call_view (silent this) prop args) = Normal (Plain VNull))
    /\ (forall e s',
          m (state (target (silent this))) args
          = (Normal (Awaitable (Rejected e)), s') ->
          throwOnError s' = false ->
          fst (call_view (silent this) prop args)
          = Normal (Awaitable (Fulfilled VNull)))
    /\ (forall e s',
          m (state this) args = (Abrupt e, s') ->
          fst (call_direct this prop args) = Abrupt e)
    /\ (forall e s',
          m (state this) args = (Normal (Awaitable (Rejected e)), s') ->
          fst (call_direct this prop args) = Normal (Awaitable (Rejected e)))
    /\ (forall (view : Proxy) e s',
          reflect_get (target view) prop = Function m ->
          m (state (target view)) args = (Abrupt e, s') ->
          throwOnError s' = true ->
          fst (call_view view prop args) = Abrupt e)
    /\ (forall (view : Proxy) e s',
          reflect_get (target view) prop = Function m ->
          m (state (target view)) args
          = (Normal (Awaitable (Rejected e)), s') ->
          throwOnError s' = true ->
          fst (call_view view prop args) = Normal (Awaitable (Rejected e))).
Proof.
  intros this prop m args Hget Hpub.
  pose proof (reflect_get_createProxy
                (mkServiceConfig (Some false) None None) this prop m Hget)
    as Hview.
  fold (silent this) in Hview.
  split; [apply silent_flag|].
  split; [|split; [|split; [|split; [|split]]]].
  - intros e s' Hm Hflag.
    rewrite (call_view_public (silent this) prop m args Hview Hpub).
    cbn [fst]. rewrite (wrapped_throws _ _ _ _ _ Hm), Hflag. reflexivity.
  - intros e s' Hm Hflag.
    rewrite (call_view_public (silent this) prop m args Hview Hpub).
    cbn [fst]. rewrite (wrapped_rejects _ _ _ _ _ Hm), Hflag. reflexivity.
  - intros e s' Hm. unfold call_direct. rewrite Hget, Hm. reflexivity.
  - intros e s' Hm. unfold call_direct. rewrite Hget, Hm. reflexivity.
  - intros view e s' Hv Hm Hflag.
    rewrite (call_view_public view prop m args Hv Hpub).
    cbn [fst]. rewrite (wrapped_throws _ _ _ _ _ Hm), Hflag. reflexivity.
  - intros view e s' Hv Hm Hflag.
    rewrite (call_view_public view prop m args Hv Hpub).
    cbn [fst]. rewrite (wrapped_rejects _ _ _ _ _ Hm), Hflag. reflexivity.
Qed.

(** C6, witness: a service with a method [fails] that throws and a
    method [rejects] that returns a rejected promise. *)
Lemma silent_view_swallows_errors_witness :
  fst (call_view (silent a_service) "fails" []) = Normal (Plain VNull)
  /\ fst (call_direct a_service "fails" []) = Abrupt boom
  /\ fst (call_view (silent a_service) "rejects" [])
     = Normal (Awaitable (Fulfilled VNull))
  /\ fst (call_view (withContext [] a_service) "fails" []) = Abrupt boom.
Proof.
  pose proof (silent_view_swallows_errors a_service "fails" fails []
                eq_refl eq_refl) as [_ [Hsync [_ [Hdirect [_ [Hon _]]]]]].
  pose proof (silent_view_swallows_errors a_service "rejects" rejects []
                eq_refl eq_refl) as [_ [_ [Hasync _]]].
  split; [exact (Hsync boom _ eq_refl eq_refl)|].
  split; [exact (Hdirect boom _ eq_refl)|].
  split; [exact (Hasync boom _ eq_refl eq_refl)|].
  exact (Hon (withContext [] a_service) boom _ eq_refl eq_refl eq_refl).
Defined.

(** C6, the claim as stated, fails.  The wrapper reads the flag of the
    target when it catches the error, not when the view is made: a
    public method that runs [this.configure({ throwOnError: true })] and
    then throws has its error propagated by the silent view. *)
Lemma silent_view_rethrows_when_flag_is_turned_on :
  reflect_get c_service "reopens" = Function reopens
  /\ startsWith_underscore "reopens" = false
  /\ throwOnError (state (target (silent c_service))) = false
  /\ reopens (state (target (silent c_service))) []
     = (Abrupt boom,
        state (configure (mkServiceConfig (Some true) None None)
                 (target (silent c_service))))
  /\ fst (call_view (silent c_service) "reopens" []) = Abrupt boom.
Proof.
  repeat split; reflexivity.
Qed.

End ServiceClaims.

(* ================================================================== *)
(** ** The request dispatcher *)
(* ================================================================== *)

Section DispatcherClaims.

Import Errors Http ErrorMiddleware RouterBuilder StatusConditions Examples.

(** C7, as amended.  When the handler returns without the response
    having gone out: for an [ApiResponse] whose status code carries a
    body (200 to 999, but 204, 205 and 304) the wrapper sends the
    envelope [{success: true, message: <its message or null>,
    data: <its data>, error: null}] at that status code; at 204 and 304
    the response goes out at that status code without a body.  For any
    other value [v] that is not [undefined] it sends
    [{success: true, message: null, data: v, error: null}] at the status
    code the response has at that point, when that one carries a body:
    200 unless the handler or a middleware has set another.  In these
    cases [next] is not called.  For an [ApiResponse] whose status code
    is no HTTP status (below 100 or above 999) nothing goes out, and
    the error that is raised is passed to [next]. *)
Theorem wrappedHandler_sends_envelope :
  forall (handler : Handler) (req : Request) (res res1 : Response)
         (result : HandlerValue),
    handler req res = (Normal result, res1) ->
    headersSent res1 = false ->
    (forall r, result = IsApiResponse r ->
       carries_body (api_statusCode r) = true ->
       wrappedHandler handler req res
       = (mkResponse (VNum (api_statusCode r)) true
            (Some (mkEnvelope true (message_or_null (api_message r))
                     (api_data r) VNull)),
          NotCalled))
    /\ (forall r, result = IsApiResponse r ->
          api_statusCode r = 204%Z \/ api_statusCode r = 304%Z ->
          wrappedHandler handler req res
          = (mkResponse (VNum (api_statusCode r)) true None, NotCalled))
    /\ (forall v n, result = Other v -> v <> VUndefined ->
          statusCode res1 = VNum n ->
          carries_body n = true ->
          wrappedHandler handler req res
          = (mkResponse (VNum n) true
               (Some (mkEnvelope true VNull v VNull)),
             NotCalled))
    /\ (forall v, result = Other v -> v <> VUndefined ->
          statusCode res1 = VNum 200 ->
          wrappedHandler handler req res
          = (mkResponse (VNum 200) true
               (Some (mkEnvelope true VNull v VNull)),
             NotCalled))
    /\ (forall r, result = IsApiResponse r ->
          (-2147483648 <= api_statusCode r < 100
           \/ 999 < api_statusCode r < 2147483648)%Z ->
          exists error res2,
            wrappedHandler handler req res = (res2, Called error)
            /\ headersSent res2 = false
            /\ body res2 = body res1).
Proof.
  intros handler req res res1 result Hh Hsent.
  assert (Hother : forall v n, result = Other v -> v <> VUndefined ->
            statusCode res1 = VNum n ->
            carries_body n = true ->
            wrappedHandler handler req res
            = (mkResponse (VNum n) true
                 (Some (mkEnvelope true VNull v VNull)),
               NotCalled)).
  { intros v n -> Hv Hcode Hn.
    destruct (carries_body_range n Hn) as [Hrange Hbody].
    unfold wrappedHandler. rewrite Hh, Hsent.
    rewrite (json_sends _ res1 n Hsent Hcode Hrange), Hbody.
    destruct v; try reflexivity. congruence. }
  split; [|split; [|split; [|split]]].
  - intros r -> Hn. destruct (carries_body_range _ Hn) as [Hrange Hbody].
    unfold wrappedHandler. rewrite Hh, Hsent.
    rewrite (json_sends _ (status (VNum (api_statusCode r)) res1)
               (api_statusCode r) Hsent eq_refl Hrange), Hbody.
    reflexivity.
  - intros r -> Hn. unfold wrappedHandler. rewrite Hh, Hsent.
    rewrite (json_sends _ (status (VNum (api_statusCode r)) res1)
               (api_statusCode r) Hsent eq_refl) by lia.
    destruct Hn as [-> | ->]; reflexivity.
  - exact Hother.
  - intros v Hr Hv H200. apply (Hother v 200%Z Hr Hv H200). reflexivity.
  - intros r -> Hn. unfold wrappedHandler. rewrite Hh, Hsent.
    rewrite (json_refuses _ (status (VNum (api_statusCode r)) res1)
               (api_statusCode r) Hsent eq_refl Hn).
    eexists. eexists. split; [reflexivity|].
    split; [exact Hsent|reflexivity].
Qed.

(** C7, witness: [GET /ping] returning [{ pong: true }], a handler
    returning [created(...)], and one returning [noContent()]. *)
Lemma wrappedHandler_sends_envelope_witness :
  wrappedHandler ping a_request fresh
  = (mkResponse (VNum 200) true (Some (mkEnvelope true VNull pong VNull)),
     NotCalled)
  /\ wrappedHandler
       (fun _ res => (Normal (IsApiResponse (created pong (Some "made"))), res))
       a_request fresh
     = (mkResponse (VNum 201) true
          (Some (mkEnvelope true (VStr "made") pong VNull)),
        NotCalled)
  /\ wrappedHandler
       (fun _ res => (Normal (IsApiResponse noContent), res)) a_request fresh
     = (mkResponse (VNum 204) true None, NotCalled).
Proof.
  pose proof (wrappedHandler_sends_envelope ping a_request fresh fresh
                (Other pong) eq_refl eq_refl) as [_ [_ [_ [Hplain _]]]].
  pose proof (wrappedHandler_sends_envelope
                (fun _ res =>
                   (Normal (IsApiResponse (created pong (Some "made"))), res))
                a_request fresh fresh
                (IsApiResponse (created pong (Some "made"))) eq_refl eq_refl)
    as [Hapi _].
  pose proof (wrappedHandler_sends_envelope
                (fun _ res => (Normal (IsApiResponse noContent), res))
                a_request fresh fresh
                (IsApiResponse noContent) eq_refl eq_refl)
    as [_ [Hempty _]].
  split; [|split].
  - apply (Hplain pong eq_refl); [discriminate|reflexivity].
  - exact (Hapi _ eq_refl eq_refl).
  - exact (Hempty _ eq_refl (or_introl eq_refl)).
Defined.

(** C7, the claim as stated, fails.  A handler that runs
    [res.status(404)] and returns [{ pong: true }] gets the envelope
    sent at 404, not at 200; and for [noContent()], the [ApiResponse]
    with status code 204, no envelope is emitted. *)
Lemma plain_value_keeps_status :
  status_then_return a_request fresh
  = (Normal (Other pong), mkResponse (VNum 404) false None)
  /\ wrappedHandler status_then_return a_request fresh
     = (mkResponse (VNum 404) true (Some (mkEnvelope true VNull pong VNull)),
        NotCalled)
  /\ statusCode (fst (wrappedHandler status_then_return a_request fresh))
     <> VNum 200
  /\ body (fst (wrappedHandler
                  (fun _ res => (Normal (IsApiResponse noContent), res))
                  a_request fresh))
     = None.
Proof.
  repeat split; try reflexivity. discriminate.
Qed.

(** C10.  When the handler returns [undefined] without the response
    having gone out, the wrapper sends nothing and does not call
    [next]: the response is left as the handler left it, not sent, and
    the error middleware is not reached. *)
Theorem undefined_result_sends_nothing :
  forall (handler : Handler) (req : Request) (res res1 : Response)
         (handlers : Registry) (exposeStackTrace : bool),
    handler req res = (Normal (Other VUndefined), res1) ->
    headersSent res1 = false ->
    wrappedHandler handler req res = (res1, NotCalled)
    /\ dispatch handlers exposeStackTrace handler req res = (Normal tt, res1)
    /\ headersSent (snd (dispatch handlers exposeStackTrace handler req res))
       = false.
Proof.
  intros handler req res res1 handlers expose Hh Hsent.
  assert (Hw : wrappedHandler handler req res = (res1, NotCalled)).
  { unfold wrappedHandler. rewrite Hh, Hsent. reflexivity. }
  split; [exact Hw|].
  unfold dispatch. rewrite Hw. split; [reflexivity|exact Hsent].
Qed.

(** C10, witness: a handler that returns nothing. *)
Lemma undefined_result_sends_nothing_witness :
  wrappedHandler returns_nothing a_request fresh = (fresh, NotCalled)
  /\ dispatch loaded_registry false returns_nothing a_request fresh
     = (Normal tt, fresh)
  /\ headersSent
       (snd (dispatch loaded_registry false returns_nothing a_request fresh))
     = false.
Proof.
  exact (undefined_result_sends_nothing returns_nothing a_request fresh fresh
           loaded_registry false eq_refl eq_refl).
Defined.

End DispatcherClaims.

(* ================================================================== *)
(** ** Further properties: the rules *)
(* ================================================================== *)

Section MoreRuleFacts.

Import Errors Helper Rules ValidationHelper MoreRules Conditions.

Context {W : Type}.

(** The loop of [optionalBut] goes on after the rules that pass. *)
Lemma first_error_app (before rest : list (Rule W)) (value input : Value)
  (w w1 : W) :
  first_error before value input w = (Normal None, w1) ->
  first_error (before ++ rest) value input w = first_error rest value input w1.
Proof.
  revert w. induction before as [|r before IH]; intros w; simpl.
  - intros H. inversion H. reflexivity.
  - destruct (invoke r value input w) as [[error|x] w']; [|discriminate].
    destruct (falsy error) eqn:Hf; simpl.
    + apply IH.
    + intros H. inversion H; subst error. discriminate.
Qed.

Lemma missing_empty (value : Value) :
  missing value = true <-> empty_value value.
Proof.
  unfold missing, empty_value. split.
  - destruct value as [| |b|n|s|l|o|bi]; simpl; auto; try discriminate.
    + destruct b; discriminate.
    + destruct (n =? 0)%Z; discriminate.
    + destruct s; [auto|discriminate].
  - intros [->|[->| ->]]; reflexivity.
Qed.

End MoreRuleFacts.

Section MoreRuleProperties.

Import Errors Helper Rules ValidationHelper MoreRules Conditions Examples
       MoreExamples.

(** X1.  [optionalBut(...rules)] on an empty value ([undefined], [null],
    the empty or a whitespace-only string) returns [null] and calls none
    of its rules.  On any other value it stops at the first rule that
    returns a non-empty message: when the rules [before] a rule [r]
    pass and [r] fails with [e], the result is [e], in the world [r]
    left, and the rules [after] it are not called. *)
Theorem optionalBut_first_failure_only :
  forall (W : Type) (before after : list (Rule W)) (r : Rule W)
         (value input : Value) (w w1 w2 : W) (e : string),
    (isEmpty value = true ->
     call (optionalBut (before ++ r :: after)) value input w
     = (Normal None, w))
    /\ (isEmpty value = false ->
        first_error before value input w = (Normal None, w1) ->
        invoke r value input w1 = (Normal (Some e), w2) ->
        e <> "" ->
        call (optionalBut (before ++ r :: after)) value input w
        = (Normal (Some e), w2)).
Proof.
  intros W before after r value input w w1 w2 e. split.
  - intros Hempty. simpl. rewrite Hempty. reflexivity.
  - intros Hempty Hbefore Hr He. simpl. rewrite Hempty.
    rewrite (first_error_app before (r :: after) value input w w1 Hbefore).
    simpl. rewrite Hr. destruct e; [congruence|reflexivity].
Qed.

(** X1, witness: [optionalBut(optional(), probe('first'), probe('second'))]
    on a blank string and on ['x']: the second probe is never called. *)
Lemma optionalBut_first_failure_only_witness :
  call (optionalBut [optional; probe "first"; probe "second"])
    (VStr "  ") VUndefined 0 = (Normal None, 0)
  /\ call (optionalBut [optional; probe "first"; probe "second"])
       (VStr "x") VUndefined 0 = (Normal (Some "first"), 1).
Proof.
  pose proof (optionalBut_first_failure_only nat [optional] [probe "second"]
                (probe "first") (VStr "  ") VUndefined 0 0 1 "first")
    as [Hblank _].
  pose proof (optionalBut_first_failure_only nat [optional] [probe "second"]
                (probe "first") (VStr "x") VUndefined 0 0 1 "first")
    as [_ Hfirst].
  split.
  - exact (Hblank eq_refl).
  - apply Hfirst; [reflexivity|reflexivity|reflexivity|discriminate].
Defined.

(** X2.  The function [optionalBut] returns carries no [needsContext],
    so [validate] calls it with the value alone: the rules inside it,
    context-aware or not, get [undefined] for the input, and what the
    field reports does not depend on the rest of the input. *)
Theorem optionalBut_hides_input :
  forall (W : Type) (rules : list (Rule W)) (input input' value : Value)
         (acc : Validation.t * W),
    call_rule (optionalBut rules) input value (snd acc)
    = (if isEmpty value then (Normal None, snd acc)
       else first_error rules value VUndefined (snd acc))
    /\ validate_field input value (FMany [RFun (optionalBut rules)]) acc
       = validate_field input' value (FMany [RFun (optionalBut rules)]) acc.
Proof.
  intros W rules input input' value [v w]. split; reflexivity.
Qed.

(** X3.  [requiredIn] is [oneOf] made mandatory: on [undefined], [null]
    and the empty string it fails with its message, even when the value
    is in the list; on every other value the two rules return the same.
    [oneOf] passes the three. *)
Theorem requiredIn_is_mandatory_oneOf :
  forall (W : Type) (allowed : list Prim) (msg : string)
         (value input : Value) (w : W),
    (empty_value value ->
     call (requiredIn allowed msg) value input w = (Normal (Some msg), w)
     /\ call (oneOf allowed msg) value input w = (Normal None, w))
    /\ (~ empty_value value ->
        call (requiredIn allowed msg) value input w
        = call (oneOf allowed msg) value input w)
    /\ (~ empty_value value ->
        call (oneOf allowed msg) value input w
        = (Normal (if includes allowed value then None else Some msg), w)).
Proof.
  intros W allowed msg value input w. split; [|split].
  - intros Hv. split.
    + simpl. unfold pure_fn.
      apply missing_empty in Hv. rewrite Hv. reflexivity.
    + destruct Hv as [->|[->| ->]]; reflexivity.
  - intros Hv. simpl. unfold pure_fn.
    destruct (missing value) eqn:Hm.
    + apply missing_empty in Hm. contradiction.
    + destruct value as [| |b|n|s|l|o|bi]; try reflexivity;
        try (exfalso; apply Hv; unfold empty_value; auto; fail).
      destruct s; [exfalso; apply Hv; unfold empty_value; auto|reflexivity].
  - intros Hv. simpl. unfold pure_fn.
    destruct value as [| |b|n|s|l|o|bi];
      try (exfalso; apply Hv; unfold empty_value; auto; fail);
      try (destruct (includes allowed _); reflexivity).
    destruct s; [exfalso; apply Hv; unfold empty_value; auto|].
    destruct (includes allowed _); reflexivity.
Qed.

(** X3, witness: the allowed values ['', 'a'] and the inputs [''], ['a']
    and ['b']. *)
Lemma requiredIn_is_mandatory_oneOf_witness :
  call (requiredIn [PStr ""; PStr "a"] "no") (VStr "") VUndefined tt
  = (Normal (Some "no"), tt)
  /\ call (oneOf [PStr ""; PStr "a"] "no") (VStr "") VUndefined tt
     = (Normal None, tt)
  /\ call (requiredIn [PStr ""; PStr "a"] "no") (VStr "a") VUndefined tt
     = (Normal None, tt)
  /\ call (requiredIn [PStr ""; PStr "a"] "no") (VStr "b") VUndefined tt
     = (Normal (Some "no"), tt).
Proof.
  pose proof (requiredIn_is_mandatory_oneOf unit [PStr ""; PStr "a"] "no"
                (VStr "") VUndefined tt) as [Hempty _].
  pose proof (requiredIn_is_mandatory_oneOf unit [PStr ""; PStr "a"] "no"
                (VStr "a") VUndefined tt) as [_ [Ha Ha']].
  pose proof (requiredIn_is_mandatory_oneOf unit [PStr ""; PStr "a"] "no"
                (VStr "b") VUndefined tt) as [_ [Hb Hb']].
  assert (Hna : ~ empty_value (VStr "a"))
    by (intros [H|[H|H]]; discriminate).
  assert (Hnb : ~ empty_value (VStr "b"))
    by (intros [H|[H|H]]; discriminate).
  destruct (Hempty (or_intror (or_intror eq_refl))) as [H1 H2].
  split; [exact H1|]. split; [exact H2|]. split.
  - rewrite (Ha Hna). exact (Ha' Hna).
  - rewrite (Hb Hnb). exact (Hb' Hnb).
Defined.

(** X4.  The conditional rules fail exactly when their condition holds
    and [required] would fail.  [validate] hands them the whole input;
    [requiredWhen] compares the sibling field read with [input?.[field]],
    [requiredIf] calls its condition first, whatever the value, and
    throws what the condition throws. *)
Theorem conditional_rules_reduce_to_required :
  forall (W : Type) (field msg : string) (expected : Expected)
         (condition : Value -> W -> Result bool * W) (input value : Value)
         (w : W),
    call_rule (requiredWhen field expected msg) input value w
    = (if matches expected (get_opt input field)
       then fst (call_rule (required msg) input value w)
       else Normal None, w)
    /\ call_rule (requiredIf condition msg) input value w
       = match condition input w with
         | (Normal c, w') =>
             (if c then fst (call_rule (required msg) input value w)
              else Normal None, w')
         | (Abrupt e, w') => (Abrupt e, w')
         end.
Proof.
  intros W field msg expected condition input value w. split.
  - unfold call_rule. simpl. unfold pure_fn, matches.
    destruct expected as [p|l]; simpl.
    + destruct (strict_equal (get_opt input field) p); reflexivity.
    + destruct (includes l (get_opt input field)); reflexivity.
  - unfold call_rule. simpl. unfold pure_fn.
    destruct (condition input w) as [[c|e] w']; [|reflexivity].
    destruct c; reflexivity.
Qed.

(** X5.  When no rule of the schema throws on the input, [check] throws
    its validation whenever one rule of one declared field fails on the
    field's value, whatever the other rules and fields return: for
    a rule whose result on the value is the non-empty message [msg] in
    every world, the validation thrown holds an entry with [msg]. *)
Theorem check_throws_when_a_rule_fails :
  forall (W : Type) (st : Store W) (s : Schema) (f : string)
         (fieldRules : FieldRules W) (r : Rule W) (msg : string)
         (input value : Value) (w : W),
    In (f, fieldRules) (deref st (rules s)) ->
    In (RFun r) (ruleArray fieldRules) ->
    is_function input = false ->
    get input f = Normal value ->
    (forall w0, fst (call_rule r input value w0) = Normal (Some msg)) ->
    msg <> "" ->
    returns_on input (deref st (rules s)) ->
    exists validation w',
      check s input st w = (Abrupt (EValidation validation), w')
      /\ exists m, In m (Validation.messages validation)
                   /\ Validation.message m = msg.
Proof.
  intros W st s f fieldRules r msg input value w Hin Hr _ Hget Hfail Hmsg
    Hret.
  assert (Hn : nullish input = false).
  { unfold get in Hget. destruct (nullish input); [discriminate|reflexivity]. }
  destruct (validate_entries_returns input (deref st (rules s))
              Validation.new w Hn Hret) as [v' [w' Hval]].
  destruct (validate_entries_reports r msg f fieldRules input value
              (deref st (rules s)) Validation.new w v' w'
              Hin Hr Hfail Hmsg Hget Hval) as [m [Hm Hmm]].
  assert (Hinvalid : Validation.isValid v' = false).
  { unfold Validation.isValid. destruct (Validation.messages v');
      [contradiction|reflexivity]. }
  exists v', w'. unfold check, validate. rewrite Hval, Hinvalid. simpl.
  split; [reflexivity|]. exists m. split; assumption.
Qed.

(** X5, witness: [{ g: [optional(), requiredWhen('kind', 'x', 'needed')] }]
    checked on [{ kind: 'x' }]. *)
Lemma check_throws_when_a_rule_fails_witness :
  exists validation w',
    check (schema 0) kind_x [g_when_kind] tt
    = (Abrupt (EValidation validation), w')
    /\ exists m, In m (Validation.messages validation)
                 /\ Validation.message m = "needed".
Proof.
  apply check_throws_when_a_rule_fails
    with (f := "g")
         (fieldRules :=
            FMany [RFun optional;
                   RFun (requiredWhen "kind" (One (PStr "x")) "needed")])
         (r := requiredWhen "kind" (One (PStr "x")) "needed")
         (value := VUndefined).
  - simpl. left. reflexivity.
  - simpl. right. left. reflexivity.
  - reflexivity.
  - reflexivity.
  - intros w0. reflexivity.
  - discriminate.
  - intros f fieldRules r value w [Hf|[]] Hr Hget.
    inversion Hf; subst f fieldRules.
    inversion Hget; subst value.
    destruct Hr as [Hr|[Hr|[]]]; inversion Hr; subst r.
    + exists None, w. reflexivity.
    + exists (Some "needed"), w. reflexivity.
Defined.

End MoreRuleProperties.

(* ================================================================== *)
(** ** Further properties: validate, sanitize, makeFieldsOptional *)
(* ================================================================== *)

Section MoreValidationFacts.

Import Errors Helper Rules ValidationHelper MoreRules FieldsOptional
       Conditions.

Context {W : Type}.

Lemma each_rule_context_free (i1 i2 value : Value)
  (rs : list (RuleEntry W)) (acc : Validation.t * W) :
  forallb entry_context_free rs = true ->
  each_rule i1 value rs acc = each_rule i2 value rs acc.
Proof.
  revert acc. induction rs as [|e rs IH]; intros acc Hcf; simpl.
  - reflexivity.
  - simpl in Hcf. apply andb_true_iff in Hcf as [He Hcf].
    assert (Hstep : apply_rule i1 value acc e = apply_rule i2 value acc e).
    { destruct acc as [v w]. destruct e as [r|x]; [|reflexivity].
      unfold apply_rule, call_rule. simpl in He.
      apply negb_true_iff in He. rewrite He. reflexivity. }
    rewrite Hstep.
    destruct (apply_rule i2 value acc e) as [[v1|x] w1]; [|reflexivity].
    apply IH, Hcf.
Qed.

(** What a sequence of rules throws is what one of its rules threw. *)
Lemma each_rule_throws (input value : Value) (rs : list (RuleEntry W))
  (acc : Validation.t * W) (e : Thrown) (w' : W) :
  each_rule input value rs acc = (Abrupt e, w') ->
  exists rule w0,
    In (RFun rule) rs /\ call_rule rule input value w0 = (Abrupt e, w').
Proof.
  revert acc. induction rs as [|entry rs IH]; intros [v w]; simpl.
  - discriminate.
  - destruct entry as [r|x]; simpl.
    + destruct (call_rule r input value w) as [[error|x] w1] eqn:Hr.
      * intros H. destruct (IH _ H) as [rule [w0 [Hin Hcall]]].
        exists rule, w0. split; [right; exact Hin|exact Hcall].
      * intros H. inversion H; subst. exists r, w.
        split; [left; reflexivity|exact Hr].
    + intros H. destruct (IH _ H) as [rule [w0 [Hin Hcall]]].
      exists rule, w0. split; [right; exact Hin|exact Hcall].
Qed.

(** What [validate] throws: the [TypeError] of the first read, on an
    input that is [undefined] or [null], or what a rule threw. *)
Lemma validate_entries_throws (input : Value) (entries : RuleMap W)
  (v : Validation.t) (w : W) (e : Thrown) (w' : W) :
  validate_entries input entries v w = (Abrupt e, w') ->
  (nullish input = true /\ w' = w
   /\ exists f fieldRules rest,
        entries = (f, fieldRules) :: rest /\ e = TypeError input f)
  \/ (exists f fieldRules rule value w0,
        In (f, fieldRules) entries
        /\ In (RFun rule) (ruleArray fieldRules)
        /\ get input f = Normal value
        /\ call_rule rule input value w0 = (Abrupt e, w')).
Proof.
  revert v w. induction entries as [|[k fr] entries IH]; intros v w; simpl.
  - discriminate.
  - unfold get at 1. destruct (nullish input) eqn:Hn.
    + intros H. inversion H; subst. left. repeat split.
      exists k, fr, entries. split; reflexivity.
    + destruct (validate_field input (read input k) fr (v, w))
        as [[v1|x] w1] eqn:Hf.
      * intros H. destruct (IH _ _ H) as [[Hnull _]|Hrule];
          [congruence|].
        destruct Hrule as [f [fieldRules [rule [value [w0 [Hin Hrest]]]]]].
        right. exists f, fieldRules, rule, value, w0.
        split; [right; exact Hin|exact Hrest].
      * intros H. inversion H; subst. right.
        destruct (each_rule_throws input (read input k) (ruleArray fr)
                    (v, w) e w' Hf) as [rule [w0 [Hin Hcall]]].
        exists k, fr, rule, (read input k), w0.
        split; [left; reflexivity|]. split; [exact Hin|].
        split; [apply get_returns, Hn|exact Hcall].
Qed.

End MoreValidationFacts.

Section MoreValidationProperties.

Import Errors Helper Rules ValidationHelper MoreRules FieldsOptional
       Conditions Examples MoreExamples.

(** X6.  What [check] can do: return, when the validation has no
    message; throw the validation, which then has at least one message;
    on an input that is [undefined] or [null] and a rule map that
    declares a field, throw the [TypeError] of reading the first
    declared field, before any rule is called; or throw what one of its
    rules threw on the value of its field.  It throws nothing else. *)
Theorem check_outcomes :
  forall (W : Type) (st : Store W) (s : Schema) (input : Value) (w w' : W)
         (r : Result unit),
    check s input st w = (r, w') ->
    match r with
    | Normal _ =>
        exists v, validate input (deref st (rules s)) w = (Normal v, w')
                  /\ Validation.messages v = []
    | Abrupt e =>
        (exists v,
           e = EValidation v
           /\ validate input (deref st (rules s)) w = (Normal v, w')
           /\ Validation.messages v <> [])
        \/ (nullish input = true /\ w' = w
            /\ exists f fieldRules rest,
                 deref st (rules s) = (f, fieldRules) :: rest
                 /\ e = TypeError input f)
        \/ (exists f fieldRules rule value w0,
              In (f, fieldRules) (deref st (rules s))
              /\ In (RFun rule) (ruleArray fieldRules)
              /\ get input f = Normal value
              /\ call_rule rule input value w0 = (Abrupt e, w'))
    end.
Proof.
  intros W st s input w w' r. unfold check.
  destruct (validate input (deref st (rules s)) w) as [[v|e] w1] eqn:Hval.
  - unfold Validation.isValid.
    destruct (Validation.messages v) as [|m ms] eqn:Hm; simpl;
      intros H; inversion H; subst.
    + exists v. split; [reflexivity|exact Hm].
    + left. exists v. split; [reflexivity|]. split; [reflexivity|].
      rewrite Hm. discriminate.
  - intros H. inversion H; subst. clear H. right.
    apply (validate_entries_throws input (deref st (rules s))
             Validation.new w e w' Hval).
Qed.

(** X6, witness: [schema({ f: required(), g: <a rule that throws> })
    .check({})] throws what the rule of [g] throws. *)
Lemma check_outcomes_witness :
  (exists v,
     boom = EValidation v
     /\ validate (VObj []) (deref [f_required_g_throws] (rules (schema 0))) tt
        = (Normal v, tt)
     /\ Validation.messages v <> [])
  \/ (nullish (VObj []) = true /\ tt = tt
      /\ exists f fieldRules rest,
           deref [f_required_g_throws] (rules (schema 0))
           = (f, fieldRules) :: rest
           /\ boom = TypeError (VObj []) f)
  \/ (exists f fieldRules rule value w0,
        In (f, fieldRules) (deref [f_required_g_throws] (rules (schema 0)))
        /\ In (RFun rule) (ruleArray fieldRules)
        /\ get (VObj []) f = Normal value
        /\ call_rule rule (VObj []) value w0 = (Abrupt boom, tt)).
Proof.
  exact (check_outcomes unit [f_required_g_throws] (schema 0) (VObj []) tt tt
           (Abrupt boom) eq_refl).
Defined.

(** X7.  Fields that the rule map does not declare are never read: when
    no rule of the map is context-aware, two inputs that give the same
    value for every declared field get the same validation, in the same
    world. *)
Theorem validate_ignores_undeclared_fields :
  forall (W : Type) (rules : RuleMap W) (input1 input2 : Value) (w : W),
    context_free rules = true ->
    (forall f, has f rules = true -> get input1 f = get input2 f) ->
    validate input1 rules w = validate input2 rules w.
Proof.
  intros W rules input1 input2 w Hcf Hsame. unfold validate.
  assert (Hin : forall k fr, In (k, fr) rules -> In (k, fr) rules)
    by (intros; assumption).
  revert Hin. generalize Validation.new. revert w.
  generalize rules at 1 3 4 as entries.
  induction entries as [|[k fr] entries IH]; intros w v Hin; simpl.
  - reflexivity.
  - assert (Hk : In (k, fr) rules) by (apply Hin; left; reflexivity).
    rewrite <- (Hsame k (in_has k fr rules Hk)).
    destruct (get input1 k) as [value|e]; [|reflexivity].
    assert (Hfr : forallb entry_context_free (ruleArray fr) = true).
    { unfold context_free in Hcf. rewrite forallb_forall in Hcf.
      apply (Hcf (k, fr) Hk). }
    unfold validate_field.
    rewrite (each_rule_context_free input1 input2 value (ruleArray fr)
               (v, w) Hfr).
    destruct (each_rule input2 value (ruleArray fr) (v, w))
      as [[v1|x] w1]; [|reflexivity].
    apply IH. intros k' fr' H. apply Hin. right. exact H.
Qed.

(** X7, witness: [{ a: [required('A')], b: [optional()] }] on
    [{ a: 'x' }] and on the same with two more fields. *)
Lemma validate_ignores_undeclared_fields_witness :
  validate ab_input ab_rules tt = validate ab_input_more ab_rules tt.
Proof.
  apply validate_ignores_undeclared_fields.
  - reflexivity.
  - intros f Hf. unfold has in Hf. simpl in Hf.
    destruct (String.eqb f "a") eqn:Ha;
      [apply String.eqb_eq in Ha; subst f; reflexivity|].
    destruct (String.eqb f "b") eqn:Hb;
      [apply String.eqb_eq in Hb; subst f; reflexivity|].
    discriminate.
Defined.

(** X8.  For a rule map none of whose fields is named like a member
    that a plain object inherits, [sanitize] is idempotent: sanitizing
    its own result with the same rule map gives that result again,
    whatever the input was. *)
Theorem sanitize_idempotent :
  forall (W : Type) (rules : RuleMap W) (input : Value),
    plain_names rules ->
    sanitize (VObj (sanitize input rules)) rules = sanitize input rules.
Proof.
  intros W rules input Hplain.
  set (input' := object_or_empty input).
  set (res := sanitize input rules).
  assert (Hres : res = fold_left (sanitize_field input' rules) (keys rules) [])
    by reflexivity.
  assert (Hkey : forall k, In k (keys rules) -> in_chain KObject k = false).
  { intros k Hk. apply Hplain. rewrite <- existsb_keys_lookup.
    apply existsb_exists. exists k. split; [exact Hk|apply String.eqb_refl]. }
  assert (Hlook : forall k, In k (keys rules) ->
            lookup k res = sanitized input' (rules_of rules k) k).
  { intros k Hk. rewrite Hres, fold_sanitize_lookup.
    - assert (He : existsb (String.eqb k) (keys rules) = true).
      { apply existsb_exists. exists k. split; [exact Hk|].
        apply String.eqb_refl. }
      rewrite He. simpl.
      destruct (sanitized input' (rules_of rules k) k); reflexivity.
    - destruct (String.eqb_spec k "__proto__") as [->|_]; [|reflexivity].
      specialize (Hkey "__proto__" Hk). discriminate. }
  transitivity (fold_left (sanitize_field (VObj res) rules) (keys rules) []);
    [reflexivity|].
  rewrite Hres at 2. apply fold_sanitize_ext. intros k Hk.
  specialize (Hlook k Hk).
  destruct (read_plain res k (Hkey k Hk)) as [Hread Hjs].
  unfold sanitized at 1. unfold supplied. rewrite Hread, Hjs.
  unfold has. rewrite Hlook. unfold sanitized.
  destruct (supplied input' k) eqn:Hs.
  - unfold supplied in Hs. apply andb_true_iff in Hs as [_ Hs].
    destruct (read input' k) as [| |b|n|str|l|o|bi]; try discriminate;
      try reflexivity.
    destruct str; [discriminate|reflexivity].
  - destruct (find entry_isDefault (ruleArray (rules_of rules k)))
      as [r|]; [|reflexivity].
    destruct (entry_defaultValue r) as [| |b|n|str|l|o|bi]; try reflexivity.
    destruct str; reflexivity.
Qed.

(** X8, witness: [{ f: default_value('d') }] on [{ f: ' ' }]. *)
Lemma sanitize_idempotent_witness :
  sanitize (VObj (sanitize blank_f f_default)) f_default
  = sanitize blank_f f_default.
Proof.
  apply sanitize_idempotent.
  intros k Hk. unfold has in Hk. simpl in Hk.
  destruct (String.eqb k "f") eqn:Hf; [|discriminate].
  apply String.eqb_eq in Hf. subst k. reflexivity.
Defined.

End MoreValidationProperties.

Section FieldsOptionalFacts.

Import Errors Helper Rules ValidationHelper MoreRules FieldsOptional.

Context {W : Type}.

Lemma lookup_map_entries {A B} (g : string -> A -> B) (f : string)
  (o : Obj A) :
  lookup f (map (fun kv => (fst kv, g (fst kv) (snd kv))) o)
  = option_map (g f) (lookup f o).
Proof.
  induction o as [|[k v] o IH]; simpl; [reflexivity|].
  destruct (String.eqb_spec f k) as [->|Hf]; [reflexivity|apply IH].
Qed.

Lemma keys_map_entries {A B} (g : string -> A -> B) (o : Obj A) :
  keys (map (fun kv => (fst kv, g (fst kv) (snd kv))) o) = keys o.
Proof.
  unfold keys. rewrite map_map. reflexivity.
Qed.

(** The fields of [makeFieldsOptional(rules, extras)] are those of
    [rules], each with its rules wrapped. *)
Lemma lookup_makeFieldsOptional (rules : RuleLists W)
  (extras : option (Obj (list (RuleEntry W)))) (f : string) :
  wf rules = true ->
  lookup f (makeFieldsOptional rules extras)
  = option_map (optional_entry extras f) (lookup f rules).
Proof.
  intros Hwf. unfold makeFieldsOptional.
  rewrite lookup_assign_all.
  - rewrite lookup_map_entries.
    destruct (lookup f rules); reflexivity.
  - unfold wf. rewrite keys_map_entries. exact Hwf.
Qed.

Lemma in_makeFieldsOptional (rules : RuleLists W) (k : string)
  (fr : FieldRules W) :
  In (k, fr) (makeFieldsOptional rules None) ->
  exists value, In (k, value) rules /\ fr = FMany [RFun (optionalBut value)].
Proof.
  unfold makeFieldsOptional. intros H.
  apply in_assign_all in H as [[]|H].
  apply in_map_iff in H as [[k' value] [Heq Hin]].
  simpl in Heq. inversion Heq; subst. exists value. split; [exact Hin|].
  reflexivity.
Qed.

Lemma validate_entries_all_optional (input : Value) (entries : RuleMap W)
  (v : Validation.t) (w : W) :
  nullish input = false ->
  (forall k fr, In (k, fr) entries ->
     isEmpty (read input k) = true
     /\ exists rs, fr = FMany [RFun (optionalBut rs)]) ->
  validate_entries input entries v w = (Normal v, w).
Proof.
  intros Hn. induction entries as [|[k fr] entries IH]; intros Hall; simpl.
  - reflexivity.
  - unfold get. rewrite Hn.
    destruct (Hall k fr (or_introl eq_refl)) as [Hempty [rs ->]].
    unfold validate_field. simpl. unfold call_rule. simpl.
    rewrite Hempty. simpl.
    apply IH. intros k' fr' H. apply Hall. right. exact H.
Qed.

End FieldsOptionalFacts.

Section FieldsOptionalProperties.

Import Errors Helper Rules ValidationHelper MoreRules FieldsOptional
       Conditions Examples MoreExamples.

(** X9.  [makeFieldsOptional(rules)] makes every field optional: an
    input (not [null], [undefined] or a function) whose values for the
    declared fields, own or inherited, are all empty, that is
    [undefined], [null], or an empty or whitespace-only string, is
    valid, whatever the rules were, and none of them is called. *)
Theorem makeFieldsOptional_accepts_empty_fields :
  forall (W : Type) (rules : RuleLists W) (input : Value) (w : W),
    nullish input = false ->
    is_function input = false ->
    (forall k, has k rules = true -> isEmpty (read input k) = true) ->
    validate input (makeFieldsOptional rules None) w
    = (Normal Validation.new, w).
Proof.
  intros W rules input w Hn _ Hempty. unfold validate.
  apply validate_entries_all_optional; [exact Hn|].
  intros k fr Hin.
  destruct (in_makeFieldsOptional rules k fr Hin) as [value [Hv ->]].
  split.
  - apply Hempty. apply (in_has k value rules Hv).
  - exists value. reflexivity.
Qed.

(** X9, witness: [{ name: [required(), probe], age: [requiredIn([18, 21])] }]
    made optional, on [{ name: '  ', age: null }]: valid, and the probe
    has not been called. *)
Lemma makeFieldsOptional_accepts_empty_fields_witness :
  validate blank_person (makeFieldsOptional person_rules None) 0
  = (Normal Validation.new, 0).
Proof.
  apply makeFieldsOptional_accepts_empty_fields.
  - reflexivity.
  - reflexivity.
  - intros k Hk. unfold has in Hk. simpl in Hk.
    destruct (String.eqb k "name") eqn:Hname;
      [apply String.eqb_eq in Hname; subst k; reflexivity|].
    destruct (String.eqb k "age") eqn:Hage;
      [apply String.eqb_eq in Hage; subst k; reflexivity|].
    discriminate.
Defined.



End FieldsOptionalProperties.
(* ================================================================== *)
(** ** Further properties: the validation result *)
(* ================================================================== *)

Section MoreResultFacts.

Import Errors Rules ValidationHelper Formatting.

Lemma find_app {A} (p : A -> bool) (l1 l2 : list A) :
  find p (l1 ++ l2)
  = match find p l1 with
    | Some x => Some x
    | None => find p l2
    end.
Proof.
  induction l1 as [|a l1 IH]; simpl; [reflexivity|].
  destruct (p a); [reflexivity|apply IH].
Qed.

Lemma last_for_cons (k : string) (m : Validation.ValidationMessage)
  (ms : list Validation.ValidationMessage) :
  last_for k (m :: ms)
  = match last_for k ms with
    | Some x => Some x
    | None => if String.eqb k (formatted_key m) then Some m else None
    end.
Proof.
  unfold last_for. simpl. rewrite find_app. simpl.
  destruct (find _ (rev ms)); [reflexivity|].
  destruct (String.eqb k (formatted_key m)); reflexivity.
Qed.

(** The loop of [getFormatted]: a key other than [__proto__] holds the
    message filed under it last. *)
Lemma formatted_lookup (ms : list Validation.ValidationMessage)
  (formatted : Obj string) (k : string) :
  String.eqb k "__proto__" = false ->
  lookup k
    (fold_left
       (fun formatted msg =>
          match Validation.field_truthy (Validation.field msg) with
          | Some f => Js.assign f (Validation.message msg) formatted
          | None => Js.assign "_error" (Validation.message msg) formatted
          end) ms formatted)
  = match last_for k ms with
    | Some m => Some (Validation.message m)
    | None => lookup k formatted
    end.
Proof.
  intros Hk. revert formatted.
  induction ms as [|m ms IH]; intros formatted; simpl.
  - reflexivity.
  - rewrite IH, last_for_cons.
    destruct (last_for k ms); [reflexivity|].
    unfold formatted_key.
    destruct (Validation.field_truthy (Validation.field m));
      rewrite (lookup_assign_plain _ _ _ _ Hk);
      match goal with |- context [String.eqb ?a ?b] =>
        destruct (String.eqb a b); reflexivity end.
Qed.

(** The loop of [getFormatted] creates no key [__proto__]: assigning to
    that name calls the setter the object inherits, which ignores a
    string. *)
Lemma formatted_no_proto (ms : list Validation.ValidationMessage)
  (formatted : Obj string) :
  has "__proto__" formatted = false ->
  has "__proto__"
    (fold_left
       (fun formatted msg =>
          match Validation.field_truthy (Validation.field msg) with
          | Some f => Js.assign f (Validation.message msg) formatted
          | None => Js.assign "_error" (Validation.message msg) formatted
          end) ms formatted) = false.
Proof.
  revert formatted. induction ms as [|m ms IH]; intros formatted Hf; simpl.
  - exact Hf.
  - apply IH.
    destruct (Validation.field_truthy (Validation.field m));
      apply assign_no_proto, Hf.
Qed.

Lemma add_if_error_unkeyed (error : option string) (v : Validation.t) :
  unkeyed v -> unkeyed (add_if_error error v).
Proof.
  unfold unkeyed. intros Hv. destruct error as [e|]; simpl; [|exact Hv].
  destruct (truthy_str e); [|exact Hv]. simpl.
  apply Forall_app. split; [exact Hv|]. constructor; [reflexivity|constructor].
Qed.

Lemma each_rule_unkeyed {W} (input value : Value)
  (rs : list (RuleEntry W)) (acc : Validation.t * W) (v' : Validation.t)
  (w' : W) :
  unkeyed (fst acc) ->
  each_rule input value rs acc = (Normal v', w') ->
  unkeyed v'.
Proof.
  revert acc. induction rs as [|e rs IH]; intros [v w] Hacc; simpl.
  - intros H. inversion H; subst. exact Hacc.
  - destruct e as [r|x]; simpl.
    + destruct (call_rule r input value w) as [[error|x] w1];
        [|discriminate].
      apply IH. simpl. apply add_if_error_unkeyed, Hacc.
    + apply IH. exact Hacc.
Qed.

Lemma validate_entries_unkeyed {W} (input : Value) (entries : RuleMap W)
  (v : Validation.t) (w : W) (v' : Validation.t) (w' : W) :
  unkeyed v ->
  validate_entries input entries v w = (Normal v', w') ->
  unkeyed v'.
Proof.
  revert v w. induction entries as [|[k fr] entries IH]; intros v w Hv; simpl.
  - intros H. inversion H; subst. exact Hv.
  - destruct (get input k) as [value|e]; [|discriminate].
    destruct (validate_field input value fr (v, w)) as [[v1|x] w1] eqn:Hf;
      [|discriminate].
    apply IH.
    apply (each_rule_unkeyed input value (ruleArray fr) (v, w) v1 w1 Hv Hf).
Qed.

Lemma formatted_unkeyed (ms : list Validation.ValidationMessage)
  (m : Validation.ValidationMessage) (formatted : Obj string) :
  Forall (fun m => Validation.field m = None) (ms ++ [m]) ->
  formatted = [] \/ (exists x, formatted = [("_error", x)]) ->
  fold_left
    (fun formatted msg =>
       match Validation.field_truthy (Validation.field msg) with
       | Some f => Js.assign f (Validation.message msg) formatted
       | None => Js.assign "_error" (Validation.message msg) formatted
       end) (ms ++ [m]) formatted
  = [("_error", Validation.message m)].
Proof.
  revert formatted. induction ms as [|m0 ms IH]; intros formatted Hall Hf.
  - simpl. inversion Hall as [|? ? Hm _]; subst. rewrite Hm. simpl.
    destruct Hf as [->|[x ->]]; reflexivity.
  - simpl. inversion Hall as [|? ? Hm0 Hrest]; subst. rewrite Hm0. simpl.
    apply IH; [exact Hrest|]. right.
    destruct Hf as [->|[x ->]]; eexists; reflexivity.
Qed.

End MoreResultFacts.

Section MoreResultProperties.

Import Errors Rules ValidationHelper Formatting Examples MoreExamples.

(** X11.  [getFormatted()] keeps one message per key, the last one: a
    message is filed under its field, or under [_error] when it has
    none, and a later message under the same key overwrites the earlier
    one.  The name [__proto__] is the exception: a message for a field
    of that name is filed nowhere, and the result has no such key. *)
Theorem getFormatted_last_message_wins :
  forall (v : Validation.t) (k : string),
    lookup k (Validation.getFormatted v)
    = if String.eqb k "__proto__" then None
      else option_map Validation.message
             (last_for k (Validation.messages v)).
Proof.
  intros v k. unfold Validation.getFormatted.
  destruct (String.eqb k "__proto__") eqn:Hk.
  - apply String.eqb_eq in Hk. subst k.
    pose proof (formatted_no_proto (Validation.messages v) [] eq_refl) as H.
    unfold has in H.
    destruct (lookup "__proto__" _); [discriminate|reflexivity].
  - rewrite (formatted_lookup _ _ _ Hk).
    destruct (last_for k (Validation.messages v)); reflexivity.
Qed.

(** X12.  [add(field, code, message)] with a non-empty field other than
    [__proto__] and a non-empty message is read back by
    [getFormatted()]: the field maps to the message, the validation is
    no longer valid, and the other keys are as before.  An empty [code]
    is replaced by [ERR_UNKNOWN]. *)
Theorem add_field_message_read_back :
  forall (v : Validation.t) (field code message : string),
    field <> "" -> field <> "__proto__" -> message <> "" ->
    let v' := Validation.add [field; code; message] v in
    Validation.messages v'
    = Validation.messages v
      ++ [Validation.mkMessage
            (if truthy_str code then code else Validation.ERR_UNKNOWN)
            message (Some field)]
    /\ lookup field (Validation.getFormatted v') = Some message
    /\ Validation.isValid v' = false
    /\ forall k, k <> field ->
         lookup k (Validation.getFormatted v')
         = lookup k (Validation.getFormatted v).
Proof.
  intros v field code message Hfield Hproto Hmessage v'.
  assert (Hmsgs : Validation.messages v'
            = Validation.messages v
              ++ [Validation.mkMessage
                    (if truthy_str code then code else Validation.ERR_UNKNOWN)
                    message (Some field)]).
  { subst v'. unfold Validation.add, Validation.or_else.
    destruct field; [congruence|]. destruct message; [congruence|].
    destruct (truthy_str code) eqn:Hc; simpl; rewrite ?Hc; reflexivity. }
  assert (Hfold : forall k,
            lookup k (Validation.getFormatted v')
            = if String.eqb k field then Some message
              else lookup k (Validation.getFormatted v)).
  { intros k. unfold Validation.getFormatted. rewrite Hmsgs.
    rewrite fold_left_app.
    assert (Ht : Validation.field_truthy (Some field) = Some field)
      by (destruct field; [congruence|reflexivity]).
    cbn [fold_left Validation.field Validation.message]. rewrite Ht.
    rewrite lookup_assign.
    destruct (String.eqb_spec field "__proto__") as [e|_];
      [contradiction|reflexivity]. }
  split; [exact Hmsgs|]. split; [|split].
  - rewrite Hfold, String.eqb_refl. reflexivity.
  - unfold Validation.isValid. rewrite Hmsgs, length_app. simpl.
    apply Nat.eqb_neq. lia.
  - intros k Hk. rewrite Hfold.
    destruct (String.eqb_spec k field); [contradiction|reflexivity].
Qed.

(** X12, witness: [add('email', '', 'invalid')] on a validation that
    holds a message for [name]. *)
Lemma add_field_message_read_back_witness :
  let v := Validation.add ["name"; "ERR_FIELD"; "required"] Validation.new in
  let v' := Validation.add ["email"; ""; "invalid"] v in
  Validation.messages v'
  = [Validation.mkMessage "ERR_FIELD" "required" (Some "name");
     Validation.mkMessage "ERR_UNKNOWN" "invalid" (Some "email")]
  /\ lookup "email" (Validation.getFormatted v') = Some "invalid"
  /\ Validation.isValid v' = false
  /\ forall k, k <> "email" ->
       lookup k (Validation.getFormatted v')
       = lookup k (Validation.getFormatted v).
Proof.
  apply (add_field_message_read_back
           (Validation.add ["name"; "ERR_FIELD"; "required"] Validation.new)
           "email" "" "invalid"); discriminate.
Defined.

(** X13.  The messages [validate] adds carry no field, so the per-field
    view of a validation it returns has a single key: [getFormatted()]
    is [{ _error: <the last message> }], whatever fields failed. *)
Theorem validate_formats_under_error_key :
  forall (W : Type) (input : Value) (rules : RuleMap W) (w w' : W)
         (v : Validation.t) (ms : list Validation.ValidationMessage)
         (m : Validation.ValidationMessage),
    validate input rules w = (Normal v, w') ->
    Validation.messages v = ms ++ [m] ->
    Validation.getFormatted v = [("_error", Validation.message m)].
Proof.
  intros W input rules w w' v ms m Hval Hms.
  assert (Hun : unkeyed v).
  { apply (validate_entries_unkeyed input rules Validation.new w v w');
      [constructor|exact Hval]. }
  unfold unkeyed in Hun. unfold Validation.getFormatted.
  rewrite Hms in Hun |- *.
  apply formatted_unkeyed; [exact Hun|left; reflexivity].
Qed.

(** X13, witness: [{ f: [required('first'), probe('second')] }] on [{}]. *)
Lemma validate_formats_under_error_key_witness :
  Validation.getFormatted
    (Validation.mk
       [Validation.mkMessage "ERR_UNKNOWN" "first" None;
        Validation.mkMessage "ERR_UNKNOWN" "second" None])
  = [("_error", "second")].
Proof.
  exact (validate_formats_under_error_key nat (VObj []) two_rules 0 1
           (Validation.mk
              [Validation.mkMessage "ERR_UNKNOWN" "first" None;
               Validation.mkMessage "ERR_UNKNOWN" "second" None])
           [Validation.mkMessage "ERR_UNKNOWN" "first" None]
           (Validation.mkMessage "ERR_UNKNOWN" "second" None)
           eq_refl eq_refl).
Defined.

End MoreResultProperties.
(* ================================================================== *)
(** ** Further properties: the error pipeline *)
(* ================================================================== *)

Section MorePipelineFacts.

Import Errors Http ErrorMiddleware StatusConditions.

(** A handler that answers settles the outcome: what is registered
    after it does not matter. *)
Lemma registry_handle_append (handlers more : Registry) (e : Thrown)
  (req : Request) (res : Response) :
  fst (registry_handle handlers e req res) <> Normal false ->
  registry_handle (handlers ++ more) e req res
  = registry_handle handlers e req res.
Proof.
  induction handlers as [|h handlers IH]; simpl.
  - intros H. exfalso. apply H. reflexivity.
  - destruct (canHandle h e) as [[|]|x]; try reflexivity.
    exact IH.
Qed.

Lemma get_thrown_truthy (e : Thrown) (k : string) :
  truthy (get_thrown_opt e k) = true ->
  get_thrown e k = Normal (get_thrown_opt e k).
Proof.
  unfold get_thrown_opt. destruct (get_thrown e k); [reflexivity|discriminate].
Qed.

End MorePipelineFacts.

Section MorePipelineProperties.

Import Errors Http ErrorMiddleware StatusConditions Examples MoreExamples.

(** X14.  An [AppException] is answered with its own status code,
    whatever is registered after the default handlers.  With a status
    code that carries a body (200 to 999, other than 204, 205 and 304)
    the envelope has the exception's message as both [message] and
    [error]; with 204 or 304 the response goes out without a body; with
    a status code that is no HTTP status (below 100 or above 999)
    nothing goes out and the middleware throws. *)
Theorem app_exception_answers_its_status :
  forall (x : AppException) (later : Registry) (exposeStackTrace : bool)
         (req : Request) (res : Response),
    headersSent res = false ->
    (carries_body (Errors.statusCode x) = true ->
     middleware exposeStackTrace (defaultHandlers ++ later)
       (EAppException x) req res
     = (Normal tt,
        mkResponse (VNum (Errors.statusCode x)) true
          (Some (mkEnvelope false (VStr (ex_message x)) VNull
                   (VStr (ex_message x))))))
    /\ (Errors.statusCode x = 204%Z \/ Errors.statusCode x = 304%Z ->
        middleware exposeStackTrace (defaultHandlers ++ later)
          (EAppException x) req res
        = (Normal tt, mkResponse (VNum (Errors.statusCode x)) true None))
    /\ ((-2147483648 <= Errors.statusCode x < 100
         \/ 999 < Errors.statusCode x < 2147483648)%Z ->
        exists e res',
          middleware exposeStackTrace (defaultHandlers ++ later)
            (EAppException x) req res = (Abrupt e, res')
          /\ headersSent res' = false
          /\ body res' = body res).
Proof.
  intros x later expose req res Hsent.
  assert (Hmid : middleware expose (defaultHandlers ++ later)
                   (EAppException x) req res
                 = match AppResponse res (VNum (Errors.statusCode x)) false
                           VNull (VStr (ex_message x)) (VStr (ex_message x))
                   with
                   | (Normal _, res') => (Normal tt, res')
                   | (Abrupt e, res') => (Abrupt e, res')
                   end).
  { unfold middleware, defaultHandlers.
    cbn [app registry_handle canHandle handle validationHandler
         appExceptionHandler instanceof_Validation instanceof_AppException
         get_thrown String.eqb Ascii.eqb Bool.eqb].
    destruct (AppResponse res (VNum (Errors.statusCode x)) false VNull
                (VStr (ex_message x)) (VStr (ex_message x)))
      as [[u|e] res']; reflexivity. }
  rewrite Hmid. split; [|split].
  - intros Hbody.
    rewrite (AppResponse_sends res _ _ _ _ _ Hsent Hbody). reflexivity.
  - intros Hcode. unfold AppResponse.
    rewrite (json_sends _ (status (VNum (Errors.statusCode x)) res)
               (Errors.statusCode x) Hsent eq_refl) by lia.
    destruct Hcode as [-> | ->]; reflexivity.
  - intros Hcode. unfold AppResponse.
    rewrite (json_refuses _ (status (VNum (Errors.statusCode x)) res)
               (Errors.statusCode x) Hsent eq_refl Hcode).
    eexists. eexists. split; [reflexivity|]. split; [exact Hsent|reflexivity].
Qed.

(** X14, witness: [new AppException('Conflict', 409)]. *)
Lemma app_exception_answers_its_status_witness :
  middleware false loaded_registry conflict a_request fresh
  = (Normal tt,
     mkResponse (VNum 409) true
       (Some (mkEnvelope false (VStr "Conflict") VNull (VStr "Conflict")))).
Proof.
  destruct (app_exception_answers_its_status
              (mkAppException "Conflict" 409 "AppException: Conflict")
              [] false a_request fresh eq_refl) as [H _].
  exact (H eq_refl).
Defined.

(** X15.  Any other thrown value that is not [undefined] or [null] is
    answered by the default handlers: with 400 and the error's own
    [message] as payload when its [type] is ['entity.parse.failed'],
    else with 500 and the error's [message], or the generic text when it
    has none or an empty one. *)
Theorem other_errors_answer_400_or_500 :
  forall (v : Value) (later : Registry) (exposeStackTrace : bool)
         (req : Request) (res : Response),
    nullish v = false ->
    headersSent res = false ->
    middleware exposeStackTrace (defaultHandlers ++ later) (EValue v) req res
    = (Normal tt,
       if is_string (read v "type") "entity.parse.failed"
       then mkResponse (VNum 400) true
              (Some (mkEnvelope false
                       (VStr "Verifique se o JSON está correto") VNull
                       (read v "message")))
       else mkResponse (VNum 500) true
              (Some (mkEnvelope false (VStr internal_error_msg) VNull
                       (if truthy (read v "message")
                        then read v "message"
                        else VStr internal_error_msg)))).
Proof.
  intros v later expose req res Hn Hsent.
  assert (Hget : forall k, Errors.get v k = Normal (read v k)).
  { intros k. unfold Errors.get. rewrite Hn. reflexivity. }
  unfold middleware, defaultHandlers.
  cbn [app registry_handle canHandle handle validationHandler
       appExceptionHandler parseErrorHandler genericHandler
       instanceof_Validation instanceof_AppException get_thrown bind].
  unfold get_thrown_opt. cbn [get_thrown]. rewrite !Hget.
  cbn [bind].
  destruct (is_string (read v "type") "entity.parse.failed").
  - rewrite (AppResponse_sends res 400 _ _ _ _ Hsent eq_refl). reflexivity.
  - unfold or_value.
    rewrite (AppResponse_sends res 500 _ _ _ _ Hsent eq_refl). reflexivity.
Qed.

(** X15, witness: a body-parser error, [new Error('boom')] and the
    thrown string ['oops']. *)
Lemma other_errors_answer_400_or_500_witness :
  middleware false loaded_registry parse_failed a_request fresh
  = (Normal tt,
     mkResponse (VNum 400) true
       (Some (mkEnvelope false (VStr "Verifique se o JSON está correto")
                VNull (VStr "Unexpected token"))))
  /\ middleware false loaded_registry boom a_request fresh
     = (Normal tt,
        mkResponse (VNum 500) true
          (Some (mkEnvelope false (VStr internal_error_msg) VNull
                   (VStr "boom"))))
  /\ middleware false loaded_registry (EValue (VStr "oops")) a_request fresh
     = (Normal tt,
        mkResponse (VNum 500) true
          (Some (mkEnvelope false (VStr internal_error_msg) VNull
                   (VStr internal_error_msg)))).
Proof.
  split; [|split].
  - exact (other_errors_answer_400_or_500
             (VObj [("type", VStr "entity.parse.failed");
                    ("message", VStr "Unexpected token")])
             [] false a_request fresh eq_refl eq_refl).
  - exact (other_errors_answer_400_or_500 (VObj [("message", VStr "boom")])
             [] false a_request fresh eq_refl eq_refl).
  - exact (other_errors_answer_400_or_500 (VStr "oops")
             [] false a_request fresh eq_refl eq_refl).
Defined.

(** X16.  Whatever is registered after the generic handler is never
    consulted: two registries that agree up to and including the generic
    handler treat every error alike. *)
Theorem handlers_after_generic_are_dead :
  forall (pre post post' : Registry) (e : Thrown) (req : Request)
         (res : Response),
    registry_handle (pre ++ genericHandler :: post) e req res
    = registry_handle (pre ++ genericHandler :: post') e req res.
Proof.
  intros pre post post' e req res.
  induction pre as [|h pre IH]; simpl.
  - reflexivity.
  - destruct (canHandle h e) as [[|]|x]; try reflexivity. exact IH.
Qed.

(** X17.  Registering never changes how an error that is already dealt
    with is answered: when [handle] on the registry does not return
    false, it gives the same on the registry a later
    [createErrorMiddleware], [register] or [registerMany] leaves. *)
Theorem registering_keeps_handled_errors :
  forall (handlers : Registry) (config : ErrorMiddlewareConfig)
         (h : ErrorHandler) (hs : list ErrorHandler) (e : Thrown)
         (req : Request) (res : Response),
    fst (registry_handle handlers e req res) <> Normal false ->
    registry_handle (fst (createErrorMiddleware config handlers)) e req res
    = registry_handle handlers e req res
    /\ registry_handle (register h handlers) e req res
       = registry_handle handlers e req res
    /\ registry_handle (registerMany hs handlers) e req res
       = registry_handle handlers e req res.
Proof.
  intros handlers config h hs e req res Hhandled.
  split; [|split].
  - rewrite createErrorMiddleware_registry.
    apply registry_handle_append, Hhandled.
  - apply registry_handle_append, Hhandled.
  - apply registry_handle_append, Hhandled.
Qed.

(** X17, witness: a second middleware created with a project handler
    for [AppException], after the module has registered the defaults:
    the exception still gets the default answer. *)
Lemma registering_keeps_handled_errors_witness :
  registry_handle
    (fst (createErrorMiddleware
            (mkConfig (Some false) (Some [teapot_for_app_exceptions]) None)
            loaded_registry))
    conflict a_request fresh
  = (Normal true,
     mkResponse (VNum 409) true
       (Some (mkEnvelope false (VStr "Conflict") VNull (VStr "Conflict")))).
Proof.
  destruct (registering_keeps_handled_errors loaded_registry
              (mkConfig (Some false) (Some [teapot_for_app_exceptions]) None)
              teapot [] conflict a_request fresh) as [H _].
  - discriminate.
  - rewrite H. reflexivity.
Defined.

(** X18.  When no registered handler takes the error (the defaults are
    disabled or cleared), the middleware answers itself: 500, with the
    error's [stack] when [exposeStackTrace] is set and the error has
    one, else its [message], else the generic text.  This holds for
    [undefined] and [null] too. *)
Theorem unhandled_errors_answer_500 :
  forall (handlers : Registry) (exposeStackTrace : bool) (e : Thrown)
         (req : Request) (res : Response),
    (forall h, In h handlers -> canHandle h e = Normal false) ->
    headersSent res = false ->
    middleware exposeStackTrace handlers e req res
    = (Normal tt,
       mkResponse (VNum 500) true
         (Some (mkEnvelope false (VStr internal_error_msg) VNull
                  (if exposeStackTrace && truthy (get_thrown_opt e "stack")
                   then get_thrown_opt e "stack"
                   else if truthy (get_thrown_opt e "message")
                        then get_thrown_opt e "message"
                        else VStr internal_error_msg)))).
Proof.
  intros handlers expose e req res Hnone Hsent. unfold middleware.
  rewrite (registry_handle_no_match handlers e req res Hnone).
  destruct (expose && truthy (get_thrown_opt e "stack")) eqn:Hstack.
  - apply andb_true_iff in Hstack as [_ Hstack].
    rewrite (get_thrown_truthy e "stack" Hstack).
    apply (AppResponse_sends res 500 _ _ _ _ Hsent eq_refl).
  - unfold or_value. apply (AppResponse_sends res 500 _ _ _ _ Hsent eq_refl).
Qed.

(** X18, witness: the registry after [clear()], on [null]. *)
Lemma unhandled_errors_answer_500_witness :
  middleware true (clear loaded_registry) (EValue VNull) a_request fresh
  = (Normal tt,
     mkResponse (VNum 500) true
       (Some (mkEnvelope false (VStr internal_error_msg) VNull
                (VStr internal_error_msg)))).
Proof.
  apply (unhandled_errors_answer_500 (clear loaded_registry) true
           (EValue VNull) a_request fresh).
  - intros h [].
  - reflexivity.
Defined.

End MorePipelineProperties.
(* ================================================================== *)
(** ** Further properties: the service wrapper *)
(* ================================================================== *)

Section MoreServiceFacts.

Import Errors BaseService ServiceViews ServiceConditions.

(** What one derivation does to the configuration. *)
Lemma derive_state (d : Derivation) (this : Instance) :
  class (target (derive d this)) = class this
  /\ fields (state (target (derive d this))) = fields (state this)
  /\ throwOnError (state (target (derive d this)))
     = throwOnError (state this) && negb (is_silent d)
  /\ transaction (state (target (derive d this)))
     = last_transaction [d] (transaction (state this)).
Proof.
  destruct d as [|t|c]; [| destruct t |]; simpl; repeat split;
    try reflexivity; try (symmetry; apply andb_true_r).
  symmetry. apply andb_false_r.
Qed.

Lemma not_thenable (view : Proxy) :
  lookup "then" (class (target view)) = None -> thenable view = false.
Proof.
  intros Hthen. unfold thenable, reflect_get. rewrite Hthen.
  destruct (own_property (state (target view)) "then"); reflexivity.
Qed.

Lemma last_transaction_cons (d : Derivation) (ds : list Derivation)
  (t0 : Value) :
  last_transaction (d :: ds) t0 = last_transaction ds (last_transaction [d] t0).
Proof. destruct d as [|t|c]; [|destruct t|]; reflexivity. Qed.

Lemma derive_chain_state (ds : list Derivation) (view : Proxy) :
  lookup "then" (class (target view)) = None ->
  exists view',
    derive_chain ds view = Some view'
    /\ class (target view') = class (target view)
    /\ fields (state (target view')) = fields (state (target view))
    /\ throwOnError (state (target view'))
       = throwOnError (state (target view)) && negb (existsb is_silent ds)
    /\ transaction (state (target view'))
       = last_transaction ds (transaction (state (target view))).
Proof.
  revert view. induction ds as [|d ds IH]; intros view Hthen; simpl.
  - exists view. repeat split; try reflexivity. symmetry. apply andb_true_r.
  - destruct (derive_state d (target view)) as [Hc [Hf [Ht Htr]]].
    unfold derive_on_view.
    rewrite (not_thenable (derive d (target view)))
      by (rewrite Hc; exact Hthen).
    destruct (IH (derive d (target view))) as [view' [H1 [H2 [H3 [H4 H5]]]]].
    { rewrite Hc. exact Hthen. }
    exists view'. split; [exact H1|]. split; [congruence|].
    split; [congruence|]. split.
    + rewrite H4, Ht, negb_orb, andb_assoc. reflexivity.
    + rewrite H5, Htr. symmetry. apply last_transaction_cons.
Qed.

End MoreServiceFacts.

Section MoreServiceProperties.

Import Errors BaseService ServiceViews ServiceConditions Examples
       MoreExamples.







(** X22.  [withContext(extra)] merges: in the view's context a key of
    [extra] holds the value [extra] gives it, every other key holds what
    the instance's context holds; the keys stay distinct. *)
Theorem withContext_merges_right_biased :
  forall (this : Instance) (extra : Obj Value) (k : string),
    wf (context (state this)) = true ->
    wf extra = true ->
    lookup k (context (state (target (withContext extra this))))
    = match lookup k extra with
      | Some v => Some v
      | None => lookup k (context (state this))
      end
    /\ wf (context (state (target (withContext extra this)))) = true.
Proof.
  intros this extra k Hctx Hextra. simpl. split.
  - rewrite lookup_spread; [|exact Hctx|apply wf_spread].
    rewrite lookup_spread; [|exact Hctx|exact Hextra].
    destruct (lookup k extra); [reflexivity|].
    destruct (lookup k (context (state this))); reflexivity.
  - apply wf_spread.
Qed.

(** X22, witness: the context [{ a: 1, b: 2 }] and the extra
    [{ b: 3 }]. *)
Lemma withContext_merges_right_biased_witness :
  let this :=
    configure
      (mkServiceConfig None None (Some [("a", VNum 1); ("b", VNum 2)]))
      b_service in
  lookup "b" (context (state (target (withContext [("b", VNum 3)] this))))
  = Some (VNum 3)
  /\ wf (context (state (target (withContext [("b", VNum 3)] this)))) = true.
Proof.
  exact (withContext_merges_right_biased
           (configure
              (mkServiceConfig None None (Some [("a", VNum 1); ("b", VNum 2)]))
              b_service)
           [("b", VNum 3)] "b" eq_refl eq_refl).
Defined.

End MoreServiceProperties.
(* ================================================================== *)
(** ** Further properties: modules and routes *)
(* ================================================================== *)

Section MoreRoutingFacts.

Import Errors Http ErrorMiddleware RouterBuilder Routing.

Context {Controller Middleware : Type}.

Lemma validMiddlewares_app (a b : list (MiddlewareEntry Middleware)) :
  validMiddlewares (a ++ b) = validMiddlewares a ++ validMiddlewares b.
Proof.
  induction a as [|[f|v] a IH]; simpl; [reflexivity| |exact IH].
  f_equal. exact IH.
Qed.

Lemma register_several (ms : list (ModuleDefinition Controller Middleware))
  (extra : option (list (MiddlewareEntry Middleware)))
  (modules : list (ModuleDefinition Controller Middleware)) :
  register (Several ms) extra modules
  = modules ++ map (fun m => applyMiddlewares m extra) ms.
Proof.
  unfold register. revert modules.
  induction ms as [|m ms IH]; intros modules; simpl.
  - symmetry. apply app_nil_r.
  - rewrite IH, <- app_assoc. reflexivity.
Qed.

Lemma middlewares_applied (m : ModuleDefinition Controller Middleware)
  (extra : option (list (MiddlewareEntry Middleware))) :
  or_empty (middlewares (applyMiddlewares m extra))
  = or_empty (middlewares m) ++ or_empty extra
  /\ prefix (applyMiddlewares m extra) = prefix m
  /\ routes (applyMiddlewares m extra) = routes m.
Proof.
  destruct extra as [[|e extra]|]; simpl; repeat split;
    try reflexivity; symmetry; apply app_nil_r.
Qed.

End MoreRoutingFacts.

Section MoreRoutingProperties.

Import Errors Http ErrorMiddleware RouterBuilder Routing StatusConditions
       Examples.

(** X23.  Registration layers middlewares and keeps order.  The modules
    of one [register] call are appended in order after those registered
    before, which stay as they were; a module registered with extra
    middlewares is mounted by [build] under its own prefix, with its own
    routes, and with its own middlewares followed by the extra ones, the
    entries that are not functions left out of both. *)
Theorem register_layers_middlewares :
  forall (Controller Middleware : Type)
         (ms modules : list (ModuleDefinition Controller Middleware))
         (extra : option (list (MiddlewareEntry Middleware)))
         (api : option string),
    getModules (register (Several ms) extra modules)
    = modules ++ map (fun m => applyMiddlewares m extra) ms
    /\ snd (build (mkRoutesConfig api (register (Several ms) extra [])))
       = map (fun m =>
                mkMounted (prefix m)
                  (validMiddlewares (or_empty (middlewares m))
                   ++ validMiddlewares (or_empty extra))
                  (registerRoutes (routes m) (first_controller (routes m))))
             ms.
Proof.
  intros Controller Middleware ms modules extra api. split.
  - apply register_several.
  - unfold build. cbn [snd Routing.modules]. rewrite register_several.
    cbn [app]. rewrite map_map. apply map_ext. intros m.
    destruct (middlewares_applied m extra) as [Hm [Hp Hr]].
    rewrite Hm, Hp, Hr, validMiddlewares_app. reflexivity.
Qed.

(** X24.  A route bound by name to a controller member that is not a
    function, and has no function for its member [call], is registered
    all the same; every request to it ends in the error pipeline, which
    with the default handlers answers 500 with the message of the
    [TypeError] as payload: that [call] cannot be read, for a member
    that is [undefined] (there is no member of the name) or [null], else
    that [route.handler.call] is not a function. *)
Theorem route_to_non_function_answers_500 :
  forall (Controller Middleware : Type)
         (member : Controller -> string -> Member Controller)
         (c : Controller) (verb : HttpMethod) (path name : string)
         (mws : option (list (MiddlewareEntry Middleware))) (v : Value)
         (later : Registry) (exposeStackTrace : bool) (req : Request)
         (res : Response),
    member c name = IsValue v ->
    is_function v = false ->
    is_function (get_opt v "call") = false ->
    headersSent res = false ->
    exists wrapped,
      registerRoutes [bindController member c verb path name mws] (Some c)
      = [(verb, path, or_empty mws, wrapped)]
      /\ serve (defaultHandlers ++ later) exposeStackTrace wrapped req res
         = (Normal tt,
            mkResponse (VNum 500) true
              (Some (mkEnvelope false (VStr internal_error_msg) VNull
                       (VStr (not_callable_text v))))).
Proof.
  intros Controller Middleware member c verb path name mws v later expose
    req res Hmember _ _ Hsent.
  unfold registerRoutes, bindController. simpl. rewrite Hmember.
  eexists. split; [reflexivity|].
  assert (Htext : exists a text, not_callable_text v = String a text).
  { destruct v; simpl; eexists; eexists; reflexivity. }
  destruct Htext as [a [text Htext]].
  unfold serve, wrappedHandler, call_handler, not_callable.
  rewrite Htext. simpl.
  unfold middleware, defaultHandlers. simpl.
  unfold get_thrown_opt. simpl.
  rewrite (AppResponse_sends res 500 _ _ _ _ Hsent eq_refl). reflexivity.
Qed.

(** X24, witness: [route.get('/items', 'index')] on a controller whose
    only method is [list]. *)
Lemma route_to_non_function_answers_500_witness :
  exists wrapped,
    registerRoutes
      [bindController (Middleware := unit) MoreExamples.a_member tt GET
         "/items" "index" None] (Some tt)
    = [(GET, "/items", [], wrapped)]
    /\ serve (defaultHandlers ++ []) false wrapped a_request fresh
       = (Normal tt,
          mkResponse (VNum 500) true
            (Some (mkEnvelope false (VStr internal_error_msg) VNull
                     (VStr "Cannot read properties of undefined (reading 'call')")))).
Proof.
  exact (route_to_non_function_answers_500 unit unit MoreExamples.a_member tt
           GET "/items" "index" None VUndefined [] false a_request fresh
           eq_refl eq_refl eq_refl eq_refl).
Defined.

End MoreRoutingProperties.

(* ================================================================== *)
(** ** Further properties: the context provider *)
(* ================================================================== *)

Section ProviderProperties.

Import Errors ApplicationContext.

(** X25.  The provider is initialized once.  After [initialize(c)] on
    the fresh provider, and whatever calls follow as long as none is
    [reset], [getContext()] returns [c], [isInitialized()] is true, and
    every further [initialize] throws and changes nothing. *)
Theorem provider_is_initialized_once :
  forall (Context : Type) (c : Context) (calls : list (Call Context)),
    existsb is_reset calls = false ->
    let g := run (CallInitialize c :: calls) initial in
    getContext g = Normal c
    /\ isInitialized g = true
    /\ forall c', initialize c' g = (Abrupt already_initialized, g).
Proof.
  intros Context c calls Hno g.
  assert (Hg : g = Some c).
  { subst g. unfold run. simpl.
    induction calls as [|call calls IH]; simpl; [reflexivity|].
    simpl in Hno. apply orb_false_iff in Hno as [Hcall Hno].
    destruct call; simpl; try (apply IH, Hno). discriminate. }
  rewrite Hg. repeat split.
Qed.

(** X25, witness: [initialize(1); getContext(); initialize(2);
    isInitialized()]. *)
Lemma provider_is_initialized_once_witness :
  let g :=
    run [CallInitialize 1; CallGetContext; CallInitialize 2;
         CallIsInitialized] initial in
  getContext g = Normal 1
  /\ isInitialized g = true
  /\ forall c', initialize c' g = (Abrupt already_initialized, g).
Proof.
  exact (provider_is_initialized_once nat 1
           [CallGetContext; CallInitialize 2; CallIsInitialized] eq_refl).
Defined.

End ProviderProperties.

(* ================================================================== *)
(** ** Further properties: the request log and to_boolean *)
(* ================================================================== *)

Section SmallProperties.

Import CaptureRequest MoreHelper.

(** X26.  The log levels split the status codes: [all] logs every
    request and [none] no request; [success] logs the codes below 400,
    [warn] those from 400 to 499, [error] those from 500 on, so that
    every code is logged by exactly one of the three; any other level
    logs nothing. *)
Theorem log_levels_partition_status_codes :
  forall (statusCode : Z) (level : string),
    logs "all" statusCode = true
    /\ logs "none" statusCode = false
    /\ (logs "success" statusCode = true <-> (statusCode < 400)%Z)
    /\ (logs "warn" statusCode = true
        <-> (400 <= statusCode < 500)%Z)
    /\ (logs "error" statusCode = true <-> (500 <= statusCode)%Z)
    /\ (level <> "all" -> level <> "success" -> level <> "warn" ->
        level <> "error" -> logs level statusCode = false).
Proof.
  intros statusCode level. unfold logs, listens, shouldLog. simpl.
  split; [reflexivity|]. split; [reflexivity|].
  split; [|split; [|split]].
  - destruct (Z.ltb_spec statusCode 400); simpl; split; intros;
      try reflexivity; try lia; try discriminate.
  - destruct (Z.leb_spec 400 statusCode), (Z.ltb_spec statusCode 500);
      simpl; split; intros; try reflexivity; try lia; try discriminate.
  - destruct (Z.leb_spec 500 statusCode); simpl; split; intros;
      try reflexivity; try lia; try discriminate.
  - intros Hall Hsuccess Hwarn Herror.
    apply String.eqb_neq in Hall, Hsuccess, Hwarn, Herror.
    rewrite Hall, Hsuccess, Hwarn, Herror.
    destruct (negb (String.eqb level "none")); reflexivity.
Qed.

(** X27.  [to_boolean] of a non-empty string is false only for
    ['false'] in any letter case; every other non-empty string,
    ['0'] and ['no'] included, gives true.  The default is returned for
    [undefined], [null] and the empty string only. *)
Theorem to_boolean_of_strings :
  forall (s : string) (defaultValue : option bool),
    s <> "" ->
    to_boolean (VStr s) defaultValue
    = Some (negb (String.eqb (toLowerCase s) "false")).
Proof.
  intros s d Hs. unfold to_boolean. destruct s as [|c s]; [congruence|].
  destruct (String.eqb (toLowerCase (String c s)) "true") eqn:Ht.
  - apply String.eqb_eq in Ht. rewrite Ht. reflexivity.
  - destruct (String.eqb (toLowerCase (String c s)) "false"); reflexivity.
Qed.

(** X27, witness: ['FALSE'], ['0'] and ['True']. *)
Lemma to_boolean_of_strings_witness :
  to_boolean (VStr "FALSE") None = Some false
  /\ to_boolean (VStr "0") (Some false) = Some true
  /\ to_boolean (VStr "True") None = Some true.
Proof.
  split; [|split].
  - rewrite to_boolean_of_strings by discriminate. reflexivity.
  - rewrite to_boolean_of_strings by discriminate. reflexivity.
  - rewrite to_boolean_of_strings by discriminate. reflexivity.
Defined.

End SmallProperties.

(* ================================================================== *)
(** ** Further properties: the query filters *)
(* ================================================================== *)

Section QueryFilterFacts.

Import Errors QueryFilter.

Context {W : Type}.

(** [Object.assign] writes every key of a well-formed source but
    [__proto__]. *)
Lemma lookup_Object_assign (k : string) (where_ result : Obj Value) :
  wf result = true ->
  String.eqb k "__proto__" = false ->
  lookup k (Object_assign where_ (VObj result))
  = match lookup k result with
    | Some x => Some x
    | None => lookup k where_
    end.
Proof.
  unfold Object_assign, wf. cbn [own_entries]. intros Hwf Hk.
  revert where_ Hwf.
  induction result as [|[k' v] result IH]; intros where_ Hwf; simpl.
  - reflexivity.
  - simpl in Hwf. apply andb_true_iff in Hwf as [Hk' Hwf].
    rewrite IH by exact Hwf. rewrite (lookup_assign_plain _ _ _ _ Hk).
    destruct (String.eqb_spec k k') as [->|Hne]; [|reflexivity].
    apply negb_true_iff in Hk'. rewrite existsb_keys_lookup in Hk'.
    unfold has in Hk'. destruct (lookup k' result); [discriminate|reflexivity].
Qed.

Lemma merge_result_keeps (k : string) (where_ : Obj Value) (result : Value) :
  has k where_ = true -> has k (merge_result where_ result) = true.
Proof.
  intros Hk. unfold merge_result, Object_assign.
  destruct (truthy result); [|exact Hk].
  revert where_ Hk.
  induction (own_entries result) as [|[k' v] entries IH]; intros where_ Hk;
    simpl; [exact Hk|].
  apply IH, has_assign, Hk.
Qed.

Lemma filter_entries_keeps (k : string) (input : Value)
  (filters : Obj (FilterFn W)) (where_ where' : Obj Value) (w w' : W) :
  filter_entries input filters where_ w = (Normal where', w') ->
  has k where_ = true -> has k where' = true.
Proof.
  revert where_ w. induction filters as [|[field fn] filters IH];
    intros where_ w; simpl.
  - intros H Hk. inversion H; subst. exact Hk.
  - destruct (get input field) as [value|e]; [|discriminate].
    destruct (present value).
    + destruct (fn value input w) as [[result|e] w1]; [|discriminate].
      intros H Hk. apply (IH _ _ H), merge_result_keeps, Hk.
    + intros H Hk. apply (IH _ _ H), Hk.
Qed.

Lemma each_condition_keeps (k : string) (input : Value)
  (conditions : list (ConditionFn W)) (where_ where' : Obj Value)
  (w w' : W) :
  each_condition input conditions where_ w = (Normal where', w') ->
  has k where_ = true -> has k where' = true.
Proof.
  revert where_ w. induction conditions as [|c conditions IH];
    intros where_ w; simpl.
  - intros H Hk. inversion H; subst. exact Hk.
  - destruct (c input w) as [[result|e] w1]; [|discriminate].
    intros H Hk. apply (IH _ _ H), merge_result_keeps, Hk.
Qed.

(** The loop of [conditionalFilter] ends with its last condition. *)
Lemma each_condition_last (input : Value)
  (before : list (ConditionFn W)) (last : ConditionFn W)
  (where_ where' : Obj Value) (w w' : W) :
  each_condition input (before ++ [last]) where_ w = (Normal where', w') ->
  exists where1 w1 result,
    last input w1 = (Normal result, w')
    /\ where' = merge_result where1 result.
Proof.
  revert where_ w. induction before as [|c before IH]; intros where_ w; simpl.
  - destruct (last input w) as [[result|e] w1] eqn:Hlast; [|discriminate].
    intros H. inversion H; subst. exists where_, w, result.
    split; [exact Hlast|reflexivity].
  - destruct (c input w) as [[result|e] w1]; [|discriminate].
    apply IH.
Qed.

End QueryFilterFacts.

Section QueryFilterProperties.

Import Errors QueryFilter Examples MoreExamples.

(** X28.  A filter is applied only to a field the input fills: when
    every field the filters name reads as [undefined], [null] or the
    empty string on the input (which is not [null], [undefined] or a
    function), no filter function is called, so that the world is as it
    was, and [filter] returns a copy of [baseWhere]. *)
Theorem filter_skips_empty_fields :
  forall (W : Type) (input : Value) (filters : Obj (FilterFn W))
         (baseWhere : Value) (w : W),
    nullish input = false ->
    is_function input = false ->
    (forall field fn, In (field, fn) filters ->
       present (read input field) = false) ->
    filter input filters baseWhere w = (Normal (copy_of baseWhere), w).
Proof.
  intros W input filters baseWhere w Hn _. unfold filter.
  generalize (copy_of baseWhere) as where_.
  induction filters as [|[field fn] filters IH]; intros where_ Hempty; simpl.
  - reflexivity.
  - unfold get. rewrite Hn.
    rewrite (Hempty field fn (or_introl eq_refl)).
    apply IH. intros field' fn' H. apply (Hempty field' fn'). right. exact H.
Qed.

(** X28, witness: the filters on [status] and [name], each of which
    counts its calls, and the input [{ name: '', status: null }], over
    [{ active: true }]: the count stays at 0. *)
Lemma filter_skips_empty_fields_witness :
  filter an_empty_query some_filters (VObj [("active", VBool true)]) 0
  = (Normal [("active", VBool true)], 0).
Proof.
  apply (filter_skips_empty_fields nat an_empty_query some_filters
           (VObj [("active", VBool true)]) 0 eq_refl eq_refl).
  intros field fn [H|[H|[]]]; inversion H; reflexivity.
Defined.

(** X29.  When [prepareFilter] returns, it has dropped no key of
    [baseWhere], and the conditions have the last word: a key other
    than [__proto__] that the result of the last condition sets holds
    that value in the result, whatever [baseWhere], the filters and the
    earlier conditions gave it. *)
Theorem prepareFilter_conditions_win :
  forall (W : Type) (input : Value) (options : Options W)
         (where_ : Obj Value) (w w' : W),
    prepareFilter input options w = (Normal where_, w') ->
    (forall k,
       has k
         (copy_of
            (match opt_baseWhere options with
             | Some VUndefined | None => VObj []
             | Some b => b
             end)) = true ->
       has k where_ = true)
    /\ (forall before last result k v,
          opt_conditions options = Some (before ++ [last]) ->
          (forall w0, fst (last input w0) = Normal (VObj result)) ->
          wf result = true ->
          k <> "__proto__" ->
          lookup k result = Some v ->
          lookup k where_ = Some v).
Proof.
  intros W input options where_ w w'. unfold prepareFilter.
  set (filters := match opt_filters options with
                  | Some f => f | None => [] end).
  set (conditions := match opt_conditions options with
                     | Some c => c | None => [] end).
  set (baseWhere := match opt_baseWhere options with
                    | Some VUndefined | None => VObj []
                    | Some b => b end).
  destruct (filter input filters baseWhere w) as [[where0|e] w1] eqn:Hfilter;
    [|discriminate].
  unfold conditionalFilter. intros Hcond. split.
  - intros k Hk.
    apply (each_condition_keeps k input conditions _ _ _ _ Hcond).
    unfold copy_of at 1. cbn [own_entries]. rewrite has_assign_all.
    rewrite (filter_entries_keeps k input filters (copy_of baseWhere) where0
               w w1 Hfilter Hk).
    apply orb_true_r.
  - intros before last result k v Hc Hlast Hwf Hproto Hk.
    subst conditions. rewrite Hc in Hcond.
    destruct (each_condition_last input before last _ _ _ _ Hcond)
      as [where1 [w0 [r [Hcall ->]]]].
    specialize (Hlast w0). rewrite Hcall in Hlast. simpl in Hlast.
    inversion Hlast; subst r.
    unfold merge_result. cbn [truthy].
    rewrite lookup_Object_assign; [rewrite Hk; reflexivity|exact Hwf|].
    destruct (String.eqb_spec k "__proto__"); [contradiction|reflexivity].
Qed.

(** X29, witness: the filter on [status] gives ['open'], the condition
    then sets [status] to ['admin']; [active] of [baseWhere] stays. *)
Lemma prepareFilter_conditions_win_witness :
  exists where_,
    prepareFilter a_query
      (mkOptions (Some some_filters) (Some [admin_condition])
         (Some (VObj [("active", VBool true)]))) 0
    = (Normal where_, 1)
    /\ has "active" where_ = true
    /\ lookup "status" where_ = Some (VStr "admin").
Proof.
  eexists. split; [reflexivity|].
  destruct (prepareFilter_conditions_win nat a_query
              (mkOptions (Some some_filters) (Some [admin_condition])
                 (Some (VObj [("active", VBool true)])))
              _ 0 1 eq_refl) as [Hkeeps Hlast].
  split.
  - exact (Hkeeps "active" eq_refl).
  - apply (Hlast [] admin_condition [("status", VStr "admin")] "status"
             (VStr "admin") eq_refl).
    + intros w0. reflexivity.
    + reflexivity.
    + discriminate.
    + reflexivity.
Defined.

End QueryFilterProperties.
(* ================================================================== *)
(** ** Further properties: the CORS middleware *)
(* ================================================================== *)

Section CorsFacts.

Import Errors Cors.

Lemma and_then_skip (b : Action) (res : Response) :
  and_then skip b res = b res.
Proof. reflexivity. Qed.

Lemma and_then_header (field value : string) (b : Action)
  (hs : Obj string) (sc : Z) (bd : option string) :
  header_value value = true ->
  and_then (header field value) b (mkResponse hs sc false bd)
  = b (mkResponse (Js.set (MoreHelper.toLowerCase field) value hs) sc false bd).
Proof.
  intros Hv. unfold and_then, header. simpl. rewrite Hv. reflexivity.
Qed.

Lemma origin_given_listed (origins : list string) (o : option string) :
  origin_listed origins o = true -> exists s, origin_given o = Some s.
Proof.
  destruct o as [s|]; simpl; [|discriminate].
  destruct (truthy_str s); [|discriminate]. intros _. exists s. reflexivity.
Qed.

Lemma origin_given_legal (o : option string) (s : string) :
  match o with Some o' => header_value o' | None => true end = true ->
  origin_given o = Some s -> header_value s = true.
Proof.
  destruct o as [o'|]; simpl; [|discriminate].
  destruct (truthy_str o'); [|discriminate].
  intros H E. inversion E; subst. exact H.
Qed.

End CorsFacts.

Section CorsProperties.

Import Errors Cors CorsConditions.

(** X30.  On a response that has not gone out, with no [beforeResponse]
    hook and legal header values, the middleware sets
    [Access-Control-Allow-Origin] exactly when the origin is allowed:
    to the request's origin when there is one, to [*] otherwise; for an
    origin that is not allowed the header is left as it was.  An
    [OPTIONS] request is answered on the spot with status 200; any
    other request goes on to [next] with the response still open and
    its status untouched. *)
Theorem cors_allow_origin :
  forall (config : CorsConfig) (req : Request) (res : Response),
    beforeResponse config = None ->
    headersSent res = false ->
    values_legal config req = true ->
    exists res',
      corsMiddleware config req res
      = (Normal (if String.eqb (method req) "OPTIONS"
                 then Answered else NextCalled), res')
      /\ lookup "access-control-allow-origin" (headers res')
         = (if origin_allowed config req
            then Some (match origin_given (origin req) with
                       | Some o => o
                       | None => "*"
                       end)
            else lookup "access-control-allow-origin" (headers res))
      /\ headersSent res' = String.eqb (method req) "OPTIONS"
      /\ statusCode res'
         = (if String.eqb (method req) "OPTIONS"
            then 200%Z else statusCode res).
Proof.
  intros [ao am ah ac eh ma br] req [hs sc sent bd] Hbr Hsent Hlegal.
  simpl in Hbr, Hsent. subst br sent.
  unfold values_legal in Hlegal. cbn [allowedMethods allowedHeaders
    exposedHeaders maxAge] in Hlegal.
  apply andb_true_iff in Hlegal as [Hlegal Hage].
  apply andb_true_iff in Hlegal as [Hlegal Hexposed].
  apply andb_true_iff in Hlegal as [Hlegal Hheaders].
  apply andb_true_iff in Hlegal as [Horigin Hmethods].
  unfold corsMiddleware, origin_allowed.
  cbn [allowedMethods allowedHeaders allowCredentials exposedHeaders maxAge
       beforeResponse headers statusCode].
  set (origins := origins_of _).
  set (rest := and_then (header "Access-Control-Allow-Methods" _) _).
  set (allowed := if includes origins "*" || origin_listed origins (origin req)
                  then Some (match origin_given (origin req) with
                             | Some o => o | None => "*" end)
                  else lookup "access-control-allow-origin" hs).
  assert (Hfirst : exists hs1,
             and_then
               match
                 (if includes origins "*" || origin_listed origins (origin req)
                  then origin_given (origin req) else None)
               with
               | Some o => header "Access-Control-Allow-Origin" o
               | None =>
                   if includes origins "*"
                   then header "Access-Control-Allow-Origin" "*"
                   else skip
               end rest (mkResponse hs sc false bd)
             = rest (mkResponse hs1 sc false bd)
             /\ lookup "access-control-allow-origin" hs1 = allowed).
  { subst allowed. destruct (includes origins "*") eqn:Hstar; simpl orb.
    - destruct (origin_given (origin req)) as [s|] eqn:Hgiven.
      + rewrite and_then_header
          by exact (origin_given_legal _ _ Horigin Hgiven).
        eexists. split; [reflexivity|]. rewrite lookup_set. reflexivity.
      + rewrite and_then_header by reflexivity.
        eexists. split; [reflexivity|]. rewrite lookup_set. reflexivity.
    - destruct (origin_listed origins (origin req)) eqn:Hlisted.
      + destruct (origin_given_listed _ _ Hlisted) as [s Hgiven].
        rewrite Hgiven.
        rewrite and_then_header
          by exact (origin_given_legal _ _ Horigin Hgiven).
        eexists. split; [reflexivity|]. rewrite lookup_set. reflexivity.
      + rewrite and_then_skip. exists hs. split; reflexivity. }
  destruct Hfirst as [hs1 [-> Hallowed]]. clearbody allowed. subst rest.
  assert (Hrest : exists hs2,
             and_then
               (header "Access-Control-Allow-Methods"
                  (join ", "
                     (or_default am
                        ["GET"; "POST"; "PUT"; "PATCH"; "DELETE"; "OPTIONS"])))
               (and_then
                  (header "Access-Control-Allow-Headers"
                     (join ", "
                        (or_default ah
                           ["Origin"; "X-Requested-With"; "Content-Type";
                            "Accept"; "Authorization"])))
                  (and_then
                     (header "Access-Control-Allow-Credentials"
                        (if or_default ac true then "true" else "false"))
                     (and_then
                        (if (0 <? Datatypes.length (or_default eh []))%nat
                         then header "Access-Control-Expose-Headers"
                                (join ", " (or_default eh []))
                         else skip)
                        (and_then
                           (if negb (or_default ma 86400 =? 0)%Z
                            then header "Access-Control-Max-Age"
                                   (string_of_Z (or_default ma 86400%Z))
                            else skip)
                           skip))))
               (mkResponse hs1 sc false bd)
             = (Normal tt, mkResponse hs2 sc false bd)
             /\ lookup "access-control-allow-origin" hs2
                = lookup "access-control-allow-origin" hs1).
  { rewrite and_then_header by exact Hmethods.
    rewrite and_then_header by exact Hheaders.
    rewrite and_then_header by (destruct (or_default ac true); reflexivity).
    destruct (0 <? Datatypes.length (or_default eh []))%nat;
      [rewrite and_then_header by exact Hexposed|rewrite and_then_skip];
      (destruct (negb (or_default ma 86400 =? 0)%Z);
       [rewrite and_then_header by exact Hage|rewrite and_then_skip]);
      (eexists; split; [reflexivity|]);
      rewrite ?lookup_set; reflexivity. }
  destruct Hrest as [hs2 [-> Hsame]].
  destruct (String.eqb (method req) "OPTIONS"); simpl;
    eexists; (split; [reflexivity|]); simpl;
    rewrite Hsame, Hallowed; repeat split; reflexivity.
Qed.

(** X30, witness: the list [https://a.example] and a request from
    [https://b.example]: no [Access-Control-Allow-Origin], and [next]
    is called. *)
Lemma cors_allow_origin_witness :
  exists res',
    corsMiddleware
      (mkCorsConfig (Some (ManyOrigins ["https://a.example"]))
         None None None None None None)
      (mkRequest (Some "https://b.example") "GET")
      (mkResponse [] 200 false None)
    = (Normal NextCalled, res')
    /\ lookup "access-control-allow-origin" (headers res') = None
    /\ headersSent res' = false
    /\ statusCode res' = 200%Z.
Proof.
  exact (cors_allow_origin
           (mkCorsConfig (Some (ManyOrigins ["https://a.example"]))
              None None None None None None)
           (mkRequest (Some "https://b.example") "GET")
           (mkResponse [] 200 false None) eq_refl eq_refl eq_refl).
Defined.

End CorsProperties.
